(** * A Vision Transformer and its mixed-precision training script

    Shallow embedding of [vit_reimplement.py].  Python integers are [Z],
    Python float literals of the configuration are [Q], tensor entries are
    real numbers ([R]): the reduced-precision arithmetic selected by
    [autocast] is idealised to exact real arithmetic.  Exceptions are the
    [Raise] branch of a result type; the mutable pieces of the script (the
    parameter heap, the global namespace, the random generator) are passed
    explicitly. *)

From Stdlib Require Import ZArith QArith Qreals Reals Psatz List Bool.
From Stdlib Require Import FunctionalExtensionality.
From stdpp Require Import base option list gmap strings pretty.

Import ListNotations.
Local Open Scope Z_scope.

(** ** Python exceptions and results *)

Inductive exn : Type :=
| AssertionError (msg : string)
| ZeroDivisionError
| NameError (name : string)
| ValueError
| IndexError
| TypeError
| FileNotFoundError
| RuntimeError.

Inductive result (A : Type) : Type :=
| Ok (a : A)
| Raise (e : exn).
Arguments Ok {A} a.
Arguments Raise {A} e.

Definition rbind {A B} (c : result A) (k : A -> result B) : result B :=
  match c with
  | Ok a => k a
  | Raise e => Raise e
  end.

Definition is_ok {A} (c : result A) : bool :=
  match c with Ok _ => true | Raise _ => false end.

Declare Scope py_scope.
Delimit Scope py_scope with py.
Notation "'let*' x ':=' c 'in' k" := (rbind c (fun x => k))
  (at level 10, x pattern, c at level 100, k at level 200) : py_scope.
Local Open Scope py_scope.

(** [a % b] and [a // b] on Python ints: floor semantics, as [Z.modulo] and
    [Z.div], except that a zero divisor raises. *)
Definition py_mod (a b : Z) : result Z :=
  if b =? 0 then Raise ZeroDivisionError else Ok (a mod b).

Definition py_floordiv (a b : Z) : result Z :=
  if b =? 0 then Raise ZeroDivisionError else Ok (a / b).

Definition py_assert (c : bool) (msg : string) : result unit :=
  if c then Ok tt else Raise (AssertionError msg).

(** The value of [n ** -0.5] for an int [n]: a float for a positive base, an
    error for base zero, a complex number for a negative base. *)
Inductive pynum : Type :=
| PyFloat (r : R)
| PyComplex.

Definition py_pow_neg_half (n : Z) : result pynum :=
  if n =? 0 then Raise ZeroDivisionError
  else if n <? 0 then Ok PyComplex
  else Ok (PyFloat (Rpower (IZR n) (- (1 / 2)))).

(** ** State and exceptions

    Construction threads the parameter heap, the forward pass threads the
    state of the random generator; both can raise. *)

Definition ST (S A : Type) : Type := S -> result (A * S).

Definition sret {S A} (a : A) : ST S A := fun s => Ok (a, s).
Definition sbind {S A B} (c : ST S A) (k : A -> ST S B) : ST S B :=
  fun s => match c s with
           | Ok (a, s') => k a s'
           | Raise e => Raise e
           end.
Definition slift {S A} (c : result A) : ST S A :=
  fun s => match c with Ok a => Ok (a, s) | Raise e => Raise e end.

Declare Scope st_scope.
Delimit Scope st_scope with st.
Notation "'let*' x ':=' c 'in' k" := (sbind c (fun x => k))
  (at level 10, x pattern, c at level 100, k at level 200) : st_scope.

(** ** Tensors

    A tensor is its shape and its entries, addressed by a multi-index. *)

Record tensor : Type := Tensor { shape : list Z; at_ : list Z -> R }.

Definition numel (s : list Z) : Z := fold_right Z.mul 1 s.

Fixpoint rsum_nat (n : nat) (f : Z -> R) : R :=
  match n with
  | O => 0%R
  | S k => (rsum_nat k f + f (Z.of_nat k))%R
  end.

(** [rsum n f] is the sum of [f i] for [0 <= i < n]. *)
Definition rsum (n : Z) (f : Z -> R) : R := rsum_nat (Z.to_nat n) f.

(** Row-major offset of a multi-index, and its inverse. *)
Fixpoint ravel (s idx : list Z) : Z :=
  match s, idx with
  | _ :: s', i :: idx' => i * numel s' + ravel s' idx'
  | _, _ => 0
  end.

Fixpoint unravel (s : list Z) (k : Z) : list Z :=
  match s with
  | [] => []
  | _ :: s' => (k / numel s') :: unravel s' (k mod numel s')
  end.

Definition lead (idx : list Z) : list Z := List.removelast idx.
Definition lasti (idx : list Z) : Z := List.last idx 0.

(** [t.reshape(d1, ..., dk, -1)]: the last dimension is inferred. *)
Definition reshape_infer (known : list Z) (t : tensor) : result tensor :=
  let k := numel known in
  let total := numel (shape t) in
  if existsb (fun d => d <? 0) known then Raise RuntimeError
  else if k =? 0 then Raise RuntimeError
  else if total mod k =? 0
       then let s' := known ++ [total / k] in
            Ok (Tensor s' (fun idx => at_ t (unravel (shape t) (ravel s' idx))))
       else Raise RuntimeError.

(** [t.transpose(1, 2)] *)
Definition transpose12 (t : tensor) : result tensor :=
  match shape t with
  | a :: b :: c :: rest =>
      Ok (Tensor (a :: c :: b :: rest)
            (fun idx => match idx with
                        | i :: j :: k :: r => at_ t (i :: k :: j :: r)
                        | _ => 0%R
                        end))
  | _ => Raise IndexError
  end.

(** [t.flatten(2)] *)
Definition flatten2 (t : tensor) : result tensor :=
  match shape t with
  | a :: b :: c :: rest =>
      Ok (Tensor [a; b; numel (c :: rest)]
            (fun idx => match idx with
                        | [i; j; k] => at_ t (i :: j :: unravel (c :: rest) k)
                        | _ => 0%R
                        end))
  | _ => Raise IndexError
  end.

(** [t.chunk(3, dim=-1)]: pieces of [ceil(L/3)] entries of the last axis, the
    last piece possibly shorter, and possibly fewer than three pieces. *)
Definition chunk3 (t : tensor) : result (list tensor) :=
  match rev (shape t) with
  | [] => Raise IndexError
  | L :: pre =>
      let c := (L + 2) / 3 in
      let cnt := if L =? 0 then 3 else (L + c - 1) / c in
      Ok (map (fun i =>
                 Tensor (rev pre ++ [Z.min c (L - i * c)])
                   (fun idx => at_ t (lead idx ++ [i * c + lasti idx])))
            (map Z.of_nat (seq 0 (Z.to_nat cnt))))
  end.

(** [torch.einsum('bhid,bhjd->bhij', q, k)]; the operands of the model have
    equal batch, head and inner sizes, broadcasting of size-one axes is not
    modelled. *)
Definition einsum_qk (q k : tensor) : result tensor :=
  match shape q, shape k with
  | [b; h; i; d], [b'; h'; j; d'] =>
      if (b =? b') && (h =? h') && (d =? d')
      then Ok (Tensor [b; h; i; j]
                 (fun idx => match idx with
                             | [ib; ih; ii; ij] =>
                                 rsum d (fun x => at_ q [ib; ih; ii; x]
                                                  * at_ k [ib; ih; ij; x])%R
                             | _ => 0%R
                             end))
      else Raise RuntimeError
  | _, _ => Raise RuntimeError
  end.

(** [torch.einsum('bhij,bhjd->bhid', attn, v)] *)
Definition einsum_av (a v : tensor) : result tensor :=
  match shape a, shape v with
  | [b; h; i; j], [b'; h'; j'; d] =>
      if (b =? b') && (h =? h') && (j =? j')
      then Ok (Tensor [b; h; i; d]
                 (fun idx => match idx with
                             | [ib; ih; ii; id] =>
                                 rsum j (fun x => at_ a [ib; ih; ii; x]
                                                  * at_ v [ib; ih; x; id])%R
                             | _ => 0%R
                             end))
      else Raise RuntimeError
  | _, _ => Raise RuntimeError
  end.

(** [t * c] for a Python number [c] *)
Definition scale_by (c : R) (t : tensor) : tensor :=
  Tensor (shape t) (fun idx => (at_ t idx * c)%R).

(** [t.softmax(dim=-1)]: along the last axis, [exp x_j / sum_k exp x_k]. *)
Definition softmax_last (t : tensor) : result tensor :=
  match rev (shape t) with
  | [] => Raise IndexError
  | L :: _ =>
      Ok (Tensor (shape t)
            (fun idx => (exp (at_ t idx)
                         / rsum L (fun k => exp (at_ t (lead idx ++ [k]))))%R))
  end.

(** Broadcasting of two shapes, aligned at the last axis (on reversed
    shapes). *)
Fixpoint broadcast_rev (a b : list Z) : option (list Z) :=
  match a, b with
  | [], _ => Some b
  | _, [] => Some a
  | x :: a', y :: b' =>
      match broadcast_rev a' b' with
      | Some r =>
          if x =? y then Some (x :: r)
          else if x =? 1 then Some (y :: r)
          else if y =? 1 then Some (x :: r)
          else None
      | None => None
      end
  end.

Definition broadcast (a b : list Z) : option (list Z) :=
  match broadcast_rev (rev a) (rev b) with
  | Some r => Some (rev r)
  | None => None
  end.

Fixpoint bindex_rev (s idx : list Z) : list Z :=
  match s, idx with
  | d :: s', i :: idx' => (if d =? 1 then 0 else i) :: bindex_rev s' idx'
  | _, _ => []
  end.

(** The entry of an operand of shape [s] read for the entry [idx] of the
    broadcast result. *)
Definition bindex (s idx : list Z) : list Z :=
  rev (bindex_rev (rev s) (rev idx)).

Definition shape_eqb (a b : list Z) : bool :=
  (Z.of_nat (length a) =? Z.of_nat (length b))
  && forallb (fun p => fst p =? snd p) (combine a b).

(** [a + b] *)
Definition tadd (a b : tensor) : result tensor :=
  match broadcast (shape a) (shape b) with
  | Some s =>
      Ok (Tensor s (fun idx => (at_ a (bindex (shape a) idx)
                                + at_ b (bindex (shape b) idx))%R))
  | None => Raise RuntimeError
  end.

(** [a += b]: the broadcast shape has to be the shape of [a]. *)
Definition tiadd (a b : tensor) : result tensor :=
  match broadcast (shape a) (shape b) with
  | Some s =>
      if shape_eqb s (shape a)
      then Ok (Tensor (shape a)
                 (fun idx => (at_ a idx + at_ b (bindex (shape b) idx))%R))
      else Raise RuntimeError
  | None => Raise RuntimeError
  end.

(** [t.expand(b, -1, -1)] *)
Definition expand_batch (b : Z) (t : tensor) : result tensor :=
  match shape t with
  | [c0; c1; c2] =>
      if (0 <=? b) && ((c0 =? 1) || (c0 =? b))
      then Ok (Tensor [b; c1; c2]
                 (fun idx => match idx with
                             | [i; j; k] =>
                                 at_ t [if c0 =? 1 then 0 else i; j; k]
                             | _ => 0%R
                             end))
      else Raise RuntimeError
  | _ => Raise RuntimeError
  end.

(** [torch.cat((a, b), dim=1)] *)
Definition cat1 (a b : tensor) : result tensor :=
  match shape a, shape b with
  | a0 :: a1 :: ra, b0 :: b1 :: rb =>
      if shape_eqb (a0 :: ra) (b0 :: rb)
      then Ok (Tensor (a0 :: a1 + b1 :: ra)
                 (fun idx => match idx with
                             | i :: j :: r =>
                                 if j <? a1 then at_ a (i :: j :: r)
                                 else at_ b (i :: j - a1 :: r)
                             | _ => 0%R
                             end))
      else Raise RuntimeError
  | _, _ => Raise IndexError
  end.

(** [t[:, 0]] *)
Definition select_first (t : tensor) : result tensor :=
  match shape t with
  | a :: b :: rest =>
      if 0 <? b
      then Ok (Tensor (a :: rest)
                 (fun idx => match idx with
                             | i :: r => at_ t (i :: 0 :: r)
                             | _ => 0%R
                             end))
      else Raise IndexError
  | _ => Raise IndexError
  end.

(** ** The parameter heap

    Every [nn.Parameter] is a fresh cell of the heap; a module holds the
    addresses of its parameters.  At construction only the shapes matter
    (the initial values are random); the values live in a store read by the
    forward pass. *)

Definition pid := nat.
Abbreviation heap := (list (list Z)).
Definition store := pid -> tensor.

Definition Ctor (A : Type) : Type := ST heap A.

(** Allocating a tensor fails on a negative dimension. *)
Definition new_param (s : list Z) : Ctor pid :=
  fun h => if forallb (fun d => 0 <=? d) s
           then Ok (length h, h ++ [s])
           else Raise RuntimeError.

(** What the model takes from the library and cannot be written down here:
    the scalar function behind [nn.GELU], and the random generator: a draw
    gives one uniform sample per entry of a shape, and the next state. *)
Record backend : Type :=
  { gelu : R -> R;
    gen : Type;
    uniform : gen -> list Z -> (list Z -> R) * gen }.

Definition Fwd (B : backend) (A : Type) : Type := ST (gen B) A.

(** The store of a heap: the allocated shapes, with the given entries. *)
Definition store_of (h : heap) (v : pid -> list Z -> R) : store :=
  fun i => Tensor (nth i h []) (v i).

(** ** Layers of [torch.nn] used by the model *)

Record Linear : Type :=
  { lin_weight : pid; lin_bias : option pid }.

Record LayerNorm : Type :=
  { ln_weight : pid; ln_bias : pid }.

Record Conv2d : Type :=
  { conv_weight : pid; conv_bias : pid; conv_kernel : Z; conv_stride : Z }.

Record Dropout : Type := { drop_p : Q }.

Definition nn_Linear (in_features out_features : Z) (bias : bool)
  : Ctor Linear :=
  (let* w := new_param [out_features; in_features] in
   if bias
   then let* b := new_param [out_features] in
        sret {| lin_weight := w; lin_bias := Some b |}
   else sret {| lin_weight := w; lin_bias := None |})%st.

Definition nn_LayerNorm (dim : Z) : Ctor LayerNorm :=
  (let* w := new_param [dim] in
   let* b := new_param [dim] in
   sret {| ln_weight := w; ln_bias := b |})%st.

Definition nn_Conv2d (in_channels out_channels kernel_size stride : Z)
  : Ctor Conv2d :=
  (let* w := new_param [out_channels; in_channels; kernel_size; kernel_size] in
   let* b := new_param [out_channels] in
   sret {| conv_weight := w; conv_bias := b;
           conv_kernel := kernel_size; conv_stride := stride |})%st.

(** [nn.Dropout(p)] rejects a probability outside [[0,1]]. *)
Definition nn_Dropout (p : Q) : Ctor Dropout :=
  slift (if Qle_bool 0 p && Qle_bool p 1
         then Ok {| drop_p := p |}
         else Raise ValueError).

(** The names of the parameters of a layer in [state_dict()], under a
    prefix. *)
Definition Linear_names (prefix : string) (l : Linear) : list (string * pid) :=
  (prefix +:+ "weight", lin_weight l)
  :: match lin_bias l with
     | Some b => [(prefix +:+ "bias", b)]
     | None => []
     end.

Definition LayerNorm_names (prefix : string) (l : LayerNorm)
  : list (string * pid) :=
  [(prefix +:+ "weight", ln_weight l); (prefix +:+ "bias", ln_bias l)].

Definition Conv2d_names (prefix : string) (c : Conv2d) : list (string * pid) :=
  [(prefix +:+ "weight", conv_weight c); (prefix +:+ "bias", conv_bias c)].

(** ** Forward functions of the layers *)

Fixpoint rmapM {A B} (f : A -> result B) (l : list A) : result (list B) :=
  match l with
  | [] => Ok []
  | a :: l' => let* b := f a in let* bs := rmapM f l' in Ok (b :: bs)
  end.

(** [F.linear]: [y[.., o] = sum_k x[.., k] * w[o, k] + bias[o]] *)
Definition F_linear (th : store) (l : Linear) (x : tensor) : result tensor :=
  let w := th (lin_weight l) in
  match shape w, rev (shape x) with
  | [o; i], L :: _ =>
      if L =? i
      then
        let s := lead (shape x) ++ [o] in
        let y := fun idx =>
          rsum i (fun k => at_ x (lead idx ++ [k]) * at_ w [lasti idx; k])%R in
        match lin_bias l with
        | None => Ok (Tensor s y)
        | Some b =>
            if shape_eqb (shape (th b)) [o]
            then Ok (Tensor s (fun idx => y idx + at_ (th b) [lasti idx])%R)
            else Raise RuntimeError
        end
      else Raise RuntimeError
  | _, _ => Raise RuntimeError
  end.

Definition ln_eps : R := (1 / 100000)%R.

(** [F.layer_norm] over the last axis, with the biased variance. *)
Definition F_layer_norm (th : store) (ln : LayerNorm) (x : tensor)
  : result tensor :=
  let w := th (ln_weight ln) in
  let b := th (ln_bias ln) in
  match shape w, rev (shape x) with
  | [d], L :: _ =>
      if (L =? d) && shape_eqb (shape b) [d]
      then Ok (Tensor (shape x)
                 (fun idx =>
                    let row := fun k => at_ x (lead idx ++ [k]) in
                    let mean := (rsum d row / IZR d)%R in
                    let var :=
                      (rsum d (fun k => (row k - mean) * (row k - mean))
                       / IZR d)%R in
                    ((at_ x idx - mean) / sqrt (var + ln_eps)
                     * at_ w [lasti idx] + at_ b [lasti idx])%R))
      else Raise RuntimeError
  | _, _ => Raise RuntimeError
  end.

(** [F.conv2d] without padding: a batched [[B,C,H,W]] or an unbatched
    [[C,H,W]] input. *)
Definition conv2d_out (size kernel stride : Z) : Z :=
  (size - kernel) / stride + 1.

Definition F_conv2d (th : store) (c : Conv2d) (img : tensor) : result tensor :=
  let w := th (conv_weight c) in
  let b := th (conv_bias c) in
  let st := conv_stride c in
  match shape w with
  | [o; ci; kh; kw] =>
      let entry := fun (x : list Z -> R) (io i j : Z) =>
        (at_ b [io]
         + rsum ci (fun ic => rsum kh (fun u => rsum kw (fun v =>
             x [ic; (i * st + u)%Z; (j * st + v)%Z]
             * at_ w [io; ic; u; v]))))%R in
      let ok := fun (C H W : Z) =>
        (C =? ci) && (kh <=? H) && (kw <=? W) && (0 <? st)
        && shape_eqb (shape b) [o] in
      match shape img with
      | [n; C; H; W] =>
          if ok C H W
          then Ok (Tensor [n; o; conv2d_out H kh st; conv2d_out W kw st]
                     (fun idx => match idx with
                                 | [ib; io; i; j] =>
                                     entry (fun r => at_ img (ib :: r)) io i j
                                 | _ => 0%R
                                 end))
          else Raise RuntimeError
      | [C; H; W] =>
          if ok C H W
          then Ok (Tensor [o; conv2d_out H kh st; conv2d_out W kw st]
                     (fun idx => match idx with
                                 | [io; i; j] => entry (at_ img) io i j
                                 | _ => 0%R
                                 end))
          else Raise RuntimeError
      | _ => Raise RuntimeError
      end
  | _ => Raise RuntimeError
  end.

(** [nn.GELU] *)
Definition F_gelu (B : backend) (x : tensor) : tensor :=
  Tensor (shape x) (fun idx => gelu B (at_ x idx)).

(** [nn.Dropout]: in training mode an entry is kept when its uniform sample
    is at least [p], and the kept entries are divided by [1 - p]; the
    identity in evaluation mode. *)
Definition F_dropout (B : backend) (training : bool) (d : Dropout) (x : tensor)
  : Fwd B tensor :=
  fun g =>
    if training
    then let '(u, g') := uniform B g (shape x) in
         Ok (Tensor (shape x)
               (fun idx => if Rle_dec (Q2R (drop_p d)) (u idx)
                           then (at_ x idx / (1 - Q2R (drop_p d)))%R
                           else 0%R),
             g')
    else Ok (x, g).

(** ** Construction of the model *)

Module FeedForward.
Record t : Type :=
  { lin1 : Linear; drop1 : Dropout; lin2 : Linear; drop2 : Dropout }.

Definition init (dim hidden_dim : Z) (dropout : Q) : Ctor t :=
  (let* l1 := nn_Linear dim hidden_dim true in
   let* d1 := nn_Dropout dropout in
   let* l2 := nn_Linear hidden_dim dim true in
   let* d2 := nn_Dropout dropout in
   sret {| lin1 := l1; drop1 := d1; lin2 := l2; drop2 := d2 |})%st.

Definition names (prefix : string) (m : t) : list (string * pid) :=
  Linear_names (prefix +:+ "net.0.") (lin1 m)
  ++ Linear_names (prefix +:+ "net.3.") (lin2 m).

(** [self.net(x)]: Linear, GELU, Dropout, Linear, Dropout *)
Definition forward (B : backend) (th : store) (training : bool)
  (m : t) (x : tensor) : Fwd B tensor :=
  (let* h := slift (F_linear th (lin1 m) x) in
   let* h := F_dropout B training (drop1 m) (F_gelu B h) in
   let* h := slift (F_linear th (lin2 m) h) in
   F_dropout B training (drop2 m) h)%st.
End FeedForward.

Module Attention.
Record t : Type :=
  { heads : Z; scale : pynum;
    to_qkv : Linear; to_out : Linear; out_drop : Dropout }.

(** [self.scale = (dim // heads) ** -0.5] *)
Definition init_scale (dim heads : Z) : result pynum :=
  let* d := py_floordiv dim heads in py_pow_neg_half d.

Definition init (dim heads : Z) (dropout : Q) : Ctor t :=
  (let* sc := slift (init_scale dim heads) in
   let* qkv := nn_Linear dim (dim * 3) false in
   let* out := nn_Linear dim dim true in
   let* dr := nn_Dropout dropout in
   sret {| heads := heads; scale := sc;
           to_qkv := qkv; to_out := out; out_drop := dr |})%st.

Definition names (prefix : string) (m : t) : list (string * pid) :=
  Linear_names (prefix +:+ "to_qkv.") (to_qkv m)
  ++ Linear_names (prefix +:+ "to_out.0.") (to_out m).

(** [dots.softmax(dim=-1)] for [dots = einsum(q, k) * self.scale]; a
    complex scale gives complex scores, for which softmax raises. *)
Definition probabilities (m : t) (q k : tensor) : result tensor :=
  let* qk := einsum_qk q k in
  match scale m with
  | PyFloat c => softmax_last (scale_by c qk)
  | PyComplex => Raise RuntimeError
  end.

(** Lines 68-70: the queries, keys and values, one slice per head. *)
Definition qkv (th : store) (m : t) (x : tensor)
  : result (tensor * tensor * tensor) :=
  match shape x with
  | [b; n; _] =>
      let h := heads m in
      let* y := F_linear th (to_qkv m) x in
      let* cs := chunk3 y in
      let* hs := rmapM (fun t => let* r := reshape_infer [b; n; h] t in
                                 transpose12 r) cs in
      match hs with
      | [q; k; v] => Ok (q, k, v)
      | _ => Raise ValueError
      end
  | _ => Raise ValueError
  end.

(** The value of [attn] at line 73. *)
Definition attn_of (th : store) (m : t) (x : tensor) : result tensor :=
  let* (qk, v) := qkv th m x in
  probabilities m (fst qk) (snd qk).

(** The part of [forward] before the output projection. *)
Definition attend (th : store) (m : t) (x : tensor) : result tensor :=
  match shape x with
  | [b; n; _] =>
      let* (qk, v) := qkv th m x in
      let* attn := probabilities m (fst qk) (snd qk) in
      let* out := einsum_av attn v in
      let* out := transpose12 out in
      reshape_infer [b; n] out
  | _ => Raise ValueError
  end.

Definition forward (B : backend) (th : store) (training : bool)
  (m : t) (x : tensor) : Fwd B tensor :=
  (let* out := slift (attend th m x) in
   let* out := slift (F_linear th (to_out m) out) in
   F_dropout B training (out_drop m) out)%st.
End Attention.

Module PreNorm.
Record t (F : Type) : Type := { norm : LayerNorm; fn : F }.
Arguments norm {F} _.
Arguments fn {F} _.

(** The wrapped module is an argument, hence built before the call. *)
Definition init {F} (dim : Z) (f : F) : Ctor (t F) :=
  (let* n := nn_LayerNorm dim in
   sret {| norm := n; fn := f |})%st.

Definition names {F} (fn_names : string -> F -> list (string * pid))
  (prefix : string) (m : t F) : list (string * pid) :=
  LayerNorm_names (prefix +:+ "norm.") (norm m)
  ++ fn_names (prefix +:+ "fn.") (fn m).

(** [self.fn(self.norm(x))] *)
Definition forward {F} (B : backend) (th : store)
  (fwd : F -> tensor -> Fwd B tensor) (m : t F) (x : tensor)
  : Fwd B tensor :=
  (let* y := slift (F_layer_norm th (norm m) x) in
   fwd (fn m) y)%st.
End PreNorm.

Module Transformer.
Definition block : Type := PreNorm.t Attention.t * PreNorm.t FeedForward.t.
Record t : Type := { layers : list block }.

Definition init_block (dim heads mlp_dim : Z) (dropout : Q) : Ctor block :=
  (let* a := Attention.init dim heads dropout in
   let* pa := PreNorm.init dim a in
   let* f := FeedForward.init dim mlp_dim dropout in
   let* pf := PreNorm.init dim f in
   sret (pa, pf))%st.

(** [for _ in range(depth): self.layers.append(...)] *)
Fixpoint init_layers (n : nat) (dim heads mlp_dim : Z) (dropout : Q)
  : Ctor (list block) :=
  match n with
  | O => sret []
  | S n' =>
      (let* b := init_block dim heads mlp_dim dropout in
       let* bs := init_layers n' dim heads mlp_dim dropout in
       sret (b :: bs))%st
  end.

Definition init (dim depth heads mlp_dim : Z) (dropout : Q) : Ctor t :=
  (let* ls := init_layers (Z.to_nat depth) dim heads mlp_dim dropout in
   sret {| layers := ls |})%st.

Definition block_names (prefix : string) (l : block) : list (string * pid) :=
  PreNorm.names Attention.names (prefix +:+ "0.") (fst l)
  ++ PreNorm.names FeedForward.names (prefix +:+ "1.") (snd l).

Fixpoint layers_names (prefix : string) (i : nat) (ls : list block)
  : list (string * pid) :=
  match ls with
  | [] => []
  | l :: ls' =>
      block_names (prefix +:+ pretty i +:+ ".") l
      ++ layers_names prefix (S i) ls'
  end.

Definition names (prefix : string) (m : t) : list (string * pid) :=
  layers_names (prefix +:+ "layers.") 0 (layers m).

(** One turn of the loop: [x = attn(x) + x; x = ff(x) + x]. *)
Definition forward_block (B : backend) (th : store) (training : bool)
  (l : block) (x : tensor) : Fwd B tensor :=
  (let '(attn, ff) := l in
   let* a := PreNorm.forward B th (Attention.forward B th training) attn x in
   let* x := slift (tadd a x) in
   let* f := PreNorm.forward B th (FeedForward.forward B th training) ff x in
   slift (tadd f x))%st.

Fixpoint forward_layers (B : backend) (th : store) (training : bool)
  (ls : list block) (x : tensor) : Fwd B tensor :=
  match ls with
  | [] => sret x
  | l :: ls' =>
      (let* x := forward_block B th training l x in
       forward_layers B th training ls' x)%st
  end.

Definition forward (B : backend) (th : store) (training : bool)
  (m : t) (x : tensor) : Fwd B tensor :=
  forward_layers B th training (layers m) x.
End Transformer.

Module ViT.
Record config : Type :=
  { image_size : Z; patch_size : Z; num_classes : Z; dim : Z; depth : Z;
    heads : Z; mlp_dim : Z; channels : Z; dropout : Q; emb_dropout : Q }.

Record t : Type :=
  { m_patch_size : Z; m_dim : Z;
    to_patch_embedding : Conv2d;
    pos_embedding : pid; cls_token : pid;
    m_dropout : Dropout;
    transformer : Transformer.t;
    head_norm : LayerNorm; head_linear : Linear }.

Definition assert_msg : string :=
  "Image dimensions must be divisible by the patch size."%string.

Definition init (c : config) : Ctor t :=
  (let* r := slift (py_mod (image_size c) (patch_size c)) in
   let* _ := slift (py_assert (r =? 0) assert_msg) in
   let* q := slift (py_floordiv (image_size c) (patch_size c)) in
   let num_patches := q ^ 2 in
   let* conv := nn_Conv2d (channels c) (dim c) (patch_size c) (patch_size c) in
   let* pos := new_param [1; num_patches + 1; dim c] in
   let* cls := new_param [1; 1; dim c] in
   let* dr := nn_Dropout (emb_dropout c) in
   let* tr := Transformer.init (dim c) (depth c) (heads c) (mlp_dim c)
                (dropout c) in
   let* hn := nn_LayerNorm (dim c) in
   let* hl := nn_Linear (dim c) (num_classes c) true in
   sret {| m_patch_size := patch_size c; m_dim := dim c;
           to_patch_embedding := conv;
           pos_embedding := pos; cls_token := cls;
           m_dropout := dr; transformer := tr;
           head_norm := hn; head_linear := hl |})%st.

Definition named_parameters (m : t) : list (string * pid) :=
  [("pos_embedding"%string, pos_embedding m);
   ("cls_token"%string, cls_token m)]
  ++ Conv2d_names "to_patch_embedding.0." (to_patch_embedding m)
  ++ Transformer.names "transformer." (transformer m)
  ++ LayerNorm_names "mlp_head.0." (head_norm m)
  ++ Linear_names "mlp_head.1." (head_linear m).

(** Lines 124-126: the convolution, [flatten(2)], [transpose(1, 2)]. *)
Definition patch_embed (th : store) (m : t) (img : tensor)
  : result tensor :=
  let* x := F_conv2d th (to_patch_embedding m) img in
  let* x := flatten2 x in
  transpose12 x.

(** Lines 128-131: the class token in front, the positions added. *)
Definition tokens (th : store) (m : t) (b : Z) (x : tensor)
  : result tensor :=
  let* cls_tokens := expand_batch b (th (cls_token m)) in
  let* x := cat1 cls_tokens x in
  tiadd x (th (pos_embedding m)).

Definition forward (B : backend) (th : store) (training : bool)
  (m : t) (img : tensor) : Fwd B tensor :=
  (let* b := slift (match shape img with
                    | b :: _ => Ok b
                    | [] => Raise IndexError
                    end) in
   let* x := slift (patch_embed th m img) in
   let* x := slift (tokens th m b x) in
   let* x := F_dropout B training (m_dropout m) x in
   let* x := Transformer.forward B th training (transformer m) x in
   let* x := slift (select_first x) in
   let* x := slift (F_layer_norm th (head_norm m) x) in
   slift (F_linear th (head_linear m) x))%st.

(** The configuration of the from-scratch section of the script. *)
Definition script_config : config :=
  {| image_size := 32; patch_size := 4; num_classes := 10; dim := 512;
     depth := 6; heads := 8; mlp_dim := 1024; channels := 3;
     dropout := 1 # 10; emb_dropout := 1 # 10 |}.
End ViT.

(** ** Mixed-precision training

    Gradients are computed in reduced precision and can hold non-finite
    values. *)

Inductive xfloat : Type :=
| XFin (r : R)
| XInf
| XNegInf
| XNaN.

Definition is_finite (x : xfloat) : bool :=
  match x with XFin _ => true | _ => false end.

Definition xmul (c : R) (x : xfloat) : xfloat :=
  match x with XFin r => XFin (r * c) | other => other end.

Definition xadd (x y : xfloat) : xfloat :=
  match x, y with
  | XFin a, XFin b => XFin (a + b)
  | XNaN, _ | _, XNaN => XNaN
  | XInf, XNegInf | XNegInf, XInf => XNaN
  | XInf, _ | _, XInf => XInf
  | XNegInf, _ | _, XNegInf => XNegInf
  end.

Definition grads : Type := list xfloat.

Module GradScaler.
(** Modelled from the spec: [torch.cuda.amp.GradScaler] is a class of the
    library, not of the repository.  Its state and transitions are those of
    section 4.8 of the specification (scale the loss, unscale and check the
    gradients, skip or commit, halve or count and double), with the values
    [GradScaler()] takes by default: initial scale [2^16], threshold 2000,
    and the scaler enabled (a CUDA device). *)
Record t : Type :=
  { scale : Q; growth_tracker : Z; found_inf : bool }.

Definition init_scale : Q := 65536.
Definition growth_factor : Q := 2.
Definition backoff_factor : Q := 1 # 2.
Definition growth_interval : Z := 2000.

(** [GradScaler()] *)
Definition new : t :=
  {| scale := init_scale; growth_tracker := 0; found_inf := false |}.

(** The gradients divided by the loss scale. *)
Definition unscale (s : t) (g : grads) : grads :=
  map (xmul (/ Q2R (scale s))) g.

Definition has_inf (g : grads) : bool :=
  existsb (fun x => negb (is_finite x)) g.

(** [scaler.step(optimizer)]: the optimizer steps on the unscaled gradients
    unless one of them is not finite. *)
Definition step {M O : Type} (opt_step : O -> M -> grads -> O * M)
  (s : t) (o : O) (m : M) (g : grads) : t * O * M :=
  let u := unscale s g in
  if has_inf u
  then ({| scale := scale s; growth_tracker := growth_tracker s;
           found_inf := true |}, o, m)
  else let '(o', m') := opt_step o m u in
       ({| scale := scale s; growth_tracker := growth_tracker s;
           found_inf := false |}, o', m').

(** [scaler.update()] *)
Definition update (s : t) : t :=
  if found_inf s
  then {| scale := Qred (scale s * backoff_factor); growth_tracker := 0;
          found_inf := false |}
  else
    let successful := growth_tracker s + 1 in
    if successful =? growth_interval
    then {| scale := Qred (scale s * growth_factor); growth_tracker := 0;
            found_inf := false |}
    else {| scale := scale s; growth_tracker := successful;
            found_inf := false |}.
End GradScaler.

(** A batch of the loader: the images and their labels. *)
Definition batch : Type := tensor * list Z.

(** The two models of the script: the [ViT] of the first part, whose
    parameters are the cells of its heap, and the pretrained model of the
    second part, a mapping from parameter names to tensors. *)
Inductive model_obj : Type :=
| VitModel (m : ViT.t) (th : store)
| TimmModel (p : gmap string tensor).

(** The collaborators of the script: the datasets, the pretrained model,
    the loss, automatic differentiation and the optimizers. *)
Record collaborators (B : backend) : Type :=
  { optim_state : Type;
    (* initial entries of a fresh parameter *)
    randn : pid -> list Z -> R;
    (* DataLoader(CIFAR10(train=...), batch_size=...) after Resize(size) *)
    cifar_loader : bool -> Z -> Z -> list batch;
    (* timm.create_model('vit_base_patch16_224.augreg_in21k', num_classes=0):
       the parameters by name, the width, and the forward pass, which draws
       no random number (the drop rates of that model are 0) *)
    timm_pretrained : gmap string tensor;
    timm_embed_dim : Z;
    timm_forward : gmap string tensor -> tensor -> result tensor;
    head_init : string -> list Z -> R;
    (* criterion(outputs, labels).item() *)
    loss_item : tensor -> list Z -> xfloat;
    (* predicted.eq(labels).sum().item() *)
    n_correct : tensor -> list Z -> Z;
    (* the gradients left by scaler.scale(loss).backward() *)
    backward : model_obj -> batch -> gen B -> Q -> grads;
    optim_new : model_obj -> optim_state;
    optim_step : optim_state -> model_obj -> grads -> optim_state * model_obj }.
Arguments optim_state {B} _.
Arguments randn {B} _.
Arguments cifar_loader {B} _.
Arguments timm_pretrained {B} _.
Arguments timm_embed_dim {B} _.
Arguments timm_forward {B} _.
Arguments head_init {B} _.
Arguments loss_item {B} _.
Arguments n_correct {B} _.
Arguments backward {B} _.
Arguments optim_new {B} _.
Arguments optim_step {B} _.

(** [model(inputs)] *)
Definition call_model (B : backend) (E : collaborators B) (training : bool)
  (m : model_obj) (x : tensor) : Fwd B tensor :=
  match m with
  | VitModel v th => ViT.forward B th training v x
  | TimmModel p => slift (timm_forward E p x)
  end.

(** The state a training step works on. *)
Record train_state (B : backend) (E : collaborators B) : Type :=
  { ts_model : model_obj;
    ts_optimizer : optim_state E;
    ts_scaler : GradScaler.t;
    ts_rng : gen B }.
Arguments ts_model {B E} _.
Arguments ts_optimizer {B E} _.
Arguments ts_scaler {B E} _.
Arguments ts_rng {B E} _.

(** [scaler.scale(loss).backward(); scaler.step(optimizer);
    scaler.update()] *)
Definition scaled_update (B : backend) (E : collaborators B)
  (st : train_state B E) (data : batch) (rng' : gen B) : train_state B E :=
  let g := backward E (ts_model st) data (ts_rng st)
             (GradScaler.scale (ts_scaler st)) in
  let '(sc, o, m) :=
    GradScaler.step (optim_step E) (ts_scaler st) (ts_optimizer st)
      (ts_model st) g in
  {| ts_model := m; ts_optimizer := o; ts_scaler := GradScaler.update sc;
     ts_rng := rng' |}.

(** Whether the step on [data] overflows: the check of [scaler.step]. *)
Definition overflows (B : backend) (E : collaborators B)
  (st : train_state B E) (data : batch) : bool :=
  GradScaler.has_inf
    (GradScaler.unscale (ts_scaler st)
       (backward E (ts_model st) data (ts_rng st)
          (GradScaler.scale (ts_scaler st)))).

(** The body of the loop of [train_one_epoch], lines 188-199, on a state in
    which every name is bound. *)
Definition train_step (B : backend) (E : collaborators B)
  (st : train_state B E) (data : batch)
  : result (train_state B E * tensor) :=
  let* (outputs, rng') :=
    call_model B E true (ts_model st) (fst data) (ts_rng st) in
  Ok (scaled_update B E st data rng', outputs).

(** ** Checkpoints *)

(** Modelled from the spec: [state_dict], [load_state_dict], [torch.save]
    and [torch.load] are functions of the library, not of the repository.
    Following section 6 of the specification, a checkpoint is the mapping
    from parameter names to tensors; loading is strict: the names and the
    shapes have to be those of the receiving model, whose parameters then
    take the entries of the checkpoint. *)
Definition state_dict (m : model_obj) : gmap string tensor :=
  match m with
  | VitModel v th =>
      list_to_map (map (fun ni => (fst ni, th (snd ni)))
                     (ViT.named_parameters v))
  | TimmModel p => p
  end.

Definition load_named (p0 d : gmap string tensor)
  : result (gmap string tensor) :=
  if decide (dom d = dom p0)
  then if decide (map_Forall
                    (fun k t => shape <$> (d !! k) = Some (shape t)) p0)
       then Ok (map_zip_with (fun t0 t => Tensor (shape t0) (at_ t)) p0 d)
       else Raise RuntimeError
  else Raise RuntimeError.

Definition load_state_dict (m : model_obj) (d : gmap string tensor)
  : result model_obj :=
  match m with
  | TimmModel p0 => let* p := load_named p0 d in Ok (TimmModel p)
  | VitModel v th =>
      let* p := load_named (state_dict (VitModel v th)) d in
      Ok (VitModel v
            (fold_right
               (fun ni (th' : store) =>
                  match p !! fst ni with
                  | Some t => fun j => if Nat.eqb j (snd ni) then t else th' j
                  | None => th'
                  end)
               th (ViT.named_parameters v)))
  end.

Abbreviation files := (gmap string (gmap string tensor)).

Definition torch_save (d : gmap string tensor) (path : string) (fs : files)
  : files :=
  <[path := d]> fs.

Definition torch_load (path : string) (fs : files)
  : result (gmap string tensor) :=
  match fs !! path with
  | Some d => Ok d
  | None => Raise FileNotFoundError
  end.

(** [model.head = torch.nn.Linear(embed_dim, n)] on the pretrained model *)
Definition set_head (init : string -> list Z -> R) (embed_dim n : Z)
  (p : gmap string tensor) : result (gmap string tensor) :=
  if (0 <=? embed_dim) && (0 <=? n)
  then Ok (<["head.bias" := Tensor [n] (init "head.bias")]>
             (<["head.weight" := Tensor [n; embed_dim] (init "head.weight")]>
                p))
  else Raise RuntimeError.

(** ** The script, statement by statement *)

Inductive func : Type := FTrainOneEpoch | FEvaluate.

Inductive event : Type :=
| EvForward
| EvLossScaled
| EvParamUpdate
| EvStepSkipped
| EvScaleUpdate
| EvMetrics.

Section Script.
Context (B : backend) (E : collaborators B).

(** What a global name can be bound to.  [OLib] stands for the imported
    modules, classes and functions, the transforms and the datasets;
    a model is bound by its address, which the optimizer shares. *)
Inductive obj : Type :=
| OLib
| OInt (z : Z)
| OFloat (q : Q)
| OStr (s : string)
| OMetric (x : xfloat)
| OModel (a : nat)
| OLoader (bs : list batch)
| OOptimizer (a : nat) (o : optim_state E)
| OScaler (s : GradScaler.t)
| OFunc (f : func).

Record world : Type :=
  { globals : gmap string obj;
    models : list (model_obj * bool);
    rng : gen B;
    disk : files;
    events : list event }.

Definition Script (A : Type) : Type := world -> result A * world.

Definition ret {A} (a : A) : Script A := fun w => (Ok a, w).
Definition throw {A} (e : exn) : Script A := fun w => (Raise e, w).
Definition bind {A C} (c : Script A) (k : A -> Script C) : Script C :=
  fun w => match c w with
           | (Ok a, w') => k a w'
           | (Raise e, w') => (Raise e, w')
           end.

Declare Scope script_scope.
Delimit Scope script_scope with script.
Notation "'let*' x ':=' c 'in' k" := (bind c (fun x => k))
  (at level 10, x pattern, c at level 100, k at level 200) : script_scope.
Notation "c ';;' k" := (bind c (fun _ => k))
  (at level 100, k at level 200, right associativity) : script_scope.
Local Open Scope script_scope.

Definition load_global (name : string) : Script obj :=
  fun w => match globals w !! name with
           | Some o => (Ok o, w)
           | None => (Raise (NameError name), w)
           end.

Definition store_global (name : string) (o : obj) : Script unit :=
  fun w => (Ok tt,
            {| globals := <[name := o]> (globals w); models := models w;
               rng := rng w; disk := disk w; events := events w |}).

Definition emit (ev : event) : Script unit :=
  fun w => (Ok tt,
            {| globals := globals w; models := models w; rng := rng w;
               disk := disk w; events := events w ++ [ev] |}).

Fixpoint bind_names (names : list string) (o : obj) : Script unit :=
  match names with
  | [] => ret tt
  | n :: ns => store_global n o ;; bind_names ns o
  end.

Fixpoint use_names (names : list string) : Script unit :=
  match names with
  | [] => ret tt
  | n :: ns => let* _ := load_global n in use_names ns
  end.

Definition get_int (name : string) : Script Z :=
  let* o := load_global name in
  match o with OInt z => ret z | _ => throw TypeError end.

Definition get_float (name : string) : Script Q :=
  let* o := load_global name in
  match o with OFloat q => ret q | _ => throw TypeError end.

Definition get_model (name : string) : Script nat :=
  let* o := load_global name in
  match o with OModel a => ret a | _ => throw TypeError end.

Definition get_loader (name : string) : Script (list batch) :=
  let* o := load_global name in
  match o with OLoader bs => ret bs | _ => throw TypeError end.

Definition get_optimizer (name : string) : Script (nat * optim_state E) :=
  let* o := load_global name in
  match o with OOptimizer a s => ret (a, s) | _ => throw TypeError end.

Definition get_scaler (name : string) : Script GradScaler.t :=
  let* o := load_global name in
  match o with OScaler s => ret s | _ => throw TypeError end.

Definition get_func (name : string) : Script func :=
  let* o := load_global name in
  match o with OFunc f => ret f | _ => throw TypeError end.

Definition new_model (m : model_obj) : Script nat :=
  fun w => (Ok (length (models w)),
            {| globals := globals w; models := models w ++ [(m, true)];
               rng := rng w; disk := disk w; events := events w |}).

Definition read_model (a : nat) : Script (model_obj * bool) :=
  fun w => match models w !! a with
           | Some c => (Ok c, w)
           | None => (Raise RuntimeError, w)
           end.

Definition write_model (a : nat) (c : model_obj * bool) : Script unit :=
  fun w => (Ok tt,
            {| globals := globals w; models := <[a := c]> (models w);
               rng := rng w; disk := disk w; events := events w |}).

(** [model.train()] and [model.eval()] *)
Definition set_training (name : string) (mode : bool) : Script unit :=
  let* a := get_model name in
  let* c := read_model a in
  write_model a (fst c, mode).

Definition get_rng : Script (gen B) := fun w => (Ok (rng w), w).

(** [outputs = model(inputs)]: the outputs, and the address of the model
    whose parameters they depend on. *)
Definition call_global_model (inputs : tensor) : Script (nat * tensor) :=
  let* a := get_model "model" in
  let* c := read_model a in
  fun w => match call_model B E (snd c) (fst c) inputs (rng w) with
           | Ok (out, g) =>
               (Ok (a, out),
                {| globals := globals w; models := models w; rng := g;
                   disk := disk w; events := events w ++ [EvForward] |})
           | Raise e => (Raise e, w)
           end.

Record metrics : Type :=
  { running_loss : xfloat; correct : Z; total : Z }.

(** Lines 201-206 *)
Definition accumulate (acc : metrics) (outputs : tensor) (labels : list Z)
  : Script metrics :=
  let acc' :=
    {| running_loss := xadd (running_loss acc) (loss_item E outputs labels);
       correct := correct acc + n_correct E outputs labels;
       total := total acc + Z.of_nat (length labels) |} in
  if total acc' =? 0 then throw ZeroDivisionError
  else emit EvMetrics ;; ret acc'.

Definition no_inf_checks : string :=
  "No inf checks were recorded for this optimizer.".

(** Lines 197-199, for a loss computed by the model at address [am] from
    the generator state [rng0]: the optimizer has gradients to step on only
    if its parameters are those of that model. *)
Definition scaler_lines (data : batch) (am : nat) (rng0 : gen B)
  : Script unit :=
  let* s := get_scaler "scaler" in
  emit EvLossScaled ;;
  let* _ := get_scaler "scaler" in
  let* ao := get_optimizer "optimizer" in
  let* c := read_model (fst ao) in
  if Nat.eqb (fst ao) am
  then
    let* g := get_rng in
    let st := {| ts_model := fst c; ts_optimizer := snd ao; ts_scaler := s;
                 ts_rng := rng0 |} in
    let st' := scaled_update B E st data g in
    write_model (fst ao) (ts_model st', snd c) ;;
    store_global "optimizer" (OOptimizer (fst ao) (ts_optimizer st')) ;;
    emit (if overflows B E st data then EvStepSkipped else EvParamUpdate) ;;
    let* _ := get_scaler "scaler" in
    store_global "scaler" (OScaler (ts_scaler st')) ;;
    emit EvScaleUpdate
  else throw (AssertionError no_inf_checks).

(** Lines 188-206: one turn of the loop of [train_one_epoch]. *)
Definition train_batch (data : batch) (acc : metrics) : Script metrics :=
  use_names ["DEVICE"; "optimizer"; "autocast"] ;;
  let* rng0 := get_rng in
  let* ao := call_global_model (fst data) in
  use_names ["criterion"] ;;
  scaler_lines data (fst ao) rng0 ;;
  accumulate acc (snd ao) (snd data).

Fixpoint train_batches (bs : list batch) (acc : metrics) : Script metrics :=
  match bs with
  | [] => ret acc
  | data :: bs' =>
      let* acc := train_batch data acc in train_batches bs' acc
  end.

(** The value returned by both functions. *)
Definition epoch_result (n : nat) (acc : metrics) : Script (xfloat * Q) :=
  if (Z.of_nat n =? 0) || (total acc =? 0) then throw ZeroDivisionError
  else ret (xmul (/ INR n) (running_loss acc),
            (Qmake 100 1 * inject_Z (correct acc) / inject_Z (total acc))%Q).

Definition zero_metrics : metrics :=
  {| running_loss := XFin 0; correct := 0; total := 0 |}.

Definition train_one_epoch (epoch_idx : Z) : Script (xfloat * Q) :=
  set_training "model" true ;;
  use_names ["tqdm"] ;;
  let* bs := get_loader "trainloader" in
  use_names ["trainloader"; "EPOCHS"] ;;
  let* acc := train_batches bs zero_metrics in
  use_names ["trainloader"] ;;
  epoch_result (length bs) acc.

(** Lines 220-232: one turn of the loop of [evaluate]. *)
Definition eval_batch (data : batch) (acc : metrics) : Script metrics :=
  use_names ["DEVICE"; "autocast"] ;;
  let* ao := call_global_model (fst data) in
  use_names ["criterion"] ;;
  accumulate acc (snd ao) (snd data).

Fixpoint eval_batches (bs : list batch) (acc : metrics) : Script metrics :=
  match bs with
  | [] => ret acc
  | data :: bs' =>
      let* acc := eval_batch data acc in eval_batches bs' acc
  end.

Definition evaluate (epoch_idx : Z) : Script (xfloat * Q) :=
  set_training "model" false ;;
  use_names ["tqdm"] ;;
  let* bs := get_loader "testloader" in
  use_names ["testloader"; "EPOCHS"; "torch"] ;;
  let* acc := eval_batches bs zero_metrics in
  use_names ["testloader"] ;;
  epoch_result (length bs) acc.

Definition call_func (f : func) (epoch : Z) : Script (xfloat * Q) :=
  match f with
  | FTrainOneEpoch => train_one_epoch epoch
  | FEvaluate => evaluate epoch
  end.

(** The body of [for epoch in range(EPOCHS)], lines 239-241. *)
Definition epoch_body (epoch : Z) : Script unit :=
  store_global "epoch" (OInt epoch) ;;
  let* f := get_func "train_one_epoch" in
  use_names ["epoch"] ;;
  let* r := call_func f epoch in
  store_global "train_loss" (OMetric (fst r)) ;;
  store_global "train_acc" (OFloat (snd r)) ;;
  let* f := get_func "evaluate" in
  use_names ["epoch"] ;;
  let* r := call_func f epoch in
  store_global "test_loss" (OMetric (fst r)) ;;
  store_global "test_acc" (OFloat (snd r)) ;;
  use_names ["epoch"; "EPOCHS"; "train_loss"; "train_acc"; "test_loss";
             "test_acc"].

Fixpoint epochs_from (n : nat) (epoch : Z) : Script unit :=
  match n with
  | O => ret tt
  | S n' => epoch_body epoch ;; epochs_from n' (epoch + 1)
  end.

Definition epochs_loop : Script unit :=
  let* n := get_int "EPOCHS" in epochs_from (Z.to_nat n) 0.

Definition imports : list string :=
  ["torch"; "nn"; "optim"; "torchvision"; "transforms"; "DataLoader"; "tqdm";
   "GradScaler"; "autocast"].

(** [DataLoader(CIFAR10(train=...))] of the images resized to [size] *)
Definition make_loaders (size_name batch_name : string) : Script unit :=
  use_names ["transforms"] ;;
  let* size := get_int size_name in
  bind_names ["transform_train"] OLib ;;
  use_names ["transforms"] ;;
  let* _ := get_int size_name in
  bind_names ["transform_test"] OLib ;;
  use_names ["torchvision"; "transform_train"] ;;
  bind_names ["trainset"] OLib ;;
  use_names ["DataLoader"; "trainset"] ;;
  let* bsz := get_int batch_name in
  store_global "trainloader" (OLoader (cifar_loader E true size bsz)) ;;
  use_names ["torchvision"; "transform_test"] ;;
  bind_names ["testset"] OLib ;;
  use_names ["DataLoader"; "testset"] ;;
  let* bsz := get_int batch_name in
  store_global "testloader" (OLoader (cifar_loader E false size bsz)).

(** Lines 3-28 and the class definitions, lines 32-138; the device is the
    CUDA one. *)
Definition setup_from_scratch : Script unit :=
  bind_names imports OLib ;;
  use_names ["torch"] ;;
  store_global "DEVICE" (OStr "cuda") ;;
  use_names ["DEVICE"] ;;
  store_global "IMG_SIZE" (OInt 32) ;;
  store_global "PATCH_SIZE" (OInt 4) ;;
  store_global "NUM_CLASSES" (OInt 10) ;;
  store_global "DIM" (OInt 512) ;;
  store_global "DEPTH" (OInt 6) ;;
  store_global "HEADS" (OInt 8) ;;
  store_global "MLP_DIM" (OInt 1024) ;;
  store_global "CHANNELS" (OInt 3) ;;
  store_global "DROPOUT" (OFloat (1 # 10)) ;;
  store_global "EMB_DROPOUT" (OFloat (1 # 10)) ;;
  store_global "LEARNING_RATE" (OFloat (1 # 10000)) ;;
  store_global "BATCH_SIZE" (OInt 128) ;;
  store_global "EPOCHS" (OInt 10) ;;
  use_names ["nn"] ;; bind_names ["PreNorm"] OLib ;;
  use_names ["nn"] ;; bind_names ["FeedForward"] OLib ;;
  use_names ["nn"] ;; bind_names ["Attention"] OLib ;;
  use_names ["nn"] ;; bind_names ["Transformer"] OLib ;;
  use_names ["nn"] ;; bind_names ["ViT"] OLib.

(** Lines 164-177: the model (the keyword [channels] is left to its
    default), the loss and the optimizer. *)
Definition build_from_scratch : Script unit :=
  use_names ["ViT"] ;;
  let* image_size := get_int "IMG_SIZE" in
  let* patch_size := get_int "PATCH_SIZE" in
  let* num_classes := get_int "NUM_CLASSES" in
  let* dim := get_int "DIM" in
  let* depth := get_int "DEPTH" in
  let* heads := get_int "HEADS" in
  let* mlp_dim := get_int "MLP_DIM" in
  let* dropout := get_float "DROPOUT" in
  let* emb_dropout := get_float "EMB_DROPOUT" in
  match ViT.init
          {| ViT.image_size := image_size; ViT.patch_size := patch_size;
             ViT.num_classes := num_classes; ViT.dim := dim;
             ViT.depth := depth; ViT.heads := heads; ViT.mlp_dim := mlp_dim;
             ViT.channels := 3; ViT.dropout := dropout;
             ViT.emb_dropout := emb_dropout |} [] with
  | Raise e => throw e
  | Ok (m, h) =>
      let* a := new_model (VitModel m (store_of h (randn E))) in
      use_names ["DEVICE"] ;;
      store_global "model" (OModel a) ;;
      use_names ["nn"] ;;
      bind_names ["criterion"] OLib ;;
      use_names ["optim"] ;;
      let* a := get_model "model" in
      let* c := read_model a in
      let* _ := get_float "LEARNING_RATE" in
      store_global "optimizer" (OOptimizer a (optim_new E (fst c)))
  end.

Definition define_functions : Script unit :=
  store_global "train_one_epoch" (OFunc FTrainOneEpoch) ;;
  store_global "evaluate" (OFunc FEvaluate).

(** Lines 1-236: everything before the training loop. *)
Definition prepare : Script unit :=
  setup_from_scratch ;;
  make_loaders "IMG_SIZE" "BATCH_SIZE" ;;
  build_from_scratch ;;
  define_functions.

(** Lines 1-243 *)
Definition from_scratch : Script unit :=
  prepare ;; epochs_loop.

(** Lines 245-265, down to [scaler = GradScaler()]. *)
Definition setup_fine_tuning : Script unit :=
  bind_names ("timm" :: imports) OLib ;;
  use_names ["torch"] ;;
  store_global "DEVICE" (OStr "cuda") ;;
  use_names ["DEVICE"] ;;
  store_global "pretrained_imgSize" (OInt 224) ;;
  store_global "numClass" (OInt 10) ;;
  store_global "ft_learnRate" (OFloat (3 # 100000)) ;;
  store_global "batch_size" (OInt 64) ;;
  store_global "EPOCHS" (OInt 5) ;;
  use_names ["GradScaler"] ;;
  store_global "scaler" (OScaler GradScaler.new).

(** Lines 267-300 *)
Definition build_fine_tuning : Script unit :=
  use_names ["timm"] ;;
  let* a := new_model (TimmModel (timm_pretrained E)) in
  store_global "model" (OModel a) ;;
  let* _ := get_model "model" in
  store_global "embed_dim" (OInt (timm_embed_dim E)) ;;
  use_names ["embed_dim"; "torch"] ;;
  let* embed_dim := get_int "embed_dim" in
  let* n := get_int "numClass" in
  let* a := get_model "model" in
  let* c := read_model a in
  match fst c with
  | TimmModel p =>
      match set_head (head_init E) embed_dim n p with
      | Ok p' => write_model a (TimmModel p', snd c)
      | Raise e => throw e
      end
  | VitModel _ _ => throw TypeError
  end ;;
  let* a := get_model "model" in
  use_names ["DEVICE"] ;;
  store_global "model" (OModel a) ;;
  make_loaders "pretrained_imgSize" "batch_size" ;;
  use_names ["nn"] ;;
  bind_names ["criterion"] OLib ;;
  use_names ["optim"] ;;
  let* a := get_model "model" in
  let* c := read_model a in
  let* _ := get_float "ft_learnRate" in
  store_global "optimizer" (OOptimizer a (optim_new E (fst c))).

Definition checkpoint_path : string := "vit_finetuned_cifar10.pth".

(** Lines 363-369 *)
Definition save_and_reload : Script unit :=
  use_names ["torch"] ;;
  let* a := get_model "model" in
  let* c := read_model a in
  (fun w => (Ok tt,
             {| globals := globals w; models := models w; rng := rng w;
                disk := torch_save (state_dict (fst c)) checkpoint_path
                          (disk w);
                events := events w |})) ;;
  use_names ["timm"] ;;
  let* a := new_model (TimmModel (timm_pretrained E)) in
  store_global "model" (OModel a) ;;
  use_names ["torch"] ;;
  let* a := get_model "model" in
  let* n := get_int "NUM_CLASSES" in
  let* c := read_model a in
  match fst c with
  | TimmModel p =>
      match set_head (head_init E) (timm_embed_dim E) n p with
      | Ok p' => write_model a (TimmModel p', snd c)
      | Raise e => throw e
      end
  | VitModel _ _ => throw TypeError
  end ;;
  let* a := get_model "model" in
  use_names ["torch"] ;;
  let* d := (fun w => match torch_load checkpoint_path (disk w) with
                      | Ok d => (Ok d, w)
                      | Raise e => (Raise e, w)
                      end) in
  let* c := read_model a in
  match load_state_dict (fst c) d with
  | Ok m => write_model a (m, snd c)
  | Raise e => throw e
  end ;;
  let* a := get_model "model" in
  use_names ["DEVICE"] ;;
  store_global "model" (OModel a) ;;
  set_training "model" false.

(** Lines 245-369 *)
Definition fine_tuning : Script unit :=
  setup_fine_tuning ;;
  build_fine_tuning ;;
  define_functions ;;
  epochs_loop ;;
  save_and_reload.

(** The script from the top to line 369. *)
Definition script : Script unit :=
  from_scratch ;; fine_tuning.

(** Lines 371-385: the imports and constants of the plotting part, and the
    transform of the displayed images. *)
Definition visualization_setup : Script unit :=
  bind_names ["plt"; "np"; "random"; "torch"] OLib ;;
  store_global "NUM_IMAGES_TO_SHOW" (OInt 16) ;;
  store_global "NUM_COLS" (OInt 4) ;;
  set_training "model" false ;;
  use_names ["testset"] ;;
  bind_names ["classes"] OLib ;;
  use_names ["transforms"; "transforms"] ;;
  let* _ := get_int "PRETRAINED_IMG_SIZE" in
  let* _ := get_int "PRETRAINED_IMG_SIZE" in
  use_names ["transforms"] ;;
  bind_names ["transform_display"] OLib.

End Script.

Arguments globals {B E} _.
Arguments models {B E} _.
Arguments rng {B E} _.
Arguments disk {B E} _.
Arguments events {B E} _.
Arguments OLib {B E}.
Arguments OInt {B E} z.
Arguments OFloat {B E} q.
Arguments OStr {B E} s.
Arguments OMetric {B E} x.
Arguments OModel {B E} a.
Arguments OLoader {B E} bs.
Arguments OOptimizer {B E} a o.
Arguments OScaler {B E} s.
Arguments OFunc {B E} f.

(** * Properties *)

(** ** Notions used by the statements *)

(** The sizes of a configuration are positive and its two dropout
    probabilities are probabilities. *)
Definition positive_sizes (c : ViT.config) : Prop :=
  0 < ViT.image_size c /\ 0 < ViT.patch_size c /\ 0 < ViT.num_classes c
  /\ 0 < ViT.dim c /\ 0 < ViT.heads c /\ 0 < ViT.mlp_dim c
  /\ 0 < ViT.channels c /\ 0 <= ViT.depth c
  /\ Qle_bool 0 (ViT.dropout c) && Qle_bool (ViT.dropout c) 1 = true
  /\ Qle_bool 0 (ViT.emb_dropout c) && Qle_bool (ViT.emb_dropout c) 1 = true.

(** A constructor that returns, whatever the heap it starts from. *)
Definition succeeds {A} (c : Ctor A) : Prop :=
  forall h, exists a h', c h = Ok (a, h').

(** The configuration of the counterexample to the check on [heads]: ten
    embedding dimensions for three heads. *)
Definition uneven_heads : ViT.config :=
  {| ViT.image_size := 32; ViT.patch_size := 4; ViT.num_classes := 10;
     ViT.dim := 10; ViT.depth := 6; ViT.heads := 3; ViT.mlp_dim := 1024;
     ViT.channels := 3; ViT.dropout := 1 # 10; ViT.emb_dropout := 1 # 10 |}.

(** The store gives every cell of the heap a tensor of the allocated
    shape. *)
Definition store_matches (th : store) (h : heap) : Prop :=
  forall i s, h !! i = Some s -> shape (th i) = s.

(** The model in closed form: what the constructors build on a heap of [n]
    cells, and the shapes they allocate. *)
Definition scale_of (dim heads : Z) : pynum :=
  match Attention.init_scale dim heads with
  | Ok sc => sc
  | Raise _ => PyComplex
  end.

Definition block_shapes (dim mlp : Z) : heap :=
  [[dim * 3; dim]; [dim; dim]; [dim]; [dim]; [dim];
   [mlp; dim]; [mlp]; [dim; mlp]; [dim]; [dim]; [dim]].

Definition block_at (heads : Z) (sc : pynum) (p : Q) (n : nat)
  : Transformer.block :=
  ({| PreNorm.norm := {| ln_weight := (n + 3)%nat; ln_bias := (n + 4)%nat |};
      PreNorm.fn :=
        {| Attention.heads := heads; Attention.scale := sc;
           Attention.to_qkv := {| lin_weight := n; lin_bias := None |};
           Attention.to_out :=
             {| lin_weight := (n + 1)%nat; lin_bias := Some (n + 2)%nat |};
           Attention.out_drop := {| drop_p := p |} |} |},
   {| PreNorm.norm := {| ln_weight := (n + 9)%nat; ln_bias := (n + 10)%nat |};
      PreNorm.fn :=
        {| FeedForward.lin1 :=
             {| lin_weight := (n + 5)%nat; lin_bias := Some (n + 6)%nat |};
           FeedForward.drop1 := {| drop_p := p |};
           FeedForward.lin2 :=
             {| lin_weight := (n + 7)%nat; lin_bias := Some (n + 8)%nat |};
           FeedForward.drop2 := {| drop_p := p |} |} |}).

Fixpoint blocks_at (heads : Z) (sc : pynum) (p : Q) (n count : nat)
  : list Transformer.block :=
  match count with
  | O => []
  | S k => block_at heads sc p n :: blocks_at heads sc p (n + 11) k
  end.

Definition num_patches (c : ViT.config) : Z :=
  (ViT.image_size c / ViT.patch_size c) ^ 2.

Definition vit_at (c : ViT.config) (n : nat) : ViT.t :=
  let depth := Z.to_nat (ViT.depth c) in
  let e := (n + 4 + 11 * depth)%nat in
  {| ViT.m_patch_size := ViT.patch_size c; ViT.m_dim := ViT.dim c;
     ViT.to_patch_embedding :=
       {| conv_weight := n; conv_bias := S n;
          conv_kernel := ViT.patch_size c; conv_stride := ViT.patch_size c |};
     ViT.pos_embedding := (n + 2)%nat; ViT.cls_token := (n + 3)%nat;
     ViT.m_dropout := {| drop_p := ViT.emb_dropout c |};
     ViT.transformer :=
       {| Transformer.layers :=
            blocks_at (ViT.heads c) (scale_of (ViT.dim c) (ViT.heads c))
              (ViT.dropout c) (n + 4) depth |};
     ViT.head_norm := {| ln_weight := e; ln_bias := S e |};
     ViT.head_linear :=
       {| lin_weight := (e + 2)%nat; lin_bias := Some (e + 3)%nat |}
  |}.

Definition vit_shapes (c : ViT.config) : heap :=
  [[ViT.dim c; ViT.channels c; ViT.patch_size c; ViT.patch_size c];
   [ViT.dim c]; [1; num_patches c + 1; ViT.dim c]; [1; 1; ViT.dim c]]
  ++ concat (replicate (Z.to_nat (ViT.depth c))
               (block_shapes (ViT.dim c) (ViT.mlp_dim c)))
  ++ [[ViT.dim c]; [ViT.dim c]; [ViT.num_classes c; ViT.dim c];
      [ViT.num_classes c]].

(** The addresses of the scale and shift of the two layer norms of a
    block, and those of all the blocks. *)
Definition block_norm_params (l : Transformer.block) : list pid :=
  [ln_weight (PreNorm.norm (fst l)); ln_bias (PreNorm.norm (fst l));
   ln_weight (PreNorm.norm (snd l)); ln_bias (PreNorm.norm (snd l))].

Definition norm_params (m : Transformer.t) : list pid :=
  flat_map block_norm_params (Transformer.layers m).

(** Values for the examples: a small configuration, tensors and stores of
    zeros, and a backend whose samples are all 0 and whose scalar function
    is the identity. *)
Definition tiny_config : ViT.config :=
  {| ViT.image_size := 4; ViT.patch_size := 2; ViT.num_classes := 2;
     ViT.dim := 2; ViT.depth := 1; ViT.heads := 1; ViT.mlp_dim := 2;
     ViT.channels := 1; ViT.dropout := 0; ViT.emb_dropout := 0 |}.

Definition zeros (s : list Z) : tensor := Tensor s (fun _ => 0%R).

Definition zero_store (h : heap) : store := store_of h (fun _ _ => 0%R).

Definition still_backend : backend :=
  {| gelu := fun x => x; gen := unit;
     uniform := fun g _ => (fun _ => 0%R, g) |}.

(** The block in the words of the specification:
    [x1 = x + SelfAttention(LayerNorm(x))] and then
    [x2 = x1 + FeedForward(LayerNorm(x1))]. *)
Definition prenorm_block (B : backend) (th : store) (training : bool)
  (l : Transformer.block) (x : tensor) : Fwd B tensor :=
  (let* n1 := slift (F_layer_norm th (PreNorm.norm (fst l)) x) in
   let* a := Attention.forward B th training (PreNorm.fn (fst l)) n1 in
   let* x1 := slift (tadd x a) in
   let* n2 := slift (F_layer_norm th (PreNorm.norm (snd l)) x1) in
   let* f := FeedForward.forward B th training (PreNorm.fn (snd l)) n2 in
   slift (tadd x1 f))%st.

(** A backend whose generator counts the draws: the samples of the draw
    in state [g] are all [1 / (g + 1)]. *)
Definition counting_backend : backend :=
  {| gelu := fun x => x; gen := nat;
     uniform := fun g _ => (fun _ => (/ INR (S g))%R, S g) |}.

(** The attention module of the block of [tiny_config]. *)
Definition tiny_attention : Attention.t :=
  PreNorm.fn (fst (block_at 1 (scale_of 2 1) 0 4)).

(** What a forward pass returns, its effect on the generator put aside. *)
Definition output {A S : Type} (r : result (A * S)) : result A :=
  match r with
  | Ok (a, _) => Ok a
  | Raise e => Raise e
  end.

(** A computation whose outcome does not depend on the state of the
    generator. *)
Definition rng_blind {B : backend} {A : Type} (f : Fwd B A) : Prop :=
  (exists e, forall g, f g = Raise e)
  \/ (exists a, forall g, exists g', f g = Ok (a, g')).

(** The samples of the generator are not negative (they are uniform on
    [[0, 1)]). *)
Definition samples_nonneg (B : backend) : Prop :=
  forall g s idx, (0 <= fst (uniform B g s) idx)%R.

(** The number of consecutive steps without overflow at the end of a run,
    from the overflow flags of its steps, the latest first. *)
Fixpoint streak (fl : list bool) : nat :=
  match fl with
  | false :: fl' => S (streak fl')
  | _ => O
  end.

(** The runs of the training loop: the state reached from a first state,
    with the overflow flags of the steps taken, the latest first. *)
Inductive run (B : backend) (E : collaborators B)
  : train_state B E -> list bool -> train_state B E -> Prop :=
| run_start st : run B E st [] st
| run_step st fl st1 data st2 out :
    run B E st fl st1 ->
    train_step B E st1 data = Ok (st2, out) ->
    run B E st (overflows B E st1 data :: fl) st2.

(** The state in which the script starts, and the state it has reached
    when the first training loop begins. *)
Definition initial_world (B : backend) (E : collaborators B) (g : gen B)
  : world B E :=
  {| globals := ∅; models := []; rng := g; disk := ∅; events := [] |}.

Definition prepared (B : backend) (E : collaborators B) (g : gen B)
  : world B E :=
  snd (prepare B E (initial_world B E g)).

(** The model of the first part of the script, as constructed. *)
Definition scratch_model (B : backend) (E : collaborators B) : model_obj :=
  VitModel (vit_at ViT.script_config 0)
    (store_of (vit_shapes ViT.script_config) (randn E)).

(** Collaborators for the examples: a loader of one batch of one image,
    a pretrained model of one parameter whose forward pass is the
    identity, gradients that are not numbers, an optimizer without
    state. *)
Definition example_collaborators (B : backend) : collaborators B :=
  {| optim_state := unit;
     randn := fun _ _ => 0%R;
     cifar_loader := fun _ size _ => [(zeros [1; 3; size; size], [0])];
     timm_pretrained := {["cls_token"%string := zeros [1; 1; 2]]};
     timm_embed_dim := 2;
     timm_forward := fun _ x => Ok x;
     head_init := fun _ _ => 0%R;
     loss_item := fun _ _ => XNaN;
     n_correct := fun _ _ => 0;
     backward := fun _ _ _ _ => [XNaN];
     optim_new := fun _ => tt;
     optim_step := fun o m _ => (o, m) |}.

(** A training state with a fresh scaler. *)
Definition example_state
  : train_state still_backend (example_collaborators still_backend) :=
  Build_train_state still_backend (example_collaborators still_backend)
    (TimmModel ∅) tt GradScaler.new tt.

(** A state for the reloading example: the freshly constructed pretrained
    model with its new head, a fine-tuned model of the same layout whose
    entries are all 1, bound to [model]. *)
Definition example_fresh : gmap string tensor :=
  <["head.bias"%string := zeros [10]]>
    (<["head.weight"%string := zeros [10; 2]]>
       (timm_pretrained (example_collaborators still_backend))).

Definition example_trained : gmap string tensor :=
  (fun t => Tensor (shape t) (fun _ => 1%R)) <$> example_fresh.

Definition example_world
  : world still_backend (example_collaborators still_backend) :=
  Build_world still_backend (example_collaborators still_backend)
    (list_to_map
       [("torch"%string, OLib); ("timm"%string, OLib);
        ("DEVICE"%string, OStr "cuda"); ("NUM_CLASSES"%string, OInt 10);
        ("model"%string, OModel 0)])
    [(TimmModel example_trained, true)] tt ∅ [].

(** A computation that returns a tensor of the given shape. *)
Definition returns_shape (r : result tensor) (s : list Z) : Prop :=
  exists y, r = Ok y /\ shape y = s.

Definition fwd_returns_shape {B : backend} (f : Fwd B tensor) (s : list Z)
  : Prop :=
  forall g, exists y g', f g = Ok (y, g') /\ shape y = s.

(** The store holds, from address [n] on, tensors of the shapes of the
    parameters of one block. *)
Definition block_stored (th : store) (dim mlp : Z) (n : nat) : Prop :=
  forall j s, block_shapes dim mlp !! j = Some s -> shape (th (n + j)%nat) = s.

(** A forward computation that raises, whatever the state of the
    generator. *)
Definition fwd_raises {B : backend} {A : Type} (f : Fwd B A) (e : exn)
  : Prop :=
  forall g, f g = Raise e.

(** A constructor that raises, whatever the heap it starts from. *)
Definition ctor_raises {A} (c : Ctor A) (e : exn) : Prop :=
  forall h, c h = Raise e.

(** A forward computation that neither reads nor advances the generator. *)
Definition generator_free {B : backend} {A : Type} (f : Fwd B A) : Prop :=
  exists r : result A, forall g, f g = slift r g.


(** The model bound to [model], if there is one, is in evaluation mode. *)
Definition eval_mode {B : backend} {E : collaborators B} (w : world B E)
  : Prop :=
  forall a c,
    globals w !! "model"%string = Some (OModel a) ->
    models w !! a = Some c -> snd c = false.

(** From [w] to [w'] nothing changed but the training flags of the models
    and the log, which got forward passes and metrics only. *)
Definition only_observed {B : backend} {E : collaborators B}
  (w w' : world B E) : Prop :=
  globals w' = globals w /\ disk w' = disk w /\ rng w' = rng w
  /\ fst <$> models w' = fst <$> models w
  /\ exists evs, events w' = events w ++ evs
                 /\ Forall (fun ev => ev = EvForward \/ ev = EvMetrics) evs.

(** The same, the training flags included. *)
Definition untouched {B : backend} {E : collaborators B}
  (w w' : world B E) : Prop :=
  models w' = models w /\ only_observed w w'.

(** A statement that, run in evaluation mode, leaves the state untouched. *)
Definition observer {B : backend} {E : collaborators B} {A : Type}
  (c : Script B E A) : Prop :=
  forall w, eval_mode w -> untouched w (snd (c w)).

(** A state in which one training step can run: every name of the loop
    bound, the model of [example_state] at address 0, an empty test
    loader. *)
Definition example_training_world
  : world still_backend (example_collaborators still_backend) :=
  Build_world still_backend (example_collaborators still_backend)
    (list_to_map
       [("DEVICE"%string, OStr "cuda"); ("autocast"%string, OLib);
        ("criterion"%string, OLib); ("tqdm"%string, OLib);
        ("torch"%string, OLib); ("EPOCHS"%string, OInt 5);
        ("optimizer"%string,
         @OOptimizer still_backend (example_collaborators still_backend)
           0 tt);
        ("scaler"%string, OScaler GradScaler.new);
        ("trainloader"%string, OLoader []);
        ("testloader"%string, OLoader []);
        ("model"%string, OModel 0)])
    [(TimmModel ∅, true)] tt ∅ [].

(** A statement that binds names of [names] only: every other name is
    bound, or unbound, as before. *)
Definition binds_only {B : backend} {E : collaborators B} {A : Type}
  (names : list string) (c : Script B E A) : Prop :=
  forall w n, n ∉ names -> globals (snd (c w)) !! n = globals w !! n.

(** The names bound by a training step, by the loop over the epochs, by
    the construction of the loaders, and by the two parts of the script. *)
Definition step_names : list string := ["optimizer"; "scaler"]%string.

Definition loop_names : list string :=
  ["epoch"; "train_loss"; "train_acc"; "test_loss"; "test_acc"]%string
  ++ step_names.

Definition loader_names : list string :=
  ["transform_train"; "transform_test"; "trainset"; "trainloader";
   "testset"; "testloader"]%string.

Definition from_scratch_names : list string :=
  imports
  ++ ["DEVICE"; "IMG_SIZE"; "PATCH_SIZE"; "NUM_CLASSES"; "DIM"; "DEPTH";
      "HEADS"; "MLP_DIM"; "CHANNELS"; "DROPOUT"; "EMB_DROPOUT";
      "LEARNING_RATE"; "BATCH_SIZE"; "EPOCHS"; "PreNorm"; "FeedForward";
      "Attention"; "Transformer"; "ViT"; "model"; "criterion";
      "train_one_epoch"; "evaluate"]%string
  ++ loader_names ++ loop_names.

Definition fine_tuning_names : list string :=
  ("timm"%string :: imports)
  ++ ["DEVICE"; "pretrained_imgSize"; "numClass"; "ft_learnRate";
      "batch_size"; "EPOCHS"; "model"; "embed_dim"; "criterion";
      "train_one_epoch"; "evaluate"]%string
  ++ loader_names ++ loop_names.

(** A statement that raises wherever [name] is unbound. *)
Definition needs_name {B : backend} {E : collaborators B} {A : Type}
  (name : string) (c : Script B E A) : Prop :=
  forall w, globals w !! name = None -> exists e, fst (c w) = Raise e.

(** Two forward computations with the same outcome, whatever the states of
    the generator they start from. *)
Definition same_outcome {B : backend} {A : Type} (f f' : Fwd B A) : Prop :=
  forall g g', output (f g) = output (f' g').






(** A multi-index within the bounds of a shape. *)
Definition in_range (s idx : list Z) : Prop :=
  Forall2 (fun d i => 0 <= i < d) s idx.

(** Image [ib] of the batch [x] of [b] images and image [ib'] of the batch
    [x'] of [b'] images have the shape [s] and the same entries. *)
Definition same_image (ib ib' b b' : Z) (s : list Z) (x x' : tensor) : Prop :=
  (0 <= ib < b /\ 0 <= ib' < b')
  /\ shape x = b :: s /\ shape x' = b' :: s
  /\ forall rest, in_range s rest ->
                  at_ x (ib :: rest) = at_ x' (ib' :: rest).

(** Two computations that return such batches. *)
Definition same_image_result (ib ib' b b' : Z) (s : list Z)
  (r r' : result tensor) : Prop :=
  exists y y', r = Ok y /\ r' = Ok y' /\ same_image ib ib' b b' s y y'.

(** The same for two steps of a forward pass, which leave the generator in
    the same state. *)
Definition same_image_forward {B : backend} (ib ib' b b' : Z) (s : list Z)
  (f f' : Fwd B tensor) : Prop :=
  forall g, exists y y' g',
    f g = Ok (y, g') /\ f' g = Ok (y', g')
    /\ same_image ib ib' b b' s y y'.

(** ** Construction *)

Lemma succeeds_bind {A C} (c : Ctor A) (k : A -> Ctor C) :
  succeeds c -> (forall a, succeeds (k a)) -> succeeds (sbind c k).
Proof.
  intros Hc Hk h. destruct (Hc h) as (a & h1 & E1).
  destruct (Hk a h1) as (b & h2 & E2).
  exists b, h2. unfold sbind. now rewrite E1.
Qed.

Lemma succeeds_ret {A} (a : A) : succeeds (sret (S := heap) a).
Proof. intros h. now exists a, h. Qed.

Lemma succeeds_lift {A C} (v : A) (k : A -> Ctor C) :
  succeeds (k v) -> succeeds (sbind (slift (Ok v)) k).
Proof. intros H h. exact (H h). Qed.

Lemma succeeds_new_param s :
  forallb (fun d => 0 <=? d) s = true -> succeeds (new_param s).
Proof. intros H h. unfold new_param. rewrite H. eauto. Qed.

Ltac nonneg :=
  simpl; rewrite ?andb_true_iff, ?Z.leb_le; repeat split; lia.

Ltac alloc :=
  apply succeeds_bind; [apply succeeds_new_param; nonneg | intros ?].

Lemma succeeds_Linear i o b : 0 <= i -> 0 <= o -> succeeds (nn_Linear i o b).
Proof.
  intros. unfold nn_Linear. alloc.
  destruct b; [alloc|]; apply succeeds_ret.
Qed.

Lemma succeeds_LayerNorm d : 0 <= d -> succeeds (nn_LayerNorm d).
Proof. intros. unfold nn_LayerNorm. do 2 alloc. apply succeeds_ret. Qed.

Lemma succeeds_Conv2d i o k s :
  0 <= i -> 0 <= o -> 0 <= k -> succeeds (nn_Conv2d i o k s).
Proof. intros. unfold nn_Conv2d. do 2 alloc. apply succeeds_ret. Qed.

Lemma succeeds_Dropout p :
  Qle_bool 0 p && Qle_bool p 1 = true -> succeeds (nn_Dropout p).
Proof. intros H h. unfold nn_Dropout, slift. rewrite H. eauto. Qed.

Lemma init_scale_float dim heads :
  0 < heads -> heads <= dim ->
  Attention.init_scale dim heads
  = Ok (PyFloat (Rpower (IZR (dim / heads)) (- (1 / 2)))).
Proof.
  intros Hh Hd. unfold Attention.init_scale, py_floordiv, rbind.
  assert (0 < dim / heads) by (apply Z.div_str_pos; lia).
  destruct (heads =? 0) eqn:E0; [lia|].
  unfold py_pow_neg_half.
  destruct (dim / heads =? 0) eqn:E1; [lia|].
  destruct (dim / heads <? 0) eqn:E2; [lia|]. reflexivity.
Qed.

Lemma succeeds_Attention dim heads p :
  0 < heads -> heads <= dim -> Qle_bool 0 p && Qle_bool p 1 = true ->
  succeeds (Attention.init dim heads p).
Proof.
  intros Hh Hd Hp. unfold Attention.init.
  rewrite init_scale_float by assumption.
  apply succeeds_lift.
  apply succeeds_bind; [apply succeeds_Linear; lia | intros ?].
  apply succeeds_bind; [apply succeeds_Linear; lia | intros ?].
  apply succeeds_bind; [now apply succeeds_Dropout | intros ?].
  apply succeeds_ret.
Qed.

Lemma succeeds_FeedForward dim hidden p :
  0 <= dim -> 0 <= hidden -> Qle_bool 0 p && Qle_bool p 1 = true ->
  succeeds (FeedForward.init dim hidden p).
Proof.
  intros. unfold FeedForward.init.
  apply succeeds_bind; [apply succeeds_Linear; lia | intros ?].
  apply succeeds_bind; [now apply succeeds_Dropout | intros ?].
  apply succeeds_bind; [apply succeeds_Linear; lia | intros ?].
  apply succeeds_bind; [now apply succeeds_Dropout | intros ?].
  apply succeeds_ret.
Qed.

Lemma succeeds_PreNorm {F} dim (f : F) :
  0 <= dim -> succeeds (PreNorm.init dim f).
Proof.
  intros. unfold PreNorm.init.
  apply succeeds_bind; [now apply succeeds_LayerNorm | intros ?].
  apply succeeds_ret.
Qed.

Lemma succeeds_layers n dim heads mlp p :
  0 < heads -> heads <= dim -> 0 <= mlp ->
  Qle_bool 0 p && Qle_bool p 1 = true ->
  succeeds (Transformer.init_layers n dim heads mlp p).
Proof.
  intros Hh Hd Hm Hp. induction n as [|n IH]; simpl.
  - apply succeeds_ret.
  - apply succeeds_bind.
    + unfold Transformer.init_block.
      apply succeeds_bind; [now apply succeeds_Attention | intros ?].
      apply succeeds_bind; [apply succeeds_PreNorm; lia | intros ?].
      apply succeeds_bind; [apply succeeds_FeedForward; (lia || assumption)
                           | intros ?].
      apply succeeds_bind; [apply succeeds_PreNorm; lia | intros ?].
      apply succeeds_ret.
    + intros ?. apply succeeds_bind; [exact IH | intros ?].
      apply succeeds_ret.
Qed.

(** After the assertion nothing is checked but the sizes: the constructor
    returns as soon as [heads <= dim]. *)
Lemma succeeds_ViT c :
  positive_sizes c ->
  ViT.image_size c mod ViT.patch_size c = 0 ->
  ViT.heads c <= ViT.dim c ->
  succeeds (ViT.init c).
Proof.
  intros (Hi & Hp & Hn & Hd & Hh & Hm & Hc & Hdepth & Hdr & Hed) Hmod Hle.
  unfold ViT.init, py_mod, py_floordiv, py_assert.
  destruct (ViT.patch_size c =? 0) eqn:E0; [lia|].
  rewrite Hmod. apply succeeds_lift. simpl. do 2 apply succeeds_lift.
  apply succeeds_bind; [apply succeeds_Conv2d; lia | intros ?].
  assert (0 <= ViT.image_size c / ViT.patch_size c)
    by (apply Z.div_pos; lia).
  apply succeeds_bind;
    [apply succeeds_new_param; simpl; rewrite ?andb_true_iff, ?Z.leb_le;
     repeat split; nia | intros ?].
  alloc.
  apply succeeds_bind; [now apply succeeds_Dropout | intros ?].
  apply succeeds_bind.
  { unfold Transformer.init.
    apply succeeds_bind; [apply succeeds_layers; (lia || assumption)
                         | intros ?].
    apply succeeds_ret. }
  intros ?.
  apply succeeds_bind; [apply succeeds_LayerNorm; lia | intros ?].
  apply succeeds_bind; [apply succeeds_Linear; lia | intros ?].
  apply succeeds_ret.
Qed.

Lemma assertion_fails c h :
  ViT.patch_size c <> 0 ->
  ViT.image_size c mod ViT.patch_size c <> 0 ->
  ViT.init c h = Raise (AssertionError ViT.assert_msg).
Proof.
  intros Hp Hm. unfold ViT.init, py_mod, py_assert, sbind, slift.
  destruct (ViT.patch_size c =? 0) eqn:E0; [lia|].
  destruct (ViT.image_size c mod ViT.patch_size c =? 0) eqn:E1; [lia|].
  reflexivity.
Qed.

(** C2, as the claim states it, fails: ten embedding dimensions are not
    divisible by three heads, and the model is constructed all the same. *)
Lemma heads_not_checked :
  ViT.dim uneven_heads mod ViT.heads uneven_heads <> 0
  /\ is_ok (ViT.init uneven_heads []) = true.
Proof. split; [vm_compute; discriminate | vm_compute; reflexivity]. Qed.

(** C2, amended: with positive sizes, construction raises the assertion
    error when [image_size] is not divisible by [patch_size]; the
    divisibility of [dim] by [heads] is not checked, and construction
    returns whenever [image_size] is divisible by [patch_size] and
    [heads <= dim], so for every configuration with both divisibilities. *)
Theorem construction_checks (c : ViT.config) (h : heap) :
  positive_sizes c ->
  (ViT.image_size c mod ViT.patch_size c <> 0 ->
   ViT.init c h = Raise (AssertionError ViT.assert_msg))
  /\ (ViT.image_size c mod ViT.patch_size c = 0 ->
      ViT.heads c <= ViT.dim c ->
      exists m h', ViT.init c h = Ok (m, h'))
  /\ (ViT.image_size c mod ViT.patch_size c = 0 ->
      ViT.dim c mod ViT.heads c = 0 ->
      exists m h', ViT.init c h = Ok (m, h')).
Proof.
  intros Hpos. split; [|split].
  - intros Hm. apply assertion_fails; [|assumption].
    destruct Hpos as (_ & Hp & _). lia.
  - intros Hm Hle. now apply succeeds_ViT.
  - intros Hm Hdiv. apply succeeds_ViT; try assumption.
    destruct Hpos as (_ & _ & _ & Hd & Hh & _).
    apply Z.mod_divide in Hdiv; [|lia].
    apply Z.divide_pos_le in Hdiv; lia.
Qed.

Lemma construction_checks_witness :
  positive_sizes ViT.script_config
  /\ exists m h', ViT.init ViT.script_config [] = Ok (m, h').
Proof.
  assert (Hpos : positive_sizes ViT.script_config)
    by (unfold positive_sizes; simpl; repeat split; lia).
  split; [exact Hpos|].
  apply (construction_checks ViT.script_config [] Hpos); reflexivity.
Defined.

(** ** The attention scale *)

Lemma rpower_64 : Rpower 64 (- (1 / 2)) = 0.125%R.
Proof.
  rewrite Rpower_Ropp.
  replace (1 / 2)%R with (/ 2)%R by lra.
  rewrite Rpower_sqrt by lra.
  replace 64%R with (8 * 8)%R by lra.
  rewrite sqrt_square by lra. lra.
Qed.

Lemma init_keeps_scale dim heads p h a h' :
  Attention.init dim heads p h = Ok (a, h') ->
  Attention.init_scale dim heads = Ok (Attention.scale a).
Proof.
  unfold Attention.init, sbind, slift.
  destruct (Attention.init_scale dim heads) as [sc|e]; [|discriminate].
  destruct (nn_Linear dim (dim * 3) false h) as [[l1 h1]|]; [|discriminate].
  destruct (nn_Linear dim dim true h1) as [[l2 h2]|]; [|discriminate].
  destruct (nn_Dropout p h2) as [[d h3]|]; [|discriminate].
  unfold sret. intros [= <- _]. reflexivity.
Qed.

(** C7: with [heads] dividing [dim], the scale kept by the attention module
    is [d^(-1/2)] for the per-head dimension [d = dim / heads]; the scores
    are the products of queries and keys times that scale; and for
    [dim = 512], [heads = 8] the per-head dimension is 64 and the scale is
    0.125. *)
Theorem attention_scale (dim heads : Z) :
  0 < heads -> 0 < dim -> dim mod heads = 0 ->
  let d := dim / heads in
  d * heads = dim
  /\ Attention.init_scale dim heads = Ok (PyFloat (Rpower (IZR d) (- (1 / 2))))
  /\ (forall p h a h',
        Attention.init dim heads p h = Ok (a, h') ->
        Attention.scale a = PyFloat (Rpower (IZR d) (- (1 / 2)))
        /\ forall q k,
             Attention.probabilities a q k
             = rbind (einsum_qk q k)
                 (fun qk => softmax_last
                              (scale_by (Rpower (IZR d) (- (1 / 2))) qk)))
  /\ (forall t idx,
        at_ (scale_by (Rpower (IZR d) (- (1 / 2))) t) idx
        = (at_ t idx * Rpower (IZR d) (- (1 / 2)))%R)
  /\ (dim = 512 -> heads = 8 ->
      d = 64 /\ Attention.init_scale dim heads = Ok (PyFloat 0.125%R)).
Proof.
  intros Hh Hd Hm d.
  assert (Hdiv : d * heads = dim).
  { unfold d. apply Z.mod_divide in Hm; [|lia].
    destruct Hm as [k ->]. rewrite Z.div_mul by lia. reflexivity. }
  assert (Hle : heads <= dim).
  { apply Z.mod_divide in Hm; [|lia]. apply Z.divide_pos_le in Hm; lia. }
  assert (Hs := init_scale_float dim heads Hh Hle). fold d in Hs.
  split; [exact Hdiv|]. split; [exact Hs|]. split; [|split].
  - intros p h a h' Hinit. apply init_keeps_scale in Hinit.
    rewrite Hs in Hinit. injection Hinit as Hsc. split; [now symmetry|].
    intros q k. unfold Attention.probabilities. now rewrite <- Hsc.
  - reflexivity.
  - intros -> ->. split; [reflexivity|].
    rewrite Hs. unfold d. change (512 / 8) with 64. now rewrite rpower_64.
Qed.

Lemma attention_scale_witness :
  512 / 8 * 8 = 512
  /\ Attention.init_scale 512 8 = Ok (PyFloat 0.125%R).
Proof.
  assert (H8 : 0 < 8) by lia.
  assert (H512 : 0 < 512) by lia.
  assert (Hm : 512 mod 8 = 0) by reflexivity.
  destruct (attention_scale 512 8 H8 H512 Hm) as (H1 & _ & _ & _ & H5).
  split; [exact H1|]. now destruct (H5 eq_refl eq_refl).
Defined.

(** ** What the constructors build *)

Lemma sbind_ok {S A C} (c : ST S A) (k : A -> ST S C) s b s' :
  sbind c k s = Ok (b, s') ->
  exists a s1, c s = Ok (a, s1) /\ k a s1 = Ok (b, s').
Proof.
  unfold sbind. destruct (c s) as [[a s1]|e]; [|discriminate].
  intros H. now exists a, s1.
Qed.

Lemma slift_ok {S A} (c : result A) (s : S) a s' :
  slift c s = Ok (a, s') -> c = Ok a /\ s' = s.
Proof. unfold slift. destruct c; [|discriminate]. now intros [= -> ->]. Qed.

Lemma sret_ok {S A} (x : A) (s : S) a s' :
  sret x s = Ok (a, s') -> a = x /\ s' = s.
Proof. unfold sret. now intros [= -> ->]. Qed.

Lemma new_param_inv s h i h' :
  new_param s h = Ok (i, h') -> i = length h /\ h' = h ++ [s].
Proof.
  unfold new_param. destruct (forallb _ s); [|discriminate].
  now intros [= <- <-].
Qed.

Ltac inv_ctor :=
  repeat match goal with
  | H : sbind _ _ _ = Ok _ |- _ =>
      let a := fresh "a" in let h := fresh "h" in let E := fresh "E" in
      apply sbind_ok in H; destruct H as (a & h & E & H)
  | H : sret _ _ = Ok _ |- _ => apply sret_ok in H; destruct H as [? ?]
  | H : slift _ _ = Ok _ |- _ => apply slift_ok in H; destruct H as [? ?]
  | H : new_param _ _ = Ok _ |- _ =>
      apply new_param_inv in H; destruct H as [? ?]
  end.

(** Equal records of addresses: field by field, by arithmetic. *)
Ltac fields_eq := try first [ lia | reflexivity | progress f_equal; fields_eq ].

Lemma nn_LayerNorm_inv d h l h' :
  nn_LayerNorm d h = Ok (l, h') ->
  l = {| ln_weight := length h; ln_bias := S (length h) |}
  /\ h' = h ++ [[d]; [d]].
Proof.
  unfold nn_LayerNorm. intros H. inv_ctor. subst.
  rewrite length_app, <- app_assoc. simpl. rewrite Nat.add_1_r. auto.
Qed.

Lemma nn_Linear_inv i o b h l h' :
  nn_Linear i o b h = Ok (l, h') ->
  l = {| lin_weight := length h;
         lin_bias := if b then Some (S (length h)) else None |}
  /\ h' = h ++ [o; i] :: (if b then [[o]] else []).
Proof.
  unfold nn_Linear. intros H. inv_ctor. destruct b; inv_ctor; subst.
  - rewrite length_app, <- app_assoc. simpl. rewrite Nat.add_1_r. auto.
  - auto.
Qed.

Lemma nn_Conv2d_inv i o k s h c h' :
  nn_Conv2d i o k s h = Ok (c, h') ->
  c = {| conv_weight := length h; conv_bias := S (length h);
         conv_kernel := k; conv_stride := s |}
  /\ h' = h ++ [[o; i; k; k]; [o]] /\ 0 <= k.
Proof.
  unfold nn_Conv2d. intros H.
  apply sbind_ok in H as (w & h1 & E & H).
  assert (0 <= k).
  { unfold new_param in E. simpl in E.
    destruct (0 <=? o); [|discriminate]. destruct (0 <=? i); [|discriminate].
    destruct (0 <=? k) eqn:Ek; [lia|discriminate]. }
  inv_ctor. subst.
  rewrite length_app, <- app_assoc. simpl. rewrite Nat.add_1_r. auto.
Qed.

Lemma nn_Dropout_inv p h d h' :
  nn_Dropout p h = Ok (d, h') -> d = {| drop_p := p |} /\ h' = h.
Proof.
  unfold nn_Dropout. intros H. apply slift_ok in H as [H ->].
  destruct (_ && _); [|discriminate]. now injection H as <-.
Qed.

Lemma init_block_inv dim heads mlp p h blk h' :
  Transformer.init_block dim heads mlp p h = Ok (blk, h') ->
  exists sc, Attention.init_scale dim heads = Ok sc
    /\ blk = block_at heads sc p (length h)
    /\ h' = h ++ block_shapes dim mlp.
Proof.
  unfold Transformer.init_block, Attention.init, FeedForward.init,
    PreNorm.init.
  intros H. inv_ctor.
  repeat match goal with
  | E : nn_Linear _ _ _ _ = Ok _ |- _ => apply nn_Linear_inv in E as [? ?]
  | E : nn_LayerNorm _ _ = Ok _ |- _ => apply nn_LayerNorm_inv in E as [? ?]
  | E : nn_Dropout _ _ = Ok _ |- _ => apply nn_Dropout_inv in E as [? ?]
  end.
  subst. eexists. split; [eassumption|].
  rewrite <- !app_assoc. simpl. split; [|reflexivity].
  unfold block_at. rewrite !length_app. simpl. fields_eq.
Qed.

Lemma init_layers_inv n dim heads mlp p h ls h' :
  Transformer.init_layers n dim heads mlp p h = Ok (ls, h') ->
  ls = blocks_at heads (scale_of dim heads) p (length h) n
  /\ h' = h ++ concat (replicate n (block_shapes dim mlp)).
Proof.
  revert h ls h'. induction n as [|n IH]; simpl; intros h ls h' H.
  - inv_ctor. subst. now rewrite app_nil_r.
  - inv_ctor. subst.
    apply init_block_inv in E as (sc & Hsc & -> & ->).
    apply IH in E0 as [-> ->].
    unfold scale_of. rewrite Hsc. rewrite length_app. simpl.
    rewrite <- app_assoc. auto.
Qed.

Lemma init_inv c h m h' :
  ViT.init c h = Ok (m, h') ->
  m = vit_at c (length h) /\ h' = h ++ vit_shapes c
  /\ 0 < ViT.patch_size c
  /\ ViT.image_size c mod ViT.patch_size c = 0.
Proof.
  unfold ViT.init, Transformer.init. intros H. inv_ctor.
  unfold py_mod, py_floordiv, py_assert in *.
  destruct (ViT.patch_size c =? 0) eqn:E0; [discriminate|].
  repeat match goal with
  | H : Ok _ = Ok _ |- _ => injection H as H
  end.
  subst.
  destruct (ViT.image_size c mod ViT.patch_size c =? 0) eqn:Em;
    [|discriminate].
  repeat match goal with
  | E : nn_Linear _ _ _ _ = Ok _ |- _ => apply nn_Linear_inv in E as [? ?]
  | E : nn_LayerNorm _ _ = Ok _ |- _ => apply nn_LayerNorm_inv in E as [? ?]
  | E : nn_Dropout _ _ = Ok _ |- _ => apply nn_Dropout_inv in E as [? ?]
  | E : nn_Conv2d _ _ _ _ _ = Ok _ |- _ =>
      apply nn_Conv2d_inv in E as (? & ? & ?)
  | E : Transformer.init_layers _ _ _ _ _ _ = Ok _ |- _ =>
      apply init_layers_inv in E as [? ?]
  end.
  subst. split; [|split; [|split; lia]].
  - unfold vit_at. rewrite !length_app, length_concat. simpl.
    assert (Hsum : forall k, sum_list (length <$> replicate k
                      (block_shapes (ViT.dim c) (ViT.mlp_dim c)))
                    = (11 * k)%nat).
    { intros k. rewrite fmap_replicate, sum_list_replicate. simpl. lia. }
    rewrite ?Hsum. fields_eq.
  - unfold vit_shapes, num_patches. rewrite <- !app_assoc. reflexivity.
Qed.

(** ** Shapes of the embedding stage *)

Lemma vit_store c h th :
  store_matches th (h ++ vit_shapes c) ->
  shape (th (length h))
  = [ViT.dim c; ViT.channels c; ViT.patch_size c; ViT.patch_size c]
  /\ shape (th (S (length h))) = [ViT.dim c]
  /\ shape (th (length h + 2)%nat) = [1; num_patches c + 1; ViT.dim c]
  /\ shape (th (length h + 3)%nat) = [1; 1; ViT.dim c].
Proof.
  intros Hm. repeat split; apply Hm; rewrite lookup_app_r by lia.
  - now replace (length h - length h)%nat with 0%nat by lia.
  - now replace (S (length h) - length h)%nat with 1%nat by lia.
  - now replace (length h + 2 - length h)%nat with 2%nat by lia.
  - now replace (length h + 3 - length h)%nat with 3%nat by lia.
Qed.

Lemma shape_eqb_refl s : shape_eqb s s = true.
Proof.
  unfold shape_eqb. rewrite Z.eqb_refl. simpl.
  induction s as [|d s IH]; simpl; [reflexivity|].
  now rewrite Z.eqb_refl.
Qed.

Lemma shape_eqb_eq a b : shape_eqb a b = true -> a = b.
Proof.
  unfold shape_eqb. rewrite andb_true_iff, Z.eqb_eq. intros [Hl Hf].
  apply Nat2Z.inj in Hl. revert b Hl Hf.
  induction a as [|x a IH]; intros [|y b] Hl Hf; simpl in *;
    try discriminate; [reflexivity|].
  apply andb_true_iff in Hf as [Hxy Hf]. apply Z.eqb_eq in Hxy.
  f_equal; [assumption|]. apply IH; [lia|assumption].
Qed.

Lemma conv2d_out_div size k : 0 < k -> conv2d_out size k k = size / k.
Proof.
  intros Hk. unfold conv2d_out.
  replace (size - k) with (size + (-1) * k) by lia.
  rewrite Z.div_add by lia. lia.
Qed.

Lemma divisible_ge size k : 0 < size -> 0 < k -> size mod k = 0 -> k <= size.
Proof.
  intros Hs Hk Hm. apply Z.mod_divide in Hm; [|lia].
  apply Z.divide_pos_le in Hm; lia.
Qed.

(** The embedding stage on a batched input, whatever its spatial size. *)
Lemma patch_embed_shape c h th img Bn C H W :
  store_matches th (h ++ vit_shapes c) ->
  0 < ViT.patch_size c ->
  shape img = [Bn; C; H; W] ->
  let P := ViT.patch_size c in
  if (C =? ViT.channels c) && (P <=? H) && (P <=? W)
  then exists x, ViT.patch_embed th (vit_at c (length h)) img = Ok x
                 /\ shape x = [Bn; (H / P) * (W / P); ViT.dim c]
  else ViT.patch_embed th (vit_at c (length h)) img = Raise RuntimeError.
Proof.
  intros Hst HP Himg P.
  destruct (vit_store c h th Hst) as (Hw & Hb & _ & _).
  unfold ViT.patch_embed, F_conv2d. simpl.
  rewrite Hw, Hb, Himg, shape_eqb_refl.
  assert (HP' : (0 <? ViT.patch_size c) = true) by now apply Z.ltb_lt.
  rewrite HP'. rewrite !andb_true_r. fold P.
  destruct ((C =? ViT.channels c) && (P <=? H) && (P <=? W)) eqn:Eok;
    [|reflexivity].
  simpl. eexists. split; [reflexivity|]. simpl.
  rewrite !conv2d_out_div by assumption. now rewrite Z.mul_1_r.
Qed.

(** C6: for a constructed model and a batch [[B,C,H,W]] of images with [H]
    and [W] positive and divisible by the patch size [P], the embedding
    stage returns a token sequence of shape [[B, (H/P)*(W/P), D]]. *)
Theorem patch_embedding_shape (c : ViT.config) (h0 h' : heap) (m : ViT.t)
  (th : store) (img : tensor) (Bn H W : Z) :
  ViT.init c h0 = Ok (m, h') ->
  store_matches th h' ->
  shape img = [Bn; ViT.channels c; H; W] ->
  0 < H -> 0 < W ->
  H mod ViT.patch_size c = 0 -> W mod ViT.patch_size c = 0 ->
  exists x, ViT.patch_embed th m img = Ok x
            /\ shape x
               = [Bn; (H / ViT.patch_size c) * (W / ViT.patch_size c);
                  ViT.dim c].
Proof.
  intros Hinit Hst Himg HH HW HmH HmW.
  apply init_inv in Hinit as (-> & -> & HP & _).
  pose proof (patch_embed_shape c h0 th img Bn _ H W Hst HP Himg) as Hpe.
  simpl in Hpe. rewrite Z.eqb_refl in Hpe.
  assert (E1 : (ViT.patch_size c <=? H) = true)
    by (apply Z.leb_le; now apply divisible_ge).
  assert (E2 : (ViT.patch_size c <=? W) = true)
    by (apply Z.leb_le; now apply divisible_ge).
  rewrite E1, E2 in Hpe. exact Hpe.
Qed.

Lemma tokens_shape c h th Bn n x y :
  store_matches th (h ++ vit_shapes c) ->
  0 < num_patches c ->
  shape x = [Bn; n; ViT.dim c] ->
  ViT.tokens th (vit_at c (length h)) Bn x = Ok y ->
  n = num_patches c /\ shape y = [Bn; num_patches c + 1; ViT.dim c].
Proof.
  intros Hst HN Hx.
  destruct (vit_store c h th Hst) as (_ & _ & Hpos & Hcls).
  unfold ViT.tokens, expand_batch, rbind. simpl.
  rewrite Hcls. simpl.
  destruct (0 <=? Bn); simpl; [|discriminate].
  unfold cat1. simpl. rewrite Hx, shape_eqb_refl.
  unfold tiadd. simpl. rewrite Hpos.
  unfold broadcast. simpl. rewrite Z.eqb_refl.
  assert (Hcase : forall r : list Z,
            match (if Bn =? 1 then Some [Bn]
                   else if Bn =? 1 then Some [1] else Some [Bn]) with
            | Some r => r = [Bn]
            | None => False
            end) by (intros _; destruct (Bn =? 1); reflexivity).
  specialize (Hcase []).
  destruct (if Bn =? 1 then Some [Bn]
            else if Bn =? 1 then Some [1] else Some [Bn]) as [r|];
    [subst r | contradiction].
  destruct (1 + n =? num_patches c + 1) eqn:E1.
  - apply Z.eqb_eq in E1. simpl. rewrite shape_eqb_refl.
    intros [= <-]. simpl. split; [lia|]. f_equal. f_equal. lia.
  - destruct (1 + n =? 1) eqn:E2.
    + simpl. unfold shape_eqb. simpl. rewrite Z.eqb_refl, Z.eqb_sym, E1.
      simpl. discriminate.
    + destruct (num_patches c + 1 =? 1) eqn:E3; [lia | discriminate].
Qed.

Lemma num_patches_pos c :
  0 < ViT.image_size c -> 0 < ViT.patch_size c ->
  ViT.image_size c mod ViT.patch_size c = 0 ->
  0 < num_patches c.
Proof.
  intros Hi Hp Hm. unfold num_patches.
  assert (ViT.patch_size c <= ViT.image_size c) by now apply divisible_ge.
  assert (0 < ViT.image_size c / ViT.patch_size c)
    by (apply Z.div_str_pos; lia).
  nia.
Qed.

Lemma store_of_matches h v : store_matches (store_of h v) h.
Proof.
  intros i s Hi. unfold store_of. simpl.
  now rewrite (nth_lookup_Some _ _ _ _ Hi).
Qed.

(** ** The forward pass and the number of patches *)

(** C10, as the claim states it, fails: the model configured for 32 x 32
    images, in training and in evaluation mode, returns on a 16 x 64 image,
    which has the same number of patches. *)
Lemma forward_on_another_size :
  ViT.image_size ViT.script_config = 32
  /\ shape (zeros [1; 3; 16; 64]) = [1; 3; 16; 64]
  /\ is_ok (ViT.forward still_backend
              (zero_store (vit_shapes ViT.script_config)) true
              (vit_at ViT.script_config 0) (zeros [1; 3; 16; 64]) tt)
     = true
  /\ is_ok (ViT.forward still_backend
              (zero_store (vit_shapes ViT.script_config)) false
              (vit_at ViT.script_config 0) (zeros [1; 3; 16; 64]) tt)
     = true.
Proof.
  split; [reflexivity|]. split; [reflexivity|].
  split; vm_compute; reflexivity.
Qed.

(** C10, amended: for a constructed model with a positive [image_size], a
    forward pass on a batch [[B,C,H,W]] returns only if the number of
    patches of the input, [(H // P) * (W // P)], is the configured [N]
    (the positions cannot be added otherwise), and then the token sequence
    has length [N + 1]; the spatial size itself need not be
    [image_size]. *)
Theorem forward_needs_patch_count (B : backend) (c : ViT.config)
  (h0 h' : heap) (m : ViT.t) (th : store) (training : bool)
  (img out : tensor) (Bn C H W : Z) (g g' : gen B) :
  ViT.init c h0 = Ok (m, h') ->
  store_matches th h' ->
  0 < ViT.image_size c ->
  shape img = [Bn; C; H; W] ->
  ViT.forward B th training m img g = Ok (out, g') ->
  (H / ViT.patch_size c) * (W / ViT.patch_size c) = num_patches c
  /\ exists x0 x,
       ViT.patch_embed th m img = Ok x0
       /\ ViT.tokens th m Bn x0 = Ok x
       /\ shape x = [Bn; num_patches c + 1; ViT.dim c].
Proof.
  intros Hinit Hst Hpos Himg Hfwd.
  apply init_inv in Hinit as (-> & -> & HP & Hmod).
  assert (HN : 0 < num_patches c) by now apply num_patches_pos.
  unfold ViT.forward in Hfwd. rewrite Himg in Hfwd.
  apply sbind_ok in Hfwd as (b & g1 & Eb & Hfwd).
  apply slift_ok in Eb as [[= <-] ->].
  apply sbind_ok in Hfwd as (x0 & g2 & E0 & Hfwd).
  apply slift_ok in E0 as [E0 ->].
  apply sbind_ok in Hfwd as (x & g3 & E1 & _).
  apply slift_ok in E1 as [E1 ->].
  pose proof (patch_embed_shape c h0 th img Bn C H W Hst HP Himg) as Hpe.
  simpl in Hpe.
  destruct ((C =? ViT.channels c) && (ViT.patch_size c <=? H)
            && (ViT.patch_size c <=? W)); [|congruence].
  destruct Hpe as (x0' & Ex0 & Hx0). rewrite E0 in Ex0.
  injection Ex0 as <-.
  destruct (tokens_shape c h0 th Bn _ x0 x Hst HN Hx0 E1) as [Hn Hx].
  split; [exact Hn|]. now exists x0, x.
Qed.

Lemma forward_needs_patch_count_witness :
  (2 / ViT.patch_size tiny_config) * (8 / ViT.patch_size tiny_config)
  = num_patches tiny_config
  /\ exists x0 x,
       ViT.patch_embed (zero_store (vit_shapes tiny_config))
         (vit_at tiny_config 0) (zeros [1; 1; 2; 8]) = Ok x0
       /\ ViT.tokens (zero_store (vit_shapes tiny_config))
            (vit_at tiny_config 0) 1 x0 = Ok x
       /\ shape x = [1; num_patches tiny_config + 1; ViT.dim tiny_config].
Proof.
  destruct (ViT.forward still_backend (zero_store (vit_shapes tiny_config))
              true (vit_at tiny_config 0) (zeros [1; 1; 2; 8]) tt)
    as [[out g']|e] eqn:E.
  - refine (forward_needs_patch_count still_backend tiny_config []
              (vit_shapes tiny_config) (vit_at tiny_config 0)
              (zero_store (vit_shapes tiny_config)) true
              (zeros [1; 1; 2; 8]) out 1 1 2 8 tt g' _ _ _ _ E).
    + reflexivity.
    + apply store_of_matches.
    + reflexivity.
    + reflexivity.
  - exfalso.
    assert (Hok : is_ok (ViT.forward still_backend
                           (zero_store (vit_shapes tiny_config)) true
                           (vit_at tiny_config 0) (zeros [1; 1; 2; 8]) tt)
                  = true) by (vm_compute; reflexivity).
    rewrite E in Hok. discriminate.
Defined.

Lemma patch_embedding_shape_witness :
  exists x,
    ViT.patch_embed (zero_store (vit_shapes ViT.script_config))
      (vit_at ViT.script_config 0) (zeros [2; 3; 32; 32]) = Ok x
    /\ shape x = [2; (32 / 4) * (32 / 4); 512].
Proof.
  apply (patch_embedding_shape ViT.script_config []
           (vit_shapes ViT.script_config) (vit_at ViT.script_config 0)
           (zero_store (vit_shapes ViT.script_config))
           (zeros [2; 3; 32; 32]) 2 32 32).
  - reflexivity.
  - apply store_of_matches.
  - reflexivity.
  - lia.
  - lia.
  - reflexivity.
  - reflexivity.
Defined.

(** ** The transformer block *)

Lemma broadcast_rev_comm a b : broadcast_rev a b = broadcast_rev b a.
Proof.
  revert b. induction a as [|x a IH]; intros [|y b]; simpl; try reflexivity.
  rewrite (IH b). destruct (broadcast_rev b a) as [r|]; [|reflexivity].
  destruct (Z.eqb_spec x y) as [->|Hxy].
  - now rewrite Z.eqb_refl.
  - destruct (Z.eqb_spec y x) as [->|_]; [contradiction|].
    destruct (Z.eqb_spec x 1) as [->|Hx], (Z.eqb_spec y 1) as [->|Hy];
      reflexivity.
Qed.

Lemma tadd_comm a b : tadd a b = tadd b a.
Proof.
  unfold tadd, broadcast. rewrite (broadcast_rev_comm (rev (shape a))).
  destruct (broadcast_rev (rev (shape b)) (rev (shape a))); [|reflexivity].
  do 2 f_equal. extensionality idx. apply Rplus_comm.
Qed.

Lemma block_is_prenorm B th training l x g :
  Transformer.forward_block B th training l x g
  = prenorm_block B th training l x g.
Proof.
  unfold Transformer.forward_block, prenorm_block, PreNorm.forward.
  destruct l as [attn ff]. simpl. unfold sbind, slift.
  destruct (F_layer_norm th (PreNorm.norm attn) x) as [n1|]; [|reflexivity].
  destruct (Attention.forward B th training (PreNorm.fn attn) n1 g)
    as [[a g1]|]; [|reflexivity].
  rewrite (tadd_comm a x).
  destruct (tadd x a) as [x1|]; [|reflexivity].
  destruct (F_layer_norm th (PreNorm.norm ff) x1) as [n2|]; [|reflexivity].
  destruct (FeedForward.forward B th training (PreNorm.fn ff) n2 g1)
    as [[f g2]|]; [|reflexivity].
  now rewrite (tadd_comm f x1).
Qed.

Lemma blocks_norm_params_ge heads sc p count n x :
  x ∈ flat_map block_norm_params (blocks_at heads sc p n count) ->
  (n + 3 <= x)%nat.
Proof.
  revert n. induction count as [|k IH]; intros n; simpl.
  - intros Hx. inversion Hx.
  - rewrite !elem_of_cons. intros [->|[->|[->|[->|Hx]]]]; try lia.
    apply IH in Hx. lia.
Qed.

Lemma blocks_norm_params_NoDup heads sc p count n :
  NoDup (flat_map block_norm_params (blocks_at heads sc p n count)).
Proof.
  revert n. induction count as [|k IH]; intros n; simpl.
  - constructor.
  - assert (Hge := blocks_norm_params_ge heads sc p k (n + 11)).
    change (NoDup ([n + 3; n + 4; n + 9; n + 10]%nat
                   ++ flat_map block_norm_params
                        (blocks_at heads sc p (n + 11) k))).
    apply NoDup_app. split; [|split; [|apply IH]].
    + rewrite !NoDup_cons, !not_elem_of_cons.
      repeat split; try lia; try apply not_elem_of_nil. apply NoDup_nil_2.
    + intros x Hx Hin. apply Hge in Hin. rewrite !elem_of_cons in Hx.
      destruct Hx as [->|[->|[->|[->|Hx]]]]; try lia. inversion Hx.
Qed.

(** C4: a block computes [x1 = x + SelfAttention(LayerNorm(x))] and then
    [x2 = x1 + FeedForward(LayerNorm(x1))], the normalization being applied
    to the input of each sub-layer, for every input; and in a constructed
    model the scale and shift cells of the layer norms of all the blocks are
    pairwise distinct: no block shares them with another. *)
Theorem prenorm_residual_block :
  (forall (B : backend) (th : store) (training : bool)
          (l : Transformer.block) (x : tensor) (g : gen B),
      Transformer.forward_block B th training l x g
      = prenorm_block B th training l x g)
  /\ (forall (c : ViT.config) (h0 h' : heap) (m : ViT.t),
        ViT.init c h0 = Ok (m, h') ->
        NoDup (norm_params (ViT.transformer m))).
Proof.
  split.
  - intros. apply block_is_prenorm.
  - intros c h0 h' m Hinit. apply init_inv in Hinit as (-> & _).
    unfold norm_params. simpl. apply blocks_norm_params_NoDup.
Qed.

Lemma prenorm_residual_block_witness :
  NoDup (norm_params (ViT.transformer (vit_at ViT.script_config 0))).
Proof.
  apply (proj2 prenorm_residual_block ViT.script_config []
           (vit_shapes ViT.script_config)).
  reflexivity.
Defined.

(** ** Attention probabilities *)

Lemma rsum_nat_pos n f :
  (0 < n)%nat -> (forall i, 0 < f i)%R -> (0 < rsum_nat n f)%R.
Proof.
  intros Hn Hf. induction n as [|n IH]; [lia|]. simpl.
  destruct n as [|n].
  - simpl. specialize (Hf (Z.of_nat 0)). lra.
  - assert (0 < rsum_nat (S n) f)%R by (apply IH; lia).
    specialize (Hf (Z.of_nat (S n))). lra.
Qed.

Lemma rsum_nat_div n f c :
  rsum_nat n (fun j => f j / c)%R = (rsum_nat n f / c)%R.
Proof.
  induction n as [|n IH]; simpl; [lra|]. rewrite IH. lra.
Qed.

(** A row of a softmax is a probability distribution. *)
Lemma softmax_row (L : Z) (s : Z -> R) :
  0 < L ->
  let S := rsum L (fun k => exp (s k)) in
  (forall j, 0 <= exp (s j) / S)%R
  /\ rsum L (fun j => exp (s j) / S)%R = 1%R.
Proof.
  intros HL S.
  assert (HS : (0 < S)%R).
  { unfold S, rsum. apply rsum_nat_pos; [lia|]. intros i. apply exp_pos. }
  split.
  - intros j. apply Rlt_le. apply Rdiv_lt_0_compat; [apply exp_pos|exact HS].
  - unfold rsum. rewrite rsum_nat_div. fold (rsum L (fun k => exp (s k))).
    fold S. field. lra.
Qed.

Lemma rmapM_ok {A C} (f : A -> result C) l l' :
  rmapM f l = Ok l' -> Forall2 (fun a b => f a = Ok b) l l'.
Proof.
  revert l'. induction l as [|a l IH]; simpl; intros l'.
  - intros [= <-]. constructor.
  - unfold rbind. destruct (f a) as [b|] eqn:Ea; [|discriminate].
    destruct (rmapM f l) as [bs|]; [|discriminate].
    intros [= <-]. constructor; [assumption|]. now apply IH.
Qed.

Lemma reshape_infer_shape known t r :
  reshape_infer known t = Ok r ->
  shape r = known ++ [numel (shape t) / numel known].
Proof.
  unfold reshape_infer. destruct (existsb _ known); [discriminate|].
  destruct (numel known =? 0); [discriminate|].
  destruct (_ mod _ =? 0); [|discriminate]. now intros [= <-].
Qed.

(** The shape of one of [q], [k], [v]. *)
Lemma head_shape b n h t r :
  rbind (reshape_infer [b; n; h] t) transpose12 = Ok r ->
  exists d, shape r = [b; h; n; d].
Proof.
  unfold rbind. destruct (reshape_infer [b; n; h] t) as [u|] eqn:Eu;
    [|discriminate].
  apply reshape_infer_shape in Eu. unfold transpose12. rewrite Eu. simpl.
  intros [= <-]. simpl. eauto.
Qed.

Lemma qkv_shapes th m x q k v :
  Attention.qkv th m x = Ok (q, k, v) ->
  exists b n d dq dk,
    shape x = [b; n; d]
    /\ shape q = [b; Attention.heads m; n; dq]
    /\ shape k = [b; Attention.heads m; n; dk].
Proof.
  unfold Attention.qkv.
  destruct (shape x) as [|b [|n [|d [|? ?]]]]; try discriminate.
  unfold rbind.
  destruct (F_linear th (Attention.to_qkv m) x) as [y|]; [|discriminate].
  destruct (chunk3 y) as [cs|]; [|discriminate].
  destruct (rmapM _ cs) as [hs|] eqn:Ehs; [|discriminate].
  destruct hs as [|q' [|k' [|v' [|? ?]]]]; try discriminate.
  intros [= <- <- <-]. apply rmapM_ok in Ehs.
  inversion Ehs as [|t1 ? l1 ? Hq H1]; subst.
  inversion H1 as [|t2 ? l2 ? Hk H2]; subst.
  apply head_shape in Hq as [dq Hq]. apply head_shape in Hk as [dk Hk].
  exists b, n, d, dq, dk. auto.
Qed.

Lemma probabilities_rows m q k attn b h n dq dk :
  shape q = [b; h; n; dq] -> shape k = [b; h; n; dk] ->
  Attention.probabilities m q k = Ok attn ->
  shape attn = [b; h; n; n]
  /\ forall ib ih i,
       0 <= i < n ->
       (forall j, 0 <= at_ attn [ib; ih; i; j])%R
       /\ rsum n (fun j => at_ attn [ib; ih; i; j]) = 1%R.
Proof.
  intros Hq Hk. unfold Attention.probabilities, einsum_qk, rbind.
  rewrite Hq, Hk.
  destruct ((b =? b) && (h =? h) && (dq =? dk)); [|discriminate].
  destruct (Attention.scale m) as [c|]; [|discriminate].
  unfold softmax_last. simpl. intros [= <-]. simpl.
  split; [reflexivity|]. intros ib ih i Hi.
  apply (softmax_row n
           (fun j => (rsum dq (fun x => at_ q [ib; ih; i; x]
                                        * at_ k [ib; ih; j; x]) * c)%R)).
  lia.
Qed.

Lemma attend_uses_attn th m x out :
  Attention.attend th m x = Ok out ->
  exists attn, Attention.attn_of th m x = Ok attn.
Proof.
  unfold Attention.attend, Attention.attn_of, rbind.
  destruct (shape x) as [|b [|n [|d [|? ?]]]]; try discriminate.
  destruct (Attention.qkv th m x) as [[qk v]|]; [|discriminate].
  destruct (Attention.probabilities m (fst qk) (snd qk)) as [attn|];
    [|discriminate].
  intros _. now exists attn.
Qed.

(** C5: in self-attention the row of [attn] of every batch, head and query
    is a probability distribution over the keys: its entries are
    non-negative and sum to 1 (in exact arithmetic); and a forward pass of
    the attention module that returns has computed this [attn]. *)
Theorem attention_rows_are_distributions (th : store) (m : Attention.t)
  (x : tensor) :
  (forall attn,
      Attention.attn_of th m x = Ok attn ->
      exists b n d,
        shape x = [b; n; d]
        /\ shape attn = [b; Attention.heads m; n; n]
        /\ forall ib ih i,
             0 <= i < n ->
             (forall j, 0 <= at_ attn [ib; ih; i; j])%R
             /\ rsum n (fun j => at_ attn [ib; ih; i; j]) = 1%R)
  /\ (forall out,
        Attention.attend th m x = Ok out ->
        exists attn, Attention.attn_of th m x = Ok attn).
Proof.
  split; [|apply attend_uses_attn].
  intros attn. unfold Attention.attn_of, rbind.
  destruct (Attention.qkv th m x) as [[[q k] v]|] eqn:Eqkv; [|discriminate].
  simpl. intros Hp.
  apply qkv_shapes in Eqkv as (b & n & d & dq & dk & Hx & Hq & Hk).
  exists b, n, d. split; [exact Hx|].
  exact (probabilities_rows m q k attn b _ n dq dk Hq Hk Hp).
Qed.

Lemma attention_rows_are_distributions_witness :
  match Attention.attn_of (zero_store (vit_shapes tiny_config))
          tiny_attention (zeros [1; 5; 2]) with
  | Ok attn =>
      exists b n d,
        shape (zeros [1; 5; 2]) = [b; n; d]
        /\ shape attn = [b; Attention.heads tiny_attention; n; n]
        /\ forall ib ih i,
             0 <= i < n ->
             (forall j, 0 <= at_ attn [ib; ih; i; j])%R
             /\ rsum n (fun j => at_ attn [ib; ih; i; j]) = 1%R
  | Raise _ => False
  end.
Proof.
  destruct (Attention.attn_of (zero_store (vit_shapes tiny_config))
              tiny_attention (zeros [1; 5; 2])) as [attn|e] eqn:E.
  - exact (proj1 (attention_rows_are_distributions _ _ _) _ E).
  - assert (Hok : is_ok (Attention.attn_of
                           (zero_store (vit_shapes tiny_config))
                           tiny_attention (zeros [1; 5; 2])) = true)
      by (vm_compute; reflexivity).
    rewrite E in Hok. discriminate.
Defined.

(** ** Determinism without dropout *)

Lemma blind_output {B : backend} {A} (f : Fwd B A) g1 g2 :
  rng_blind f -> output (f g1) = output (f g2).
Proof.
  intros [[e He]|[a Ha]].
  - now rewrite !He.
  - destruct (Ha g1) as [g1' ->], (Ha g2) as [g2' ->]. reflexivity.
Qed.

Lemma blind_lift {B : backend} {A} (c : result A) :
  rng_blind (slift (S := gen B) c).
Proof.
  destruct c as [a|e]; [right; exists a | left; exists e];
    intros g; simpl; eauto.
Qed.

Lemma blind_ret {B : backend} {A} (a : A) : rng_blind (sret (S := gen B) a).
Proof. right. exists a. intros g. now exists g. Qed.

Lemma blind_bind {B : backend} {A C} (c : Fwd B A) (k : A -> Fwd B C) :
  rng_blind c -> (forall a, rng_blind (k a)) -> rng_blind (sbind c k).
Proof.
  intros [[e He]|[a Ha]] Hk.
  - left. exists e. intros g. unfold sbind. now rewrite He.
  - destruct (Hk a) as [[e He]|[b Hb]].
    + left. exists e. intros g. unfold sbind.
      destruct (Ha g) as [g' ->]. apply He.
    + right. exists b. intros g. unfold sbind.
      destruct (Ha g) as [g' ->]. apply Hb.
Qed.

(** With probability 0 a dropout layer returns its input. *)
Lemma blind_dropout (B : backend) training d x :
  samples_nonneg B -> (drop_p d == 0)%Q ->
  rng_blind (F_dropout B training d x).
Proof.
  intros Hu Hp. right. exists x. intros g. unfold F_dropout.
  destruct training; [|now exists g].
  pose proof (Hu g (shape x)) as Hg.
  destruct (uniform B g (shape x)) as [u g']. exists g'. simpl in Hg.
  do 2 f_equal. destruct x as [s v]. simpl. f_equal.
  extensionality idx.
  assert (H0 : Q2R (drop_p d) = 0%R).
  { rewrite (Qeq_eqR _ _ Hp). unfold Q2R. simpl. lra. }
  rewrite H0. destruct (Rle_dec 0 (u idx)) as [_|Hn].
  - field.
  - destruct Hn. apply Hg.
Qed.

Ltac blind :=
  repeat first
    [ apply blind_lift | apply blind_ret
    | apply blind_bind; [|intros ?] ].

Lemma blind_block (B : backend) th training heads sc p n x :
  samples_nonneg B -> (p == 0)%Q ->
  rng_blind (Transformer.forward_block B th training
               (block_at heads sc p n) x).
Proof.
  intros Hu Hp.
  unfold Transformer.forward_block, block_at, PreNorm.forward,
    Attention.forward, FeedForward.forward. simpl.
  blind; try (apply blind_dropout; assumption); blind;
    try (apply blind_dropout; assumption); blind.
Qed.

Lemma blind_layers (B : backend) th training heads sc p count n x :
  samples_nonneg B -> (p == 0)%Q ->
  rng_blind (Transformer.forward_layers B th training
               (blocks_at heads sc p n count) x).
Proof.
  intros Hu Hp. revert n x. induction count as [|k IH]; intros n x; simpl.
  - apply blind_ret.
  - apply blind_bind; [now apply blind_block | intros y; apply IH].
Qed.

Lemma blind_forward (B : backend) c n th training img :
  samples_nonneg B ->
  (ViT.dropout c == 0)%Q -> (ViT.emb_dropout c == 0)%Q ->
  rng_blind (ViT.forward B th training (vit_at c n) img).
Proof.
  intros Hu Hp He. unfold ViT.forward, Transformer.forward. simpl.
  apply blind_bind; [apply blind_lift | intros b].
  apply blind_bind; [apply blind_lift | intros x0].
  apply blind_bind; [apply blind_lift | intros x1].
  apply blind_bind; [now apply blind_dropout | intros x2].
  apply blind_bind; [now apply blind_layers | intros x3].
  blind.
Qed.

(** C9: in a model constructed with both dropout probabilities equal to 0,
    and with fixed parameters, two forward passes on the same input return
    the same output (or raise the same error), whatever the states of the
    random generator, in training and in evaluation mode. *)
Theorem forward_deterministic (B : backend) (c : ViT.config) (h0 h' : heap)
  (m : ViT.t) (th : store) (training : bool) (img : tensor)
  (g1 g2 : gen B) :
  ViT.init c h0 = Ok (m, h') ->
  (ViT.dropout c == 0)%Q -> (ViT.emb_dropout c == 0)%Q ->
  samples_nonneg B ->
  output (ViT.forward B th training m img g1)
  = output (ViT.forward B th training m img g2).
Proof.
  intros Hinit Hp He Hu. apply init_inv in Hinit as (-> & _).
  apply blind_output. now apply blind_forward.
Qed.

Lemma forward_deterministic_witness :
  output (ViT.forward counting_backend
            (zero_store (vit_shapes tiny_config))
            true (vit_at tiny_config 0) (zeros [1; 1; 4; 4]) 0%nat)
  = output (ViT.forward counting_backend
              (zero_store (vit_shapes tiny_config))
              true (vit_at tiny_config 0) (zeros [1; 1; 4; 4]) 5%nat).
Proof.
  apply (forward_deterministic counting_backend tiny_config []
           (vit_shapes tiny_config)).
  - reflexivity.
  - reflexivity.
  - reflexivity.
  - intros g s idx. apply Rlt_le, Rinv_0_lt_compat, lt_0_INR. lia.
Defined.

(** ** The loss scale *)

Lemma train_step_inv (B : backend) (E : collaborators B) st data st' out :
  train_step B E st data = Ok (st', out) ->
  exists g, st' = scaled_update B E st data g.
Proof.
  unfold train_step, rbind.
  destruct (call_model B E true (ts_model st) (fst data) (ts_rng st))
    as [[o g]|]; [|discriminate].
  intros [= <- _]. now exists g.
Qed.

Lemma scaled_update_overflow (B : backend) (E : collaborators B) st data g :
  overflows B E st data = true ->
  let st' := scaled_update B E st data g in
  ts_model st' = ts_model st /\ ts_optimizer st' = ts_optimizer st
  /\ GradScaler.scale (ts_scaler st')
     = Qred (GradScaler.scale (ts_scaler st) * GradScaler.backoff_factor)
  /\ GradScaler.growth_tracker (ts_scaler st') = 0.
Proof.
  unfold overflows, scaled_update, GradScaler.step. intros ->.
  simpl. auto.
Qed.

Lemma scaled_update_success (B : backend) (E : collaborators B) st data g :
  overflows B E st data = false ->
  let s := ts_scaler st in
  ts_scaler (scaled_update B E st data g)
  = if GradScaler.growth_tracker s + 1 =? GradScaler.growth_interval
    then {| GradScaler.scale :=
              Qred (GradScaler.scale s * GradScaler.growth_factor);
            GradScaler.growth_tracker := 0;
            GradScaler.found_inf := false |}
    else {| GradScaler.scale := GradScaler.scale s;
            GradScaler.growth_tracker := GradScaler.growth_tracker s + 1;
            GradScaler.found_inf := false |}.
Proof.
  unfold overflows, scaled_update, GradScaler.step. intros ->.
  destruct (optim_step E _ _ _) as [o m]. reflexivity.
Qed.

Lemma succ_mod k :
  0 <= k ->
  (k + 1) mod 2000
  = if k mod 2000 + 1 =? 2000 then 0 else k mod 2000 + 1.
Proof.
  intros Hk. pose proof (Z.mod_pos_bound k 2000 ltac:(lia)) as Hr.
  rewrite (Z.div_mod k 2000) at 1 by lia.
  replace (2000 * (k / 2000) + k mod 2000 + 1)
    with (k mod 2000 + 1 + (k / 2000) * 2000) by lia.
  rewrite Z.mod_add by lia.
  destruct (Z.eqb_spec (k mod 2000 + 1) 2000) as [->|Hne].
  - reflexivity.
  - apply Z.mod_small. lia.
Qed.

(** Along a run that starts with a fresh scaler, the counter is the
    current streak modulo the threshold, and the scale is positive. *)
Lemma run_invariant (B : backend) (E : collaborators B) st0 fl st :
  ts_scaler st0 = GradScaler.new ->
  run B E st0 fl st ->
  GradScaler.growth_tracker (ts_scaler st) = Z.of_nat (streak fl) mod 2000
  /\ (0 < GradScaler.scale (ts_scaler st))%Q.
Proof.
  intros H0 Hrun. induction Hrun as [st|st fl st1 data st2 out Hrun IH Hstep].
  - rewrite H0. split; reflexivity.
  - destruct (IH H0) as [Htr Hsc].
    apply train_step_inv in Hstep as [g ->].
    destruct (overflows B E st1 data) eqn:Eov.
    + destruct (scaled_update_overflow B E st1 data g Eov)
        as (_ & _ & Hs & Ht).
      rewrite Hs, Ht. split; [reflexivity|].
      rewrite Qred_correct. unfold GradScaler.backoff_factor.
      apply Qmult_lt_0_compat; [assumption|reflexivity].
    + rewrite (scaled_update_success B E st1 data g Eov).
      cbn [streak]. rewrite Nat2Z.inj_succ, <- Z.add_1_r.
      rewrite succ_mod by lia. rewrite <- Htr.
      unfold GradScaler.growth_interval.
      destruct (GradScaler.growth_tracker (ts_scaler st1) + 1 =? 2000);
        simpl; (split; [reflexivity|]); [|assumption].
      rewrite Qred_correct. unfold GradScaler.growth_factor.
      apply Qmult_lt_0_compat; [assumption|reflexivity].
Qed.

(** C1: along the training loop started with a fresh scaler, a step whose
    gradients are not all finite leaves the parameters (and the optimizer)
    unchanged, halves the scale and resets the counter; and the scale
    increases at a step only if the step does not overflow and completes a
    streak of consecutive steps without overflow that is a positive
    multiple of the threshold 2000, the counter being 1999 before the step
    and 0 after it, and the scale doubled. *)
Theorem loss_scale_discipline (B : backend) (E : collaborators B)
  (st0 st st' : train_state B E) (fl : list bool) (data : batch)
  (out : tensor) :
  ts_scaler st0 = GradScaler.new ->
  run B E st0 fl st ->
  train_step B E st data = Ok (st', out) ->
  let s := ts_scaler st in
  let s' := ts_scaler st' in
  let ov := overflows B E st data in
  (ov = true ->
   ts_model st' = ts_model st /\ ts_optimizer st' = ts_optimizer st
   /\ (GradScaler.scale s' == GradScaler.scale s * (1 # 2))%Q
   /\ GradScaler.growth_tracker s' = 0)
  /\ ((GradScaler.scale s < GradScaler.scale s')%Q ->
      ov = false
      /\ GradScaler.growth_tracker s + 1 = GradScaler.growth_interval
      /\ (2000 <= streak (ov :: fl))%nat
      /\ Z.of_nat (streak (ov :: fl)) mod 2000 = 0
      /\ GradScaler.growth_tracker s' = 0
      /\ (GradScaler.scale s' == GradScaler.scale s * 2)%Q).
Proof.
  intros H0 Hrun Hstep. cbv zeta.
  destruct (run_invariant B E st0 fl st H0 Hrun) as [Htr Hsc].
  pose proof (run_invariant B E st0 _ st' H0
                (run_step B E st0 fl st data st' out Hrun Hstep))
    as [Htr' _].
  apply train_step_inv in Hstep as [g ->].
  destruct (overflows B E st data) eqn:Eov.
  - destruct (scaled_update_overflow B E st data g Eov)
      as (Hm & Ho & Hs & Ht).
    split.
    + intros _. repeat split; try assumption.
      rewrite Hs. apply Qred_correct.
    + rewrite Hs, Qred_correct. unfold GradScaler.backoff_factor.
      intros Hlt. exfalso. lra.
  - split; [discriminate|].
    rewrite (scaled_update_success B E st data g Eov) in *.
    unfold GradScaler.growth_interval in *.
    destruct (GradScaler.growth_tracker (ts_scaler st) + 1 =? 2000)
      eqn:Egrow.
    + intros _. apply Z.eqb_eq in Egrow. simpl in Htr'.
      repeat split; try assumption; try reflexivity.
      * cbn [streak] in *.
        assert (0 < Z.of_nat (S (streak fl))) by lia.
        symmetry in Htr'.
        apply Z.mod_divide in Htr'; [|lia].
        apply Z.divide_pos_le in Htr'; lia.
      * now symmetry.
      * simpl. apply Qred_correct.
    + simpl. intros Hlt. exfalso. lra.
Qed.

Lemma loss_scale_discipline_witness :
  let st' := scaled_update still_backend
               (example_collaborators still_backend) example_state
               (zeros [1], [0]) tt in
  ts_model st' = ts_model example_state
  /\ (GradScaler.scale (ts_scaler st') == 65536 * (1 # 2))%Q
  /\ GradScaler.growth_tracker (ts_scaler st') = 0.
Proof.
  intros st'.
  destruct (loss_scale_discipline still_backend
              (example_collaborators still_backend)
              example_state example_state st' [] (zeros [1], [0])
              (zeros [1]) eq_refl
              (run_start still_backend _ example_state) eq_refl)
    as [Hov _].
  destruct (Hov eq_refl) as (Hm & _ & Hs & Ht).
  split; [exact Hm|]. split; [exact Hs|exact Ht].
Defined.

(** ** The first training loop *)

Section ScriptProofs.
Context (B : backend) (E : collaborators B).

Lemma bind_ok {A C} (c : Script B E A) (k : A -> Script B E C) w a w' :
  c w = (Ok a, w') -> bind B E c k w = k a w'.
Proof. unfold bind. now intros ->. Qed.

Lemma bind_raise {A C} (c : Script B E A) (k : A -> Script B E C) w e w' :
  c w = (Raise e, w') -> bind B E c k w = (Raise e, w').
Proof. unfold bind. now intros ->. Qed.

Lemma load_global_ok (w : world B E) n o :
  globals w !! n = Some o -> load_global B E n w = (Ok o, w).
Proof. unfold load_global. now intros ->. Qed.

Lemma use_names_ok (w : world B E) names :
  Forall (fun n => is_Some (globals w !! n)) names ->
  use_names B E names w = (Ok tt, w).
Proof.
  induction 1 as [|n names [o Hn] _ IH]; [reflexivity|].
  cbn [use_names]. now rewrite (bind_ok _ _ _ _ _ (load_global_ok _ _ _ Hn)).
Qed.

Lemma get_model_ok (w : world B E) n a :
  globals w !! n = Some (OModel a) -> get_model B E n w = (Ok a, w).
Proof.
  intros H. unfold get_model.
  now rewrite (bind_ok _ _ _ _ _ (load_global_ok _ _ _ H)).
Qed.

Lemma get_int_ok (w : world B E) n z :
  globals w !! n = Some (OInt z) -> get_int B E n w = (Ok z, w).
Proof.
  intros H. unfold get_int.
  now rewrite (bind_ok _ _ _ _ _ (load_global_ok _ _ _ H)).
Qed.

Lemma get_func_ok (w : world B E) n f :
  globals w !! n = Some (OFunc f) -> get_func B E n w = (Ok f, w).
Proof.
  intros H. unfold get_func.
  now rewrite (bind_ok _ _ _ _ _ (load_global_ok _ _ _ H)).
Qed.

Lemma get_loader_ok (w : world B E) n bs :
  globals w !! n = Some (OLoader bs) -> get_loader B E n w = (Ok bs, w).
Proof.
  intros H. unfold get_loader.
  now rewrite (bind_ok _ _ _ _ _ (load_global_ok _ _ _ H)).
Qed.

Lemma read_model_ok (w : world B E) a c :
  models w !! a = Some c -> read_model B E a w = (Ok c, w).
Proof. unfold read_model. now intros ->. Qed.

Lemma set_training_ok (w : world B E) n a m mode mode' :
  globals w !! n = Some (OModel a) -> models w !! a = Some (m, mode) ->
  set_training B E n mode' w
  = (Ok tt, {| globals := globals w; models := <[a := (m, mode')]> (models w);
               rng := rng w; disk := disk w; events := events w |}).
Proof.
  intros Hn Ha. unfold set_training.
  rewrite (bind_ok _ _ _ _ _ (get_model_ok _ _ _ Hn)).
  now rewrite (bind_ok _ _ _ _ _ (read_model_ok _ _ _ Ha)).
Qed.

Ltac bound :=
  cbn [globals models rng disk events fold_left];
  rewrite ?lookup_insert_ne by done;
  first [ eassumption | apply lookup_insert_eq ].

Ltac names_bound :=
  repeat (apply Forall_cons; split; [eexists; bound|]); apply Forall_nil_2.

Lemma train_batch_unbound (w : world B E) data acc a m mode out g1 oD oO oA oC :
  globals w !! "scaler"%string = None ->
  globals w !! "DEVICE"%string = Some oD ->
  globals w !! "optimizer"%string = Some oO ->
  globals w !! "autocast"%string = Some oA ->
  globals w !! "criterion"%string = Some oC ->
  globals w !! "model"%string = Some (OModel a) ->
  models w !! a = Some (m, mode) ->
  call_model B E mode m (fst data) (rng w) = Ok (out, g1) ->
  train_batch B E data acc w
  = (Raise (NameError "scaler"),
     {| globals := globals w; models := models w; rng := g1;
        disk := disk w; events := events w ++ [EvForward] |}).
Proof.
  intros Hs HD HO HA HC HM Hcell Hcall. unfold train_batch.
  rewrite (bind_ok _ _ _ tt w) by (apply use_names_ok; names_bound).
  rewrite (bind_ok _ _ _ (rng w) w) by reflexivity.
  erewrite bind_ok.
  2:{ unfold call_global_model.
      rewrite (bind_ok _ _ _ _ _ (get_model_ok _ _ _ HM)).
      rewrite (bind_ok _ _ _ _ _ (read_model_ok _ _ _ Hcell)).
      cbn [fst snd]. rewrite Hcall. reflexivity. }
  erewrite bind_ok by (apply use_names_ok; names_bound).
  apply bind_raise.
  unfold scaler_lines, get_scaler.
  apply bind_raise, bind_raise. unfold load_global. cbn [globals].
  now rewrite Hs.
Qed.

Lemma epochs_loop_unbound (w : world B E) n a m mode b bs out g1
      oT oD oO oA oC :
  globals w !! "scaler"%string = None ->
  globals w !! "EPOCHS"%string = Some (OInt n) -> 0 < n ->
  globals w !! "train_one_epoch"%string = Some (OFunc FTrainOneEpoch) ->
  globals w !! "tqdm"%string = Some oT ->
  globals w !! "trainloader"%string = Some (OLoader (b :: bs)) ->
  globals w !! "DEVICE"%string = Some oD ->
  globals w !! "optimizer"%string = Some oO ->
  globals w !! "autocast"%string = Some oA ->
  globals w !! "criterion"%string = Some oC ->
  globals w !! "model"%string = Some (OModel a) ->
  models w !! a = Some (m, mode) ->
  call_model B E true m (fst b) (rng w) = Ok (out, g1) ->
  epochs_loop B E w
  = (Raise (NameError "scaler"),
     {| globals := <["epoch"%string := OInt 0]> (globals w);
        models := <[a := (m, true)]> (models w); rng := g1;
        disk := disk w; events := events w ++ [EvForward] |}).
Proof.
  intros Hs HE Hn HF HT HL HD HO HA HC HM Hcell Hcall.
  unfold epochs_loop.
  rewrite (bind_ok _ _ _ _ _ (get_int_ok _ _ _ HE)).
  destruct (Z.to_nat n) as [|k] eqn:Ek; [lia|].
  cbn [epochs_from]. apply bind_raise. unfold epoch_body.
  erewrite bind_ok by reflexivity.
  erewrite bind_ok by (apply get_func_ok; bound).
  erewrite bind_ok by (apply use_names_ok; names_bound).
  apply bind_raise. cbn [call_func]. unfold train_one_epoch.
  erewrite bind_ok by (eapply set_training_ok; bound).
  erewrite bind_ok by (apply use_names_ok; names_bound).
  erewrite bind_ok by (apply get_loader_ok; bound).
  erewrite bind_ok by (apply use_names_ok; names_bound).
  apply bind_raise. cbn [train_batches]. apply bind_raise.
  erewrite train_batch_unbound; try bound;
    cbn [globals models rng disk events];
    first [ reflexivity | exact Hcall
          | apply list_lookup_insert_eq; eapply lookup_lt_Some, Hcell ].
Qed.

Lemma prepare_returns g : fst (prepare B E (initial_world B E g)) = Ok tt.
Proof. vm_compute. reflexivity. Qed.

Lemma prepare_ok g :
  prepare B E (initial_world B E g) = (Ok tt, prepared B E g).
Proof.
  unfold prepared. pose proof (prepare_returns g) as H.
  destruct (prepare B E (initial_world B E g)) as [r w].
  simpl in *. now subst.
Qed.

Lemma bind_names_ok (w : world B E) names o :
  bind_names B E names o w
  = (Ok tt,
     {| globals := fold_left (fun g n => <[n := o]> g) names (globals w);
        models := models w; rng := rng w; disk := disk w;
        events := events w |}).
Proof.
  revert w. induction names as [|n names IH]; intros w; cbn [bind_names].
  - now destruct w.
  - erewrite bind_ok by reflexivity. now rewrite IH.
Qed.

(** One statement of a script that returns. *)
Ltac statement :=
  lazymatch goal with
  | |- use_names _ _ _ _ = _ => apply use_names_ok; names_bound
  | |- bind_names _ _ _ _ _ = _ => apply bind_names_ok
  | |- get_model _ _ _ _ = _ => apply get_model_ok; bound
  | |- get_int _ _ _ _ = _ => apply get_int_ok; bound
  | |- get_func _ _ _ _ = _ => apply get_func_ok; bound
  | |- get_loader _ _ _ _ = _ => apply get_loader_ok; bound
  | |- read_model _ _ _ _ = _ =>
      apply read_model_ok; cbn [models]; eassumption
  | |- store_global _ _ _ _ _ = _ => reflexivity
  | |- new_model _ _ _ _ = _ => reflexivity
  | |- write_model _ _ _ _ _ = _ => reflexivity
  end.

Ltac statements :=
  repeat (erewrite bind_ok by statement;
          cbn [globals models rng disk events fold_left]).

(** Lines 245-265 bind [scaler], whatever the state they start from. *)
Lemma setup_fine_tuning_binds_scaler (w : world B E) :
  exists w', setup_fine_tuning B E w = (Ok tt, w')
             /\ globals w' !! "scaler"%string = Some (OScaler GradScaler.new).
Proof.
  unfold setup_fine_tuning, imports.
  statements.
  eexists. split; [reflexivity|]. apply lookup_insert_eq.
Qed.
(** C3: run from the top, the script raises [NameError] for [scaler] in
    the first step of the first training loop (the loader not being empty
    and the forward pass on its first batch returning): one forward pass
    has run, and no loss scaling, no parameter update and no metric
    accumulation; the model is as constructed, [scaler] is still unbound,
    no epoch result was stored; the lines that bind [scaler] come after
    the loop, in the fine-tuning part. *)
Theorem first_training_step_fails (g : gen B) (b : batch) (bs : list batch) :
  cifar_loader E true 32 128 = b :: bs ->
  is_ok (call_model B E true (scratch_model B E) (fst b) g) = true ->
  let r := script B E (initial_world B E g) in
  fst r = Raise (NameError "scaler")
  /\ events (snd r) = [EvForward]
  /\ models (snd r) = [(scratch_model B E, true)]
  /\ globals (snd r) !! "scaler"%string = None
  /\ globals (snd r) !! "train_loss"%string = None
  /\ (forall w : world B E,
        exists w', setup_fine_tuning B E w = (Ok tt, w')
                   /\ globals w' !! "scaler"%string
                      = Some (OScaler GradScaler.new)).
Proof.
  intros Hl Hcall r.
  destruct (call_model B E true (scratch_model B E) (fst b) g)
    as [[out g1]|] eqn:Ecall; [|discriminate].
  assert (Hm : models (prepared B E g) = [(scratch_model B E, true)])
    by (vm_compute; reflexivity).
  assert (Hev : events (prepared B E g) = []) by (vm_compute; reflexivity).
  assert (Hg : rng (prepared B E g) = g) by (vm_compute; reflexivity).
  assert (Hs : globals (prepared B E g) !! "scaler"%string = None)
    by (vm_compute; reflexivity).
  assert (Ht : globals (prepared B E g) !! "train_loss"%string = None)
    by (vm_compute; reflexivity).
  assert (Hr : r = (Raise (NameError "scaler"),
                    {| globals := <["epoch"%string := OInt 0]>
                                    (globals (prepared B E g));
                       models := <[0%nat := (scratch_model B E, true)]>
                                   (models (prepared B E g));
                       rng := g1; disk := disk (prepared B E g);
                       events := events (prepared B E g) ++ [EvForward] |})).
  { unfold r, script, from_scratch. apply bind_raise.
    rewrite (bind_ok _ _ _ _ _ (prepare_ok g)).
    apply (epochs_loop_unbound (prepared B E g) 10 0 (scratch_model B E)
             true b bs out g1 OLib (OStr "cuda")
             (OOptimizer 0 (optim_new E (scratch_model B E))) OLib OLib);
      lazymatch goal with
      | |- globals _ !! "trainloader"%string = _ =>
          rewrite <- Hl; vm_compute; reflexivity
      | |- globals _ !! _ = _ => vm_compute; reflexivity
      | |- models _ !! _ = _ => rewrite Hm; reflexivity
      | |- call_model _ _ _ _ _ _ = _ => rewrite Hg; exact Ecall
      | |- _ < _ => lia
      end. }
  rewrite Hr. cbn [fst snd globals models events].
  rewrite Hm, Hev.
  split; [reflexivity|]. split; [reflexivity|]. split; [reflexivity|].
  split; [rewrite lookup_insert_ne by done; exact Hs|].
  split; [rewrite lookup_insert_ne by done; exact Ht|].
  apply setup_fine_tuning_binds_scaler.
Qed.

Lemma load_named_same_layout (p0 p : gmap string tensor) :
  dom p = dom p0 ->
  map_Forall (fun k t => shape <$> (p !! k) = Some (shape t)) p0 ->
  load_named p0 p = Ok p.
Proof.
  intros Hdom Hsh. unfold load_named.
  destruct (decide (dom p = dom p0)) as [_|Hn]; [|contradiction].
  destruct (decide (map_Forall _ p0)) as [_|Hn]; [|contradiction].
  f_equal. apply map_eq. intros i. rewrite map_lookup_zip_with.
  destruct (p0 !! i) as [t0|] eqn:E0; simpl.
  - specialize (Hsh i t0 E0). simpl in Hsh.
    destruct (p !! i) as [t|] eqn:Ei; [|discriminate]. simpl in *.
    injection Hsh as Hsh. rewrite <- Hsh. now destruct t.
  - symmetry. apply not_elem_of_dom. rewrite Hdom.
    now apply not_elem_of_dom.
Qed.


(** C8: lines 363-369, run in a state where [model] is the fine-tuned
    model, whose parameters have the names and shapes of a freshly
    constructed one: the file holds the mapping from parameter names to
    tensors of the model and nothing else (whatever the optimizer and the
    scaler are bound to); loading it into the fresh model, which becomes
    the model in evaluation mode, gives the same mapping, hence the same
    output of the forward pass on every input. *)
Theorem checkpoint_round_trip (w : world B E) (a : nat)
  (p p0 : gmap string tensor) (mode : bool) (n : Z) (oT oTi oD : obj B E) :
  globals w !! "torch"%string = Some oT ->
  globals w !! "timm"%string = Some oTi ->
  globals w !! "DEVICE"%string = Some oD ->
  globals w !! "NUM_CLASSES"%string = Some (OInt n) ->
  globals w !! "model"%string = Some (OModel a) ->
  models w !! a = Some (TimmModel p, mode) ->
  set_head (head_init E) (timm_embed_dim E) n (timm_pretrained E) = Ok p0 ->
  dom p = dom p0 ->
  map_Forall (fun k t => shape <$> (p !! k) = Some (shape t)) p0 ->
  exists w' m',
    save_and_reload B E w = (Ok tt, w')
    /\ disk w' !! checkpoint_path = Some p
    /\ globals w' !! "model"%string = Some (OModel (length (models w)))
    /\ models w' !! length (models w) = Some (m', false)
    /\ state_dict m' = p
    /\ forall training x g,
         call_model B E training m' x g
         = call_model B E training (TimmModel p) x g.
Proof.
  intros HT HTi HD HN HM Hcell Hhead Hdom Hsh.
  unfold save_and_reload. statements.
  erewrite bind_ok by (cbv beta; reflexivity).
  cbn [globals models rng disk events fst snd]. statements.
  erewrite bind_ok
    by (apply read_model_ok; cbn [models]; now apply list_lookup_middle).
  cbn [fst snd]. rewrite Hhead. statements.
  erewrite bind_ok
    by (cbv beta; cbn [disk]; unfold torch_load, torch_save;
        rewrite lookup_insert_eq; reflexivity).
  cbn [globals models rng disk events].
  erewrite bind_ok
    by (apply read_model_ok; cbn [models]; apply list_lookup_insert_eq;
        rewrite length_app; simpl; lia).
  cbn [fst snd load_state_dict state_dict]. unfold rbind.
  rewrite (load_named_same_layout p0 p Hdom Hsh). statements.
  erewrite set_training_ok;
    [ | bound
      | cbn [models]; apply list_lookup_insert_eq;
        rewrite length_insert, length_app; simpl; lia ].
  cbn [globals models rng disk events].
  eexists. exists (TimmModel p). split; [reflexivity|].
  cbn [globals models rng disk events].
  split; [apply lookup_insert_eq|]. split; [apply lookup_insert_eq|].
  split.
  { apply list_lookup_insert_eq.
    rewrite !length_insert, length_app. simpl. lia. }
  split; reflexivity.
Qed.

End ScriptProofs.

Lemma first_training_step_fails_witness :
  fst (script still_backend (example_collaborators still_backend)
         (initial_world still_backend (example_collaborators still_backend)
            tt))
  = Raise (NameError "scaler").
Proof.
  refine (proj1 (first_training_step_fails still_backend
                   (example_collaborators still_backend) tt
                   (zeros [1; 3; 32; 32], [0]) [] eq_refl _)).
  vm_compute. reflexivity.
Defined.

Lemma checkpoint_round_trip_witness :
  exists w' m',
    save_and_reload still_backend (example_collaborators still_backend)
      example_world = (Ok tt, w')
    /\ disk w' !! checkpoint_path = Some example_trained
    /\ globals w' !! "model"%string = Some (OModel 1)
    /\ models w' !! 1%nat = Some (m', false)
    /\ state_dict m' = example_trained
    /\ forall training x g,
         call_model still_backend (example_collaborators still_backend)
           training m' x g
         = call_model still_backend (example_collaborators still_backend)
             training (TimmModel example_trained) x g.
Proof.
  apply (checkpoint_round_trip still_backend
           (example_collaborators still_backend) example_world 0
           example_trained example_fresh true 10 OLib OLib (OStr "cuda")).
  - reflexivity.
  - reflexivity.
  - reflexivity.
  - reflexivity.
  - reflexivity.
  - reflexivity.
  - reflexivity.
  - apply dom_fmap_L.
  - intros k t Hk. unfold example_trained.
    rewrite lookup_fmap, Hk. reflexivity.
Defined.

(** * Further properties of the code *)

(** ** Shapes through the layers *)

Lemma lead_app_last (pre : list Z) (i : Z) : lead (pre ++ [i]) = pre.
Proof. unfold lead. apply List.removelast_last. Qed.

Lemma linear_shape th l x pre i o :
  shape (th (lin_weight l)) = [o; i] ->
  match lin_bias l with
  | Some b => shape (th b) = [o]
  | None => True
  end ->
  shape x = pre ++ [i] ->
  returns_shape (F_linear th l x) (pre ++ [o]).
Proof.
  intros Hw Hb Hx. unfold F_linear. rewrite Hw, Hx, rev_unit, Z.eqb_refl.
  rewrite lead_app_last.
  destruct (lin_bias l) as [b|].
  - rewrite Hb, shape_eqb_refl. eexists. split; reflexivity.
  - eexists. split; reflexivity.
Qed.

Lemma layer_norm_shape th ln x pre d :
  shape (th (ln_weight ln)) = [d] ->
  shape (th (ln_bias ln)) = [d] ->
  shape x = pre ++ [d] ->
  returns_shape (F_layer_norm th ln x) (pre ++ [d]).
Proof.
  intros Hw Hb Hx. unfold F_layer_norm.
  rewrite Hw, Hb, Hx, rev_unit, Z.eqb_refl, shape_eqb_refl. simpl.
  eexists. split; reflexivity.
Qed.

Lemma dropout_shape (B : backend) training d x :
  fwd_returns_shape (F_dropout B training d x) (shape x).
Proof.
  intros g. unfold F_dropout. destruct training.
  - destruct (uniform B g (shape x)) as [u g']. eexists. eexists.
    split; reflexivity.
  - exists x, g. split; reflexivity.
Qed.

Lemma broadcast_rev_same l : broadcast_rev l l = Some l.
Proof.
  induction l as [|x l IH]; [reflexivity|]. simpl.
  now rewrite IH, Z.eqb_refl.
Qed.

Lemma tadd_shape a b s :
  shape a = s -> shape b = s -> returns_shape (tadd a b) s.
Proof.
  intros Ha Hb. unfold tadd, broadcast. rewrite Ha, Hb, broadcast_rev_same.
  rewrite rev_involutive. eexists. split; reflexivity.
Qed.

Lemma fwd_bind_shape {B : backend} (c : Fwd B tensor)
  (k : tensor -> Fwd B tensor) s s' :
  fwd_returns_shape c s ->
  (forall y, shape y = s -> fwd_returns_shape (k y) s') ->
  fwd_returns_shape (sbind c k) s'.
Proof.
  intros Hc Hk g. destruct (Hc g) as (y & g1 & E & Hy).
  unfold sbind. rewrite E. now apply Hk.
Qed.

Lemma fwd_lift_shape {B : backend} (r : result tensor) s :
  returns_shape r s -> fwd_returns_shape (slift (S := gen B) r) s.
Proof.
  intros (y & -> & Hy) g. exists y, g. now split.
Qed.

(** ** Shapes through the attention module *)

Lemma chunk3_thirds y b n dim :
  0 < dim -> shape y = [b; n; dim * 3] ->
  exists t0 t1 t2,
    chunk3 y = Ok [t0; t1; t2]
    /\ shape t0 = [b; n; dim] /\ shape t1 = [b; n; dim]
    /\ shape t2 = [b; n; dim].
Proof.
  intros Hd Hy. unfold chunk3. rewrite Hy. cbn [rev app]. cbv zeta.
  assert (Hc : (dim * 3 + 2) / 3 = dim).
  { symmetry. apply (Z.div_unique _ _ _ 2); lia. }
  rewrite Hc.
  assert (Hn : (dim * 3 + dim - 1) / dim = 3).
  { symmetry. apply (Z.div_unique _ _ _ (dim - 1)); lia. }
  rewrite Hn.
  destruct (Z.eqb_spec (dim * 3) 0) as [E0|E0]; [lia|].
  change (Z.to_nat 3) with 3%nat.
  cbn [seq map Z.of_nat Pos.of_succ_nat Pos.succ].
  do 3 eexists. split; [reflexivity|]. cbn [shape rev app].
  repeat split; do 3 f_equal; lia.
Qed.

Lemma exact_division D h : 0 < h -> D mod h = 0 -> D = h * (D / h).
Proof. intros Hh Hm. rewrite (Z.div_mod D h) at 1 by lia. lia. Qed.

Lemma split_heads_shape b n h D t :
  0 < b -> 0 < n -> 0 < h -> D mod h = 0 ->
  shape t = [b; n; D] ->
  returns_shape (rbind (reshape_infer [b; n; h] t) transpose12)
    [b; h; n; D / h].
Proof.
  intros Hb Hn Hh Hm Ht. unfold reshape_infer. rewrite Ht. simpl.
  assert (Hneg : (b <? 0) || ((n <? 0) || ((h <? 0) || false)) = false).
  { rewrite !orb_false_iff, !Z.ltb_ge. lia. }
  rewrite Hneg.
  assert (Hk : b * (n * (h * 1)) <> 0) by nia.
  destruct (Z.eqb_spec (b * (n * (h * 1))) 0) as [Ek|Ek]; [lia|].
  assert (Htot : b * (n * (D * 1)) = (D / h) * (b * (n * (h * 1)))).
  { rewrite (exact_division D h Hh Hm) at 1. ring. }
  rewrite Htot, Z.mod_mul, Z.div_mul by assumption. simpl.
  eexists. split; reflexivity.
Qed.

Lemma split_heads_uneven b n h D t :
  0 < b -> 0 < n -> 0 < h -> D mod h <> 0 ->
  shape t = [b; n; D] ->
  rbind (reshape_infer [b; n; h] t) transpose12 = Raise RuntimeError.
Proof.
  intros Hb Hn Hh Hm Ht. unfold reshape_infer. rewrite Ht. simpl.
  assert (Hneg : (b <? 0) || ((n <? 0) || ((h <? 0) || false)) = false).
  { rewrite !orb_false_iff, !Z.ltb_ge. lia. }
  rewrite Hneg.
  destruct (Z.eqb_spec (b * (n * (h * 1))) 0) as [Ek|Ek]; [nia|].
  replace (b * (n * (D * 1))) with ((b * n) * D) by ring.
  replace (b * (n * (h * 1))) with ((b * n) * h) by ring.
  rewrite Z.mul_mod_distr_l by nia.
  destruct (Z.eqb_spec (b * n * (D mod h)) 0) as [E|E]; [nia|]. reflexivity.
Qed.

Lemma merge_heads_shape b n h d t :
  0 < b -> 0 < n ->
  shape t = [b; h; n; d] ->
  returns_shape (rbind (transpose12 t) (reshape_infer [b; n])) [b; n; h * d].
Proof.
  intros Hb Hn Ht. unfold transpose12. rewrite Ht. simpl.
  unfold reshape_infer. simpl.
  assert (Hneg : (b <? 0) || ((n <? 0) || false) = false).
  { rewrite !orb_false_iff, !Z.ltb_ge. lia. }
  rewrite Hneg.
  destruct (Z.eqb_spec (b * (n * 1)) 0) as [Ek|Ek]; [nia|].
  replace (b * (n * (h * (d * 1)))) with ((h * d) * (b * (n * 1))) by ring.
  rewrite Z.mod_mul, Z.div_mul by nia. simpl.
  eexists. split; reflexivity.
Qed.

(** ** The store of a constructed model *)

Lemma lookup_concat_replicate {A} (l : list A) (n k i j : nat) :
  length l = n -> (i < k)%nat -> (j < n)%nat ->
  concat (replicate k l) !! (i * n + j)%nat = l !! j.
Proof.
  intros Hl. revert i. induction k as [|k IH]; intros i Hi Hj; [lia|].
  simpl. destruct i as [|i].
  - simpl. now rewrite lookup_app_l by lia.
  - rewrite lookup_app_r by (simpl; lia).
    replace (S i * n + j - length l)%nat with (i * n + j)%nat by (simpl; lia).
    apply IH; lia.
Qed.

Lemma length_blocks dim mlp k :
  length (concat (replicate k (block_shapes dim mlp))) = (11 * k)%nat.
Proof.
  rewrite length_concat, fmap_replicate, sum_list_replicate. simpl. lia.
Qed.

Lemma vit_store_block c h th i :
  store_matches th (h ++ vit_shapes c) ->
  (i < Z.to_nat (ViT.depth c))%nat ->
  block_stored th (ViT.dim c) (ViT.mlp_dim c) (length h + 4 + 11 * i).
Proof.
  intros Hst Hi j s Hj. apply Hst.
  assert (Hlt : (j < 11)%nat) by (apply lookup_lt_Some in Hj; exact Hj).
  rewrite lookup_app_r by lia. unfold vit_shapes.
  rewrite lookup_app_r by (simpl; lia). simpl length.
  replace (length h + 4 + 11 * i + j - length h - 4)%nat
    with (i * 11 + j)%nat by lia.
  rewrite lookup_app_l by (rewrite length_blocks; lia).
  rewrite (lookup_concat_replicate _ 11) by (reflexivity || lia).
  exact Hj.
Qed.

Lemma vit_store_head c h th :
  store_matches th (h ++ vit_shapes c) ->
  let e := (length h + 4 + 11 * Z.to_nat (ViT.depth c))%nat in
  shape (th e) = [ViT.dim c]
  /\ shape (th (S e)) = [ViT.dim c]
  /\ shape (th (e + 2)%nat) = [ViT.num_classes c; ViT.dim c]
  /\ shape (th (e + 3)%nat) = [ViT.num_classes c].
Proof.
  intros Hst e.
  assert (Hk : forall k s,
             [[ViT.dim c]; [ViT.dim c]; [ViT.num_classes c; ViT.dim c];
              [ViT.num_classes c]] !! k = Some s ->
             shape (th (e + k)%nat) = s).
  { intros k s Hk. apply Hst.
    rewrite lookup_app_r by (unfold e; lia). unfold vit_shapes.
    rewrite lookup_app_r by (simpl; unfold e; lia). simpl length.
    rewrite lookup_app_r by (rewrite length_blocks; unfold e; lia).
    rewrite length_blocks.
    now replace (e + k - length h - 4
                 - 11 * Z.to_nat (ViT.depth c))%nat with k
      by (unfold e; lia). }
  repeat split.
  - replace e with (e + 0)%nat at 1 by lia. now apply Hk.
  - replace (S e) with (e + 1)%nat by lia. now apply Hk.
  - now apply Hk.
  - now apply Hk.
Qed.

Lemma block_stored_cells th dim mlp n :
  block_stored th dim mlp n ->
  shape (th n) = [dim * 3; dim]
  /\ shape (th (n + 1)%nat) = [dim; dim]
  /\ shape (th (n + 2)%nat) = [dim]
  /\ shape (th (n + 3)%nat) = [dim]
  /\ shape (th (n + 4)%nat) = [dim]
  /\ shape (th (n + 5)%nat) = [mlp; dim]
  /\ shape (th (n + 6)%nat) = [mlp]
  /\ shape (th (n + 7)%nat) = [dim; mlp]
  /\ shape (th (n + 8)%nat) = [dim]
  /\ shape (th (n + 9)%nat) = [dim]
  /\ shape (th (n + 10)%nat) = [dim].
Proof.
  intros Hb. repeat split; try (now apply Hb).
  replace n with (n + 0)%nat at 1 by lia. now apply Hb.
Qed.

(** ** Shapes through a block *)

Lemma qkv_returns th m x b N dim :
  shape (th (lin_weight (Attention.to_qkv m))) = [dim * 3; dim] ->
  lin_bias (Attention.to_qkv m) = None ->
  0 < b -> 0 < N -> 0 < Attention.heads m -> 0 < dim ->
  dim mod Attention.heads m = 0 ->
  shape x = [b; N; dim] ->
  exists q k v,
    Attention.qkv th m x = Ok (q, k, v)
    /\ shape q = [b; Attention.heads m; N; dim / Attention.heads m]
    /\ shape k = [b; Attention.heads m; N; dim / Attention.heads m]
    /\ shape v = [b; Attention.heads m; N; dim / Attention.heads m].
Proof.
  intros Hw Hbias Hb HN Hh Hd Hm Hx.
  unfold Attention.qkv. rewrite Hx.
  assert (Hnb : match lin_bias (Attention.to_qkv m) with
                | Some b' => shape (th b') = [dim * 3]
                | None => True
                end) by now rewrite Hbias.
  destruct (linear_shape th (Attention.to_qkv m) x [b; N] dim (dim * 3)
              Hw Hnb Hx) as (y & Ey & Hy).
  rewrite Ey. cbn [rbind].
  destruct (chunk3_thirds y b N dim Hd Hy)
    as (t0 & t1 & t2 & Ec & H0 & H1 & H2).
  rewrite Ec. cbn [rbind rmapM].
  destruct (split_heads_shape b N _ dim t0 Hb HN Hh Hm H0) as (q & Eq & Hq).
  destruct (split_heads_shape b N _ dim t1 Hb HN Hh Hm H1) as (k & Ek & Hk).
  destruct (split_heads_shape b N _ dim t2 Hb HN Hh Hm H2) as (v & Ev & Hv).
  unfold rbind in *. rewrite Eq, Ek, Ev.
  now exists q, k, v.
Qed.

Lemma probabilities_shape m r q k b h N d :
  Attention.scale m = PyFloat r ->
  shape q = [b; h; N; d] -> shape k = [b; h; N; d] ->
  returns_shape (Attention.probabilities m q k) [b; h; N; N].
Proof.
  intros Hsc Hq Hk. unfold Attention.probabilities, einsum_qk.
  rewrite Hq, Hk, !Z.eqb_refl, Hsc. cbn [andb rbind].
  unfold softmax_last. cbn [scale_by shape rev app].
  eexists. split; reflexivity.
Qed.

Lemma einsum_av_shape a v b h N d :
  shape a = [b; h; N; N] -> shape v = [b; h; N; d] ->
  returns_shape (einsum_av a v) [b; h; N; d].
Proof.
  intros Ha Hv. unfold einsum_av. rewrite Ha, Hv, !Z.eqb_refl.
  eexists. split; reflexivity.
Qed.

Lemma attend_shape th m r x b N dim :
  shape (th (lin_weight (Attention.to_qkv m))) = [dim * 3; dim] ->
  lin_bias (Attention.to_qkv m) = None ->
  Attention.scale m = PyFloat r ->
  0 < b -> 0 < N -> 0 < Attention.heads m -> 0 < dim ->
  dim mod Attention.heads m = 0 ->
  shape x = [b; N; dim] ->
  returns_shape (Attention.attend th m x) [b; N; dim].
Proof.
  intros Hw Hbias Hsc Hb HN Hh Hd Hm Hx.
  destruct (qkv_returns th m x b N dim Hw Hbias Hb HN Hh Hd Hm Hx)
    as (q & k & v & Eqkv & Hq & Hk & Hv).
  unfold Attention.attend. rewrite Hx, Eqkv. cbn [rbind fst snd].
  destruct (probabilities_shape m r q k _ _ _ _ Hsc Hq Hk) as (a & Ea & Ha).
  rewrite Ea. cbn [rbind].
  destruct (einsum_av_shape a v _ _ _ _ Ha Hv) as (o & Eo & Ho).
  rewrite Eo. cbn [rbind].
  destruct (merge_heads_shape b N _ _ o Hb HN Ho) as (z & Ez & Hz).
  exists z. split; [exact Ez|]. rewrite Hz.
  do 3 f_equal. symmetry. now apply exact_division.
Qed.

Lemma attention_forward_shape (B : backend) th training m r x b N dim :
  shape (th (lin_weight (Attention.to_qkv m))) = [dim * 3; dim] ->
  lin_bias (Attention.to_qkv m) = None ->
  shape (th (lin_weight (Attention.to_out m))) = [dim; dim] ->
  match lin_bias (Attention.to_out m) with
  | Some b' => shape (th b') = [dim]
  | None => True
  end ->
  Attention.scale m = PyFloat r ->
  0 < b -> 0 < N -> 0 < Attention.heads m -> 0 < dim ->
  dim mod Attention.heads m = 0 ->
  shape x = [b; N; dim] ->
  fwd_returns_shape (Attention.forward B th training m x) [b; N; dim].
Proof.
  intros Hw Hbias Hwo Hbo Hsc Hb HN Hh Hd Hm Hx. unfold Attention.forward.
  eapply fwd_bind_shape.
  { apply fwd_lift_shape. apply (attend_shape th m r x b N dim); assumption. }
  intros y Hy. eapply fwd_bind_shape.
  { apply fwd_lift_shape.
    apply (linear_shape th _ y [b; N] dim dim Hwo Hbo Hy). }
  intros z Hz. simpl in Hz. rewrite <- Hz. apply dropout_shape.
Qed.

Lemma feed_forward_shape (B : backend) th training m x pre dim mlp :
  shape (th (lin_weight (FeedForward.lin1 m))) = [mlp; dim] ->
  match lin_bias (FeedForward.lin1 m) with
  | Some b' => shape (th b') = [mlp]
  | None => True
  end ->
  shape (th (lin_weight (FeedForward.lin2 m))) = [dim; mlp] ->
  match lin_bias (FeedForward.lin2 m) with
  | Some b' => shape (th b') = [dim]
  | None => True
  end ->
  shape x = pre ++ [dim] ->
  fwd_returns_shape (FeedForward.forward B th training m x) (pre ++ [dim]).
Proof.
  intros Hw1 Hb1 Hw2 Hb2 Hx. unfold FeedForward.forward.
  eapply fwd_bind_shape.
  { apply fwd_lift_shape. apply (linear_shape th _ x pre dim mlp Hw1 Hb1 Hx). }
  intros y Hy. eapply fwd_bind_shape.
  { apply dropout_shape. }
  cbn [F_gelu shape]. intros z Hz. eapply fwd_bind_shape.
  { apply fwd_lift_shape.
    apply (linear_shape th _ z pre mlp dim Hw2 Hb2). now rewrite Hz. }
  intros u Hu. rewrite <- Hu. apply dropout_shape.
Qed.

Lemma block_shape (B : backend) th training heads r p n dim mlp x b N :
  block_stored th dim mlp n ->
  0 < b -> 0 < N -> 0 < heads -> 0 < dim -> dim mod heads = 0 ->
  shape x = [b; N; dim] ->
  fwd_returns_shape
    (Transformer.forward_block B th training
       (block_at heads (PyFloat r) p n) x)
    [b; N; dim].
Proof.
  intros Hst Hb HN Hh Hd Hm Hx.
  destruct (block_stored_cells _ _ _ _ Hst)
    as (C0 & C1 & C2 & C3 & C4 & C5 & C6 & C7 & C8 & C9 & C10).
  unfold Transformer.forward_block, block_at, PreNorm.forward.
  cbn [PreNorm.norm PreNorm.fn].
  eapply fwd_bind_shape.
  { eapply fwd_bind_shape.
    { apply fwd_lift_shape.
      apply (layer_norm_shape th _ x [b; N] dim);
        [exact C3 | exact C4 | exact Hx]. }
    intros y Hy.
    apply (attention_forward_shape B th training _ r y b N dim);
      try assumption; reflexivity. }
  intros a Ha. eapply fwd_bind_shape.
  { apply fwd_lift_shape. apply tadd_shape; [exact Ha | exact Hx]. }
  intros x1 Hx1. eapply fwd_bind_shape.
  { eapply fwd_bind_shape.
    { apply fwd_lift_shape.
      apply (layer_norm_shape th _ x1 [b; N] dim);
        [exact C9 | exact C10 | exact Hx1]. }
    intros y Hy.
    apply (feed_forward_shape B th training _ y [b; N] dim mlp);
      assumption. }
  intros f Hf. apply fwd_lift_shape. apply tadd_shape; assumption.
Qed.

(** ** Shapes through the whole model *)

Lemma layers_shape (B : backend) th training heads r p dim mlp count n x b N :
  (forall i, (i < count)%nat -> block_stored th dim mlp (n + 11 * i)) ->
  0 < b -> 0 < N -> 0 < heads -> 0 < dim -> dim mod heads = 0 ->
  shape x = [b; N; dim] ->
  fwd_returns_shape
    (Transformer.forward_layers B th training
       (blocks_at heads (PyFloat r) p n count) x)
    [b; N; dim].
Proof.
  intros Hst Hb HN Hh Hd Hm. revert n x Hst.
  induction count as [|count IH]; intros n x Hst Hx.
  - intros g. exists x, g. now split.
  - cbn [blocks_at Transformer.forward_layers]. eapply fwd_bind_shape.
    + assert (Hb0 : block_stored th dim mlp n).
      { replace n with (n + 11 * 0)%nat by lia. apply Hst. lia. }
      apply (block_shape B th training heads r p n dim mlp x b N);
        assumption.
    + intros y Hy. apply IH; [|exact Hy].
      intros i Hi. replace (n + 11 + 11 * i)%nat with (n + 11 * S i)%nat by lia.
      apply Hst. lia.
Qed.

Lemma tokens_returns c h th Bn x :
  store_matches th (h ++ vit_shapes c) ->
  0 <= Bn ->
  shape x = [Bn; num_patches c; ViT.dim c] ->
  returns_shape (ViT.tokens th (vit_at c (length h)) Bn x)
    [Bn; num_patches c + 1; ViT.dim c].
Proof.
  intros Hst HB Hx.
  destruct (vit_store c h th Hst) as (_ & _ & Hpos & Hcls).
  unfold ViT.tokens, expand_batch. cbn [vit_at ViT.cls_token ViT.pos_embedding].
  rewrite Hcls.
  assert (E0 : (0 <=? Bn) = true) by now apply Z.leb_le.
  rewrite E0, Z.eqb_refl. cbn [andb orb rbind].
  unfold cat1. cbn [shape]. rewrite Hx, shape_eqb_refl. cbn [rbind].
  unfold tiadd. cbn [shape]. rewrite Hpos. unfold broadcast.
  cbn [rev app broadcast_rev]. rewrite Z.eqb_refl.
  replace (1 + num_patches c) with (num_patches c + 1) by lia.
  rewrite Z.eqb_refl.
  destruct (Bn =? 1); rewrite ?Z.eqb_refl; cbn [rev app];
    rewrite shape_eqb_refl;
    eexists; split; reflexivity.
Qed.

Lemma select_first_shape x b N d :
  0 < N -> shape x = [b; N; d] -> returns_shape (select_first x) [b; d].
Proof.
  intros HN Hx. unfold select_first. rewrite Hx.
  assert (E : (0 <? N) = true) by now apply Z.ltb_lt.
  rewrite E. eexists. split; reflexivity.
Qed.

Lemma scale_of_float dim heads :
  0 < heads -> 0 < dim -> dim mod heads = 0 ->
  scale_of dim heads = PyFloat (Rpower (IZR (dim / heads)) (- (1 / 2))).
Proof.
  intros Hh Hd Hm. unfold scale_of.
  rewrite init_scale_float; [reflexivity | assumption |].
  now apply divisible_ge.
Qed.

Lemma patch_embed_returns c h th img Bn H W :
  store_matches th (h ++ vit_shapes c) ->
  0 < ViT.patch_size c ->
  shape img = [Bn; ViT.channels c; H; W] ->
  ViT.patch_size c <= H -> ViT.patch_size c <= W ->
  returns_shape (ViT.patch_embed th (vit_at c (length h)) img)
    [Bn; (H / ViT.patch_size c) * (W / ViT.patch_size c); ViT.dim c].
Proof.
  intros Hst HP Himg HH HW.
  pose proof (patch_embed_shape c h th img Bn _ H W Hst HP Himg) as Hpe.
  cbv zeta in Hpe. rewrite Z.eqb_refl in Hpe.
  apply Z.leb_le in HH, HW. rewrite HH, HW in Hpe. exact Hpe.
Qed.

Lemma patches_pos P H W N :
  0 < P -> P <= H -> P <= W -> (H / P) * (W / P) = N -> 0 < N.
Proof.
  intros HP HH HW <-.
  assert (0 < H / P) by (apply Z.div_str_pos; lia).
  assert (0 < W / P) by (apply Z.div_str_pos; lia).
  nia.
Qed.

(** X1: a constructed model whose embedding dimension is positive and
    divisible by a positive number of heads returns on every batch
    [[B,C,H,W]] of at least one image, with [C] the configured channels, [H]
    and [W] at least the patch size [P] and [(H // P) * (W // P)] the
    configured number of patches: in training and in evaluation mode, from
    every state of the generator; the logits have shape
    [[B, num_classes]]. *)
Theorem forward_returns_logits (B : backend) (c : ViT.config) (h0 h' : heap)
  (m : ViT.t) (th : store) (training : bool) (img : tensor) (Bn H W : Z)
  (g : gen B) :
  ViT.init c h0 = Ok (m, h') ->
  store_matches th h' ->
  0 < ViT.dim c -> 0 < ViT.heads c -> ViT.dim c mod ViT.heads c = 0 ->
  shape img = [Bn; ViT.channels c; H; W] ->
  0 < Bn ->
  ViT.patch_size c <= H -> ViT.patch_size c <= W ->
  (H / ViT.patch_size c) * (W / ViT.patch_size c) = num_patches c ->
  exists out g',
    ViT.forward B th training m img g = Ok (out, g')
    /\ shape out = [Bn; ViT.num_classes c].
Proof.
  intros Hinit Hst Hd Hh Hm Himg HB HH HW HN.
  apply init_inv in Hinit as (-> & -> & HP & _).
  assert (HNpos : 0 < num_patches c) 
    by (apply (patches_pos (ViT.patch_size c) H W); assumption).
  destruct (vit_store_head c h0 th Hst) as (E0 & E1 & E2 & E3).
  revert g. change (fwd_returns_shape
                      (ViT.forward B th training (vit_at c (length h0)) img)
                      [Bn; ViT.num_classes c]).
  unfold ViT.forward. rewrite Himg. intros g.
  change (sbind (slift (Ok Bn)) ?k g) with (k Bn g). cbv beta.
  revert g. eapply fwd_bind_shape.
  { apply fwd_lift_shape.
    apply (patch_embed_returns c h0 th img Bn H W); assumption. }
  intros x0 Hx0. rewrite HN in Hx0. eapply fwd_bind_shape.
  { apply fwd_lift_shape.
    apply tokens_returns; [assumption | lia | exact Hx0]. }
  intros x Hx. eapply fwd_bind_shape.
  { apply dropout_shape. }
  intros x1 Hx1. rewrite Hx in Hx1. eapply fwd_bind_shape.
  { unfold Transformer.forward.
    cbn [vit_at ViT.transformer Transformer.layers].
    rewrite scale_of_float by assumption.
    apply (layers_shape B th training (ViT.heads c) _ (ViT.dropout c)
             (ViT.dim c) (ViT.mlp_dim c) (Z.to_nat (ViT.depth c))
             (length h0 + 4) x1 Bn (num_patches c + 1));
      try assumption; try lia.
    intros i Hi. now apply vit_store_block. }
  intros x2 Hx2. eapply fwd_bind_shape.
  { apply fwd_lift_shape.
    apply (select_first_shape x2 Bn (num_patches c + 1) (ViT.dim c));
      [lia | exact Hx2]. }
  intros x3 Hx3. eapply fwd_bind_shape.
  { apply fwd_lift_shape.
    apply (layer_norm_shape th _ x3 [Bn] (ViT.dim c));
      [exact E0 | exact E1 | exact Hx3]. }
  intros x4 Hx4. apply fwd_lift_shape.
  apply (linear_shape th _ x4 [Bn] (ViT.dim c) (ViT.num_classes c));
    [exact E2 | exact E3 | exact Hx4].
Qed.

Lemma forward_returns_logits_witness :
  exists out g',
    ViT.forward still_backend (zero_store (vit_shapes ViT.script_config)) true
      (vit_at ViT.script_config 0) (zeros [128; 3; 32; 32]) tt = Ok (out, g')
    /\ shape out = [128; 10].
Proof.
  apply (forward_returns_logits still_backend ViT.script_config []
           (vit_shapes ViT.script_config) (vit_at ViT.script_config 0)
           (zero_store (vit_shapes ViT.script_config)) true
           (zeros [128; 3; 32; 32]) 128 32 32 tt).
  - reflexivity.
  - apply store_of_matches.
  - reflexivity.
  - reflexivity.
  - reflexivity.
  - reflexivity.
  - reflexivity.
  - simpl. lia.
  - simpl. lia.
  - reflexivity.
Defined.

(** ** Heads that do not divide the embedding dimension *)

Lemma fwd_raises_bind {B : backend} {A C} (c : Fwd B A) (k : A -> Fwd B C) e :
  fwd_raises c e -> fwd_raises (sbind c k) e.
Proof. intros Hc g. unfold sbind. now rewrite Hc. Qed.

Lemma fwd_raises_after {B : backend} {C} (c : Fwd B tensor)
  (k : tensor -> Fwd B C) s e :
  fwd_returns_shape c s ->
  (forall y, shape y = s -> fwd_raises (k y) e) ->
  fwd_raises (sbind c k) e.
Proof.
  intros Hc Hk g. destruct (Hc g) as (y & g1 & E & Hy).
  unfold sbind. rewrite E. now apply Hk.
Qed.

Lemma fwd_raises_lift {B : backend} {A} (r : result A) e :
  r = Raise e -> fwd_raises (slift (S := gen B) r) e.
Proof. intros -> g. reflexivity. Qed.

Lemma qkv_uneven th m x b N dim :
  shape (th (lin_weight (Attention.to_qkv m))) = [dim * 3; dim] ->
  lin_bias (Attention.to_qkv m) = None ->
  0 < b -> 0 < N -> 0 < Attention.heads m -> 0 < dim ->
  dim mod Attention.heads m <> 0 ->
  shape x = [b; N; dim] ->
  Attention.qkv th m x = Raise RuntimeError.
Proof.
  intros Hw Hbias Hb HN Hh Hd Hm Hx.
  unfold Attention.qkv. rewrite Hx.
  assert (Hnb : match lin_bias (Attention.to_qkv m) with
                | Some b' => shape (th b') = [dim * 3]
                | None => True
                end) by now rewrite Hbias.
  destruct (linear_shape th (Attention.to_qkv m) x [b; N] dim (dim * 3)
              Hw Hnb Hx) as (y & Ey & Hy).
  rewrite Ey. cbn [rbind].
  destruct (chunk3_thirds y b N dim Hd Hy)
    as (t0 & t1 & t2 & Ec & H0 & H1 & H2).
  rewrite Ec. cbn [rbind rmapM].
  pose proof (split_heads_uneven b N _ dim t0 Hb HN Hh Hm H0) as E0.
  unfold rbind in *. now rewrite E0.
Qed.

Lemma block_uneven (B : backend) th training heads sc p n dim mlp x b N :
  block_stored th dim mlp n ->
  0 < b -> 0 < N -> 0 < heads -> 0 < dim -> dim mod heads <> 0 ->
  shape x = [b; N; dim] ->
  fwd_raises
    (Transformer.forward_block B th training (block_at heads sc p n) x)
    RuntimeError.
Proof.
  intros Hst Hb HN Hh Hd Hm Hx.
  destruct (block_stored_cells _ _ _ _ Hst)
    as (C0 & C1 & C2 & C3 & C4 & _).
  unfold Transformer.forward_block, block_at, PreNorm.forward.
  cbn [PreNorm.norm PreNorm.fn].
  apply fwd_raises_bind.
  eapply fwd_raises_after.
  { apply fwd_lift_shape.
    apply (layer_norm_shape th _ x [b; N] dim);
      [exact C3 | exact C4 | exact Hx]. }
  intros y Hy. unfold Attention.forward.
  apply fwd_raises_bind. apply fwd_raises_lift.
  unfold Attention.attend. simpl in Hy. rewrite Hy.
  rewrite (qkv_uneven th _ y b N dim); try assumption; reflexivity.
Qed.

(** X3: when the number of heads does not divide the embedding dimension
    (both positive), a constructed model with at least one block raises
    [RuntimeError] on the inputs it would accept otherwise: in the first
    block the split into heads, [reshape(b, n, h, -1)], fails. *)
Theorem uneven_heads_fail_in_forward (B : backend) (c : ViT.config)
  (h0 h' : heap) (m : ViT.t) (th : store) (training : bool) (img : tensor)
  (Bn H W : Z) (g : gen B) :
  ViT.init c h0 = Ok (m, h') ->
  store_matches th h' ->
  0 < ViT.depth c ->
  0 < ViT.dim c -> 0 < ViT.heads c -> ViT.dim c mod ViT.heads c <> 0 ->
  shape img = [Bn; ViT.channels c; H; W] ->
  0 < Bn ->
  ViT.patch_size c <= H -> ViT.patch_size c <= W ->
  (H / ViT.patch_size c) * (W / ViT.patch_size c) = num_patches c ->
  ViT.forward B th training m img g = Raise RuntimeError.
Proof.
  intros Hinit Hst Hdepth Hd Hh Hm Himg HB HH HW HN.
  apply init_inv in Hinit as (-> & -> & HP & _).
  assert (HNpos : 0 < num_patches c)
    by (apply (patches_pos (ViT.patch_size c) H W); assumption).
  revert g. change (fwd_raises
                      (ViT.forward B th training (vit_at c (length h0)) img)
                      RuntimeError).
  unfold ViT.forward. rewrite Himg. intros g.
  change (sbind (slift (Ok Bn)) ?k g) with (k Bn g). cbv beta.
  revert g. eapply fwd_raises_after.
  { apply fwd_lift_shape.
    apply (patch_embed_returns c h0 th img Bn H W); assumption. }
  intros x0 Hx0. rewrite HN in Hx0. eapply fwd_raises_after.
  { apply fwd_lift_shape.
    apply tokens_returns; [assumption | lia | exact Hx0]. }
  intros x Hx. eapply fwd_raises_after.
  { apply dropout_shape. }
  intros x1 Hx1. rewrite Hx in Hx1. apply fwd_raises_bind.
  unfold Transformer.forward.
  cbn [vit_at ViT.transformer Transformer.layers].
  destruct (Z.to_nat (ViT.depth c)) as [|k] eqn:Ek; [lia|].
  cbn [blocks_at Transformer.forward_layers]. apply fwd_raises_bind.
  apply (block_uneven B th training _ _ _ _ (ViT.dim c) (ViT.mlp_dim c)
           x1 Bn (num_patches c + 1)); try assumption; try lia.
  replace (length h0 + 4)%nat with (length h0 + 4 + 11 * 0)%nat by lia.
  apply vit_store_block; [assumption | lia].
Qed.

Lemma uneven_heads_fail_in_forward_witness :
  ViT.forward still_backend (zero_store (vit_shapes uneven_heads)) true
    (vit_at uneven_heads 0) (zeros [1; 3; 32; 32]) tt = Raise RuntimeError.
Proof.
  apply (uneven_heads_fail_in_forward still_backend uneven_heads []
           (vit_shapes uneven_heads) (vit_at uneven_heads 0)
           (zero_store (vit_shapes uneven_heads)) true
           (zeros [1; 3; 32; 32]) 1 32 32 tt).
  - reflexivity.
  - apply store_of_matches.
  - reflexivity.
  - reflexivity.
  - reflexivity.
  - discriminate.
  - reflexivity.
  - reflexivity.
  - simpl. lia.
  - simpl. lia.
  - reflexivity.
Defined.

(** ** Inputs the forward pass rejects *)

Lemma tokens_rejects c h th Bn n x :
  store_matches th (h ++ vit_shapes c) ->
  0 < num_patches c ->
  shape x = [Bn; n; ViT.dim c] ->
  n <> num_patches c ->
  ViT.tokens th (vit_at c (length h)) Bn x = Raise RuntimeError.
Proof.
  intros Hst HN Hx Hn.
  destruct (vit_store c h th Hst) as (_ & _ & Hpos & Hcls).
  unfold ViT.tokens, expand_batch.
  cbn [vit_at ViT.cls_token ViT.pos_embedding]. rewrite Hcls.
  rewrite Z.eqb_refl. cbn [orb].
  destruct (0 <=? Bn); cbn [andb rbind]; [|reflexivity].
  unfold cat1. cbn [shape]. rewrite Hx, shape_eqb_refl. cbn [rbind].
  unfold tiadd. cbn [shape]. rewrite Hpos. unfold broadcast.
  cbn [rev app broadcast_rev]. rewrite Z.eqb_refl.
  destruct (Z.eqb_spec (1 + n) (num_patches c + 1)) as [E1|E1]; [lia|].
  destruct (Z.eqb_spec (num_patches c + 1) 1) as [E3|E3]; [lia|].
  destruct (Z.eqb_spec (1 + n) 1) as [E2|E2].
  - assert (E4 : (num_patches c + 1 =? 1 + n) = false)
      by (apply Z.eqb_neq; lia).
    destruct (Bn =? 1); rewrite ?Z.eqb_refl; cbn [rev app];
      unfold shape_eqb; cbn [length combine forallb fst snd];
      rewrite E4, ?Z.eqb_refl, ?andb_false_r; reflexivity.
  - destruct (Bn =? 1); rewrite ?Z.eqb_refl; reflexivity.
Qed.

(** X2: a constructed model with a positive image size raises
    [RuntimeError] on a batch [[B,C,H,W]] with another number of channels
    than the configured one, with a side shorter than the patch, or with
    another number of patches than the configured one. *)
Theorem forward_rejects (B : backend) (c : ViT.config) (h0 h' : heap)
  (m : ViT.t) (th : store) (training : bool) (img : tensor)
  (Bn C H W : Z) (g : gen B) :
  ViT.init c h0 = Ok (m, h') ->
  store_matches th h' ->
  0 < ViT.image_size c ->
  shape img = [Bn; C; H; W] ->
  C <> ViT.channels c \/ H < ViT.patch_size c \/ W < ViT.patch_size c
  \/ (H / ViT.patch_size c) * (W / ViT.patch_size c) <> num_patches c ->
  ViT.forward B th training m img g = Raise RuntimeError.
Proof.
  intros Hinit Hst Hpos Himg Hbad.
  apply init_inv in Hinit as (-> & -> & HP & Hmod).
  assert (HN : 0 < num_patches c) by now apply num_patches_pos.
  unfold ViT.forward. rewrite Himg.
  change (sbind (slift (Ok Bn)) ?k g) with (k Bn g). cbv beta.
  pose proof (patch_embed_shape c h0 th img Bn C H W Hst HP Himg) as Hpe.
  cbv zeta in Hpe.
  destruct ((C =? ViT.channels c) && (ViT.patch_size c <=? H)
            && (ViT.patch_size c <=? W)) eqn:Eok.
  - destruct Hpe as (x0 & Ex0 & Hx0).
    apply andb_true_iff in Eok as [Eok EW].
    apply andb_true_iff in Eok as [EC EH].
    apply Z.eqb_eq in EC. apply Z.leb_le in EH, EW.
    assert (Hn : (H / ViT.patch_size c) * (W / ViT.patch_size c)
                 <> num_patches c) by lia.
    unfold sbind at 1. rewrite Ex0. cbn [slift].
    unfold sbind at 1.
    now rewrite (tokens_rejects c h0 th Bn _ x0 Hst HN Hx0 Hn).
  - unfold sbind at 1. now rewrite Hpe.
Qed.

Lemma forward_rejects_witness :
  ViT.forward still_backend (zero_store (vit_shapes ViT.script_config)) false
    (vit_at ViT.script_config 0) (zeros [1; 3; 224; 224]) tt
  = Raise RuntimeError.
Proof.
  apply (forward_rejects still_backend ViT.script_config []
           (vit_shapes ViT.script_config) (vit_at ViT.script_config 0)
           (zero_store (vit_shapes ViT.script_config)) false
           (zeros [1; 3; 224; 224]) 1 3 224 224 tt).
  - reflexivity.
  - apply store_of_matches.
  - reflexivity.
  - reflexivity.
  - right. right. right. vm_compute. discriminate.
Defined.

(** ** Divisions by zero at construction *)

Lemma raises_after {A C} (c : Ctor A) (k : A -> Ctor C) e :
  succeeds c -> (forall a, ctor_raises (k a) e) -> ctor_raises (sbind c k) e.
Proof.
  intros Hc Hk h. destruct (Hc h) as (a & h1 & E1).
  unfold sbind. rewrite E1. apply Hk.
Qed.

Lemma raises_bind {A C} (c : Ctor A) (k : A -> Ctor C) e :
  ctor_raises c e -> ctor_raises (sbind c k) e.
Proof. intros Hc h. unfold sbind. now rewrite Hc. Qed.

Lemma raises_lift {A C} (v : A) (k : A -> Ctor C) e :
  ctor_raises (k v) e -> ctor_raises (sbind (slift (Ok v)) k) e.
Proof. intros H h. exact (H h). Qed.

Lemma init_scale_zero dim heads :
  heads = 0 \/ (0 < heads /\ 0 <= dim < heads) ->
  Attention.init_scale dim heads = Raise ZeroDivisionError.
Proof.
  unfold Attention.init_scale, py_floordiv, py_pow_neg_half.
  intros [-> | [Hh Hd]]; [reflexivity|].
  destruct (Z.eqb_spec heads 0) as [E|E]; [lia|]. cbn [rbind].
  rewrite Z.div_small by lia. reflexivity.
Qed.

(** X4: the constructor raises [ZeroDivisionError] when the patch size is 0
    (at the modulo of its assertion, whatever the other arguments), and,
    with at least one block, when [heads = 0] or [heads > dim]: at
    [(dim // heads) ** -0.5] in the first [Attention] (the division, or zero
    to a negative power), the layers constructed before it having valid
    arguments. *)
Theorem construction_divides_by_zero (c : ViT.config) (h : heap) :
  (ViT.patch_size c = 0 -> ViT.init c h = Raise ZeroDivisionError)
  /\ (0 < ViT.patch_size c ->
      ViT.image_size c mod ViT.patch_size c = 0 ->
      0 < ViT.channels c -> 0 < ViT.dim c ->
      Qle_bool 0 (ViT.emb_dropout c) && Qle_bool (ViT.emb_dropout c) 1 = true ->
      0 < ViT.depth c ->
      ViT.heads c = 0 \/ ViT.dim c < ViT.heads c ->
      ViT.init c h = Raise ZeroDivisionError).
Proof.
  split.
  { intros Hp. unfold ViT.init, py_mod. rewrite Hp. reflexivity. }
  intros Hp Hmod Hc Hd Hed Hdepth Hheads. revert h.
  change (ctor_raises (ViT.init c) ZeroDivisionError).
  unfold ViT.init, py_mod, py_floordiv, py_assert.
  destruct (Z.eqb_spec (ViT.patch_size c) 0) as [E0|E0]; [lia|].
  rewrite Hmod. apply raises_lift. simpl. do 2 apply raises_lift.
  apply raises_after; [apply succeeds_Conv2d; lia | intros ?].
  apply raises_after.
  { apply succeeds_new_param. simpl.
    rewrite ?andb_true_iff, ?Z.leb_le. repeat split; nia. }
  intros ?.
  apply raises_after; [apply succeeds_new_param; nonneg | intros ?].
  apply raises_after; [now apply succeeds_Dropout | intros ?].
  apply raises_bind. unfold Transformer.init. apply raises_bind.
  destruct (Z.to_nat (ViT.depth c)) as [|k] eqn:Ek; [lia|].
  cbn [Transformer.init_layers]. apply raises_bind.
  unfold Transformer.init_block. apply raises_bind.
  unfold Attention.init. apply raises_bind.
  intros h. rewrite init_scale_zero; [reflexivity|]. lia.
Qed.

Lemma construction_divides_by_zero_witness :
  ViT.init {| ViT.image_size := 32; ViT.patch_size := 0;
              ViT.num_classes := 10; ViT.dim := 512; ViT.depth := 6;
              ViT.heads := 8; ViT.mlp_dim := 1024; ViT.channels := 3;
              ViT.dropout := 1 # 10; ViT.emb_dropout := 1 # 10 |} []
  = Raise ZeroDivisionError
  /\ ViT.init {| ViT.image_size := 32; ViT.patch_size := 4;
                 ViT.num_classes := 10; ViT.dim := 4; ViT.depth := 6;
                 ViT.heads := 8; ViT.mlp_dim := 1024; ViT.channels := 3;
                 ViT.dropout := 1 # 10; ViT.emb_dropout := 1 # 10 |} []
     = Raise ZeroDivisionError.
Proof.
  split.
  - apply (proj1 (construction_divides_by_zero _ _)). reflexivity.
  - apply (proj2 (construction_divides_by_zero _ _)).
    + reflexivity.
    + reflexivity.
    + reflexivity.
    + reflexivity.
    + reflexivity.
    + reflexivity.
    + right. reflexivity.
Defined.

(** ** The parameters of a constructed model *)

Lemma block_params prefix heads sc p n :
  map snd (Transformer.block_names prefix (block_at heads sc p n))
  = [n + 3; n + 4; n; n + 1; n + 2; n + 9; n + 10; n + 5; n + 6; n + 7;
     n + 8]%nat.
Proof. reflexivity. Qed.

Lemma layers_params prefix i heads sc p count n :
  NoDup (map snd (Transformer.layers_names prefix i
                    (blocks_at heads sc p n count)))
  /\ forall x,
       x ∈ map snd (Transformer.layers_names prefix i
                      (blocks_at heads sc p n count))
       <-> (n <= x < n + 11 * count)%nat.
Proof.
  revert i n. induction count as [|count IH]; intros i n.
  - cbn. split; [constructor|]. intros x. rewrite elem_of_nil. lia.
  - cbn [blocks_at Transformer.layers_names]. rewrite map_app, block_params.
    destruct (IH (S i) (n + 11)%nat) as [Hnd Hin]. split.
    + apply NoDup_app. split; [|split; [|exact Hnd]].
      * repeat (apply NoDup_cons; split;
                [rewrite ?elem_of_cons, elem_of_nil; lia|]).
        apply NoDup_nil_2.
      * intros x Hx Hx'. apply Hin in Hx'.
        rewrite !elem_of_cons, elem_of_nil in Hx. lia.
    + intros x. rewrite elem_of_app, Hin, !elem_of_cons, elem_of_nil. lia.
Qed.

(** X5: the parameters of a constructed model are pairwise distinct cells,
    they are exactly the cells its constructor allocated, and there are
    [8 + 11 * depth] of them: no parameter is shared between two layers and
    none is left out of the named parameters. *)
Theorem parameters_cover_heap (c : ViT.config) (h0 h' : heap) (m : ViT.t) :
  ViT.init c h0 = Ok (m, h') ->
  NoDup (map snd (ViT.named_parameters m))
  /\ (forall i, i ∈ map snd (ViT.named_parameters m)
                <-> (length h0 <= i < length h')%nat)
  /\ length h' = (length h0 + 8 + 11 * Z.to_nat (ViT.depth c))%nat.
Proof.
  intros Hinit. apply init_inv in Hinit as (-> & -> & _).
  assert (Hlen : length (h0 ++ vit_shapes c)
                 = (length h0 + 8 + 11 * Z.to_nat (ViT.depth c))%nat).
  { unfold vit_shapes. rewrite !length_app, length_blocks. simpl. lia. }
  rewrite Hlen. set (n := length h0). set (d := Z.to_nat (ViT.depth c)).
  destruct (layers_params ("transformer." +:+ "layers.") 0 (ViT.heads c)
              (scale_of (ViT.dim c) (ViT.heads c)) (ViT.dropout c) d
              (n + 4)) as [Hnd Hin].
  set (ls := map snd (Transformer.layers_names _ _ _)) in *.
  assert (Heq : map snd (ViT.named_parameters (vit_at c n))
                = (n + 2)%nat :: (n + 3)%nat :: n :: S n
                  :: ls ++ [(n + 4 + 11 * d)%nat; S (n + 4 + 11 * d);
                            (n + 4 + 11 * d + 2)%nat;
                            (n + 4 + 11 * d + 3)%nat])
    by (unfold ViT.named_parameters; rewrite !map_app; reflexivity).
  rewrite Heq.
  assert (Hmem : forall i,
             i ∈ (n + 2)%nat :: (n + 3)%nat :: n :: S n
                 :: ls ++ [(n + 4 + 11 * d)%nat; S (n + 4 + 11 * d);
                           (n + 4 + 11 * d + 2)%nat; (n + 4 + 11 * d + 3)%nat]
             <-> (n <= i < n + 8 + 11 * d)%nat).
  { intros i. rewrite !elem_of_cons, elem_of_app, Hin, !elem_of_cons,
      elem_of_nil. lia. }
  split; [|split; [exact Hmem | reflexivity]].
  repeat (apply NoDup_cons; split;
          [rewrite ?elem_of_cons, elem_of_app, Hin, ?elem_of_cons,
             elem_of_nil; lia|]).
  apply NoDup_app. split; [exact Hnd|]. split.
  - intros x Hx. apply Hin in Hx. rewrite !elem_of_cons, elem_of_nil. lia.
  - repeat (apply NoDup_cons; split;
            [rewrite ?elem_of_cons, elem_of_nil; lia|]).
    apply NoDup_nil_2.
Qed.

Lemma parameters_cover_heap_witness :
  NoDup (map snd (ViT.named_parameters (vit_at ViT.script_config 0)))
  /\ length (vit_shapes ViT.script_config) = 74%nat.
Proof.
  destruct (parameters_cover_heap ViT.script_config []
              (vit_shapes ViT.script_config) (vit_at ViT.script_config 0)
              eq_refl) as (Hnd & _ & Hlen).
  split; [exact Hnd | exact Hlen].
Defined.

(** ** The token sequence *)

Lemma tokens_entry c h th Bn x y :
  store_matches th (h ++ vit_shapes c) ->
  shape x = [Bn; num_patches c; ViT.dim c] ->
  ViT.tokens th (vit_at c (length h)) Bn x = Ok y ->
  forall i j k,
    0 <= j <= num_patches c -> 0 <= k < ViT.dim c ->
    at_ y [i; j; k]
    = ((if (j =? 0)%Z then at_ (th (length h + 3)%nat) [0%Z; 0%Z; k]
        else at_ x [i; (j - 1)%Z; k])
       + at_ (th (length h + 2)%nat) [0%Z; j; k])%R.
Proof.
  intros Hst Hx.
  destruct (vit_store c h th Hst) as (_ & _ & Hpos & Hcls).
  unfold ViT.tokens, expand_batch.
  cbn [vit_at ViT.cls_token ViT.pos_embedding]. rewrite Hcls.
  rewrite Z.eqb_refl. cbn [orb].
  destruct (0 <=? Bn); cbn [andb rbind]; [|discriminate].
  unfold cat1. cbn [shape]. rewrite Hx, shape_eqb_refl. cbn [rbind].
  unfold tiadd. cbn [shape]. rewrite Hpos.
  destruct (broadcast _ _) as [s|]; [|discriminate].
  destruct (shape_eqb s _); [|discriminate].
  intros [= <-] i j k Hj Hk. cbn [at_].
  unfold bindex. cbn [rev app bindex_rev].
  rewrite Z.eqb_refl.
  assert (Ej : (if num_patches c + 1 =? 1 then 0 else j) = j)
    by (destruct (Z.eqb_spec (num_patches c + 1) 1); lia).
  assert (Ek : (if ViT.dim c =? 1 then 0 else k) = k)
    by (destruct (Z.eqb_spec (ViT.dim c) 1); lia).
  rewrite Ej, Ek. f_equal.
  destruct (Z.eqb_spec j 0) as [->|Hj0].
  - reflexivity.
  - destruct (Z.ltb_spec j 1); [lia | reflexivity].
Qed.

(** X7: in the token sequence of lines 128-131, position 0 holds the class
    token, the same for every image of the batch, position [j > 0] holds
    the embedding of patch [j - 1], and the positional embedding of the
    position is added to each, the same for every image. *)
Theorem token_layout (c : ViT.config) (h0 h' : heap) (m : ViT.t)
  (th : store) (Bn : Z) (x y : tensor) :
  ViT.init c h0 = Ok (m, h') ->
  store_matches th h' ->
  shape x = [Bn; num_patches c; ViT.dim c] ->
  ViT.tokens th m Bn x = Ok y ->
  forall i j k,
    0 <= j <= num_patches c -> 0 <= k < ViT.dim c ->
    at_ y [i; j; k]
    = ((if (j =? 0)%Z then at_ (th (ViT.cls_token m)) [0%Z; 0%Z; k]
        else at_ x [i; (j - 1)%Z; k])
       + at_ (th (ViT.pos_embedding m)) [0%Z; j; k])%R.
Proof.
  intros Hinit Hst Hx Hy. apply init_inv in Hinit as (-> & -> & _).
  exact (tokens_entry c h0 th Bn x y Hst Hx Hy).
Qed.

Lemma token_layout_witness :
  match ViT.tokens (zero_store (vit_shapes tiny_config))
          (vit_at tiny_config 0) 1 (zeros [1; 4; 2]) with
  | Ok y => at_ y [0; 0; 0] = (0 + 0)%R /\ at_ y [0; 3; 1] = (0 + 0)%R
  | Raise _ => False
  end.
Proof.
  destruct (ViT.tokens (zero_store (vit_shapes tiny_config))
              (vit_at tiny_config 0) 1 (zeros [1; 4; 2])) as [y|e] eqn:E.
  - pose proof (token_layout tiny_config [] (vit_shapes tiny_config)
                  (vit_at tiny_config 0)
                  (zero_store (vit_shapes tiny_config)) 1 (zeros [1; 4; 2]) y
                  eq_refl (store_of_matches _ _) eq_refl E) as H.
    split.
    + apply (H 0 0 0); vm_compute; split; congruence.
    + apply (H 0 3 1); vm_compute; split; congruence.
  - assert (Hok : is_ok (ViT.tokens (zero_store (vit_shapes tiny_config))
                           (vit_at tiny_config 0) 1 (zeros [1; 4; 2]))
                  = true) by (vm_compute; reflexivity).
    rewrite E in Hok. discriminate.
Defined.

(** ** Splitting into heads and merging back *)

Lemma ravel_unravel s k : s <> [] -> ravel s (unravel s k) = k.
Proof.
  revert k. induction s as [|a s IH]; intros k Hs; [contradiction|].
  cbn [unravel ravel]. destruct s as [|a' s'].
  - cbn [unravel ravel numel fold_right]. rewrite Z.div_1_r. lia.
  - rewrite IH by discriminate.
    pose proof (Z.div_mod k (numel (a' :: s'))) as Hdm.
    destruct (Z.eq_dec (numel (a' :: s')) 0) as [E0|E0].
    + rewrite E0. rewrite Z.mod_0_r. lia.
    + specialize (Hdm E0). lia.
Qed.

Lemma unravel_ravel3 b n D i j k :
  0 <= j < n -> 0 <= k < D ->
  unravel [b; n; D] (ravel [b; n; D] [i; j; k]) = [i; j; k].
Proof.
  intros Hj Hk. cbn [ravel unravel numel fold_right].
  rewrite !Z.mul_1_r, !Z.add_0_r, Z.div_1_r.
  assert (Hr : 0 <= j * D + k < n * D) by nia.
  assert (E1 : (i * (n * D) + (j * D + k)) / (n * D) = i).
  { rewrite Z.div_add_l by nia. rewrite Z.div_small by exact Hr. lia. }
  assert (E2 : (i * (n * D) + (j * D + k)) mod (n * D) = j * D + k).
  { rewrite Z.add_comm, Z.mod_add by nia. now apply Z.mod_small. }
  rewrite E1, E2.
  assert (E3 : (j * D + k) / D = j).
  { rewrite Z.div_add_l by lia. rewrite Z.div_small by exact Hk. lia. }
  assert (E4 : (j * D + k) mod D = k).
  { rewrite Z.add_comm, Z.mod_add by lia. now apply Z.mod_small. }
  now rewrite E3, E4.
Qed.

Lemma reshape_infer_at known t r idx :
  reshape_infer known t = Ok r ->
  at_ r idx = at_ t (unravel (shape t) (ravel (shape r) idx)).
Proof.
  unfold reshape_infer. destruct (existsb _ known); [discriminate|].
  destruct (numel known =? 0); [discriminate|].
  destruct (_ mod _ =? 0); [|discriminate]. now intros [= <-].
Qed.

Lemma transpose12_at t r i j k rest :
  transpose12 t = Ok r ->
  at_ r (i :: j :: k :: rest) = at_ t (i :: k :: j :: rest).
Proof.
  unfold transpose12. destruct (shape t) as [|a [|b [|c s]]]; try discriminate.
  now intros [= <-].
Qed.

Lemma transpose12_shape t r a b c s :
  shape t = a :: b :: c :: s -> transpose12 t = Ok r ->
  shape r = a :: c :: b :: s.
Proof. unfold transpose12. intros ->. now intros [= <-]. Qed.

(** X8: splitting a tensor [[b,n,D]] into [h] heads, as lines 69-70 do with
    [reshape(b, n, h, -1).transpose(1, 2)], and merging the heads, as line
    76 does with [transpose(1, 2).reshape(b, n, -1)], returns a tensor of
    the same shape and the same entries. *)
Theorem heads_split_merge (b n h D : Z) (t q : tensor) :
  0 < b -> 0 < n -> 0 < h -> D mod h = 0 ->
  shape t = [b; n; D] ->
  rbind (reshape_infer [b; n; h] t) transpose12 = Ok q ->
  exists z,
    rbind (transpose12 q) (reshape_infer [b; n]) = Ok z
    /\ shape z = [b; n; D]
    /\ forall i j k,
         0 <= j < n -> 0 <= k < D -> at_ z [i; j; k] = at_ t [i; j; k].
Proof.
  intros Hb Hn Hh Hm Ht Hq.
  destruct (split_heads_shape b n h D t Hb Hn Hh Hm Ht) as (q' & Eq' & Hsq).
  rewrite Hq in Eq'. injection Eq' as <-.
  destruct (merge_heads_shape b n h (D / h) q Hb Hn Hsq) as (z & Ez & Hz).
  assert (HD : h * (D / h) = D) by (symmetry; now apply exact_division).
  rewrite HD in Hz.
  exists z. split; [exact Ez|]. split; [exact Hz|].
  intros i j k Hj Hk.
  unfold rbind in Hq, Ez.
  destruct (reshape_infer [b; n; h] t) as [r|] eqn:Er; [|discriminate].
  destruct (transpose12 q) as [u|] eqn:Eu; [|discriminate].
  assert (Hsu : shape u = [b; n; h; D / h])
    by exact (transpose12_shape q u _ _ _ _ Hsq Eu).
  assert (Hsr : shape r = [b; n; h; D / h]).
  { destruct (shape r) as [|r0 [|r1 [|r2 rs]]] eqn:Esr;
      try (unfold transpose12 in Hq; rewrite Esr in Hq; discriminate).
    pose proof (transpose12_shape r q _ _ _ _ Esr Hq) as Hsq'.
    rewrite Hsq in Hsq'. now injection Hsq' as <- <- <- <-. }
  rewrite (reshape_infer_at _ _ _ _ Ez), Hsu, Hz.
  set (K := ravel [b; n; D] [i; j; k]).
  assert (Hu : exists u0 u1 u2 u3,
             unravel [b; n; h; D / h] K = [u0; u1; u2; u3])
    by (cbn [unravel]; eauto).
  destruct Hu as (u0 & u1 & u2 & u3 & Hu).
  rewrite Hu, (transpose12_at _ _ _ _ _ _ Eu), (transpose12_at _ _ _ _ _ _ Hq).
  rewrite (reshape_infer_at _ _ _ _ Er), Ht, Hsr, <- Hu.
  rewrite ravel_unravel by discriminate.
  unfold K. now rewrite unravel_ravel3.
Qed.

Lemma heads_split_merge_witness :
  match rbind (reshape_infer [1; 5; 2] (zeros [1; 5; 6])) transpose12 with
  | Ok q =>
      exists z,
        rbind (transpose12 q) (reshape_infer [1; 5]) = Ok z
        /\ shape z = [1; 5; 6]
  | Raise _ => False
  end.
Proof.
  destruct (rbind (reshape_infer [1; 5; 2] (zeros [1; 5; 6])) transpose12)
    as [q|e] eqn:E.
  - destruct (heads_split_merge 1 5 2 6 (zeros [1; 5; 6]) q)
      as (z & Ez & Hz & _); try reflexivity; try exact E.
    now exists z.
  - assert (Hok : is_ok (rbind (reshape_infer [1; 5; 2] (zeros [1; 5; 6]))
                           transpose12) = true) by (vm_compute; reflexivity).
    rewrite E in Hok. discriminate.
Defined.

(** ** The patch embedding as a projection of each patch *)

Lemma conv2d_at th cv img y n C H W o ci kh kw :
  shape (th (conv_weight cv)) = [o; ci; kh; kw] ->
  shape img = [n; C; H; W] ->
  F_conv2d th cv img = Ok y ->
  forall ib io i j,
    at_ y [ib; io; i; j]
    = (at_ (th (conv_bias cv)) [io]
       + rsum ci (fun ic => rsum kh (fun u => rsum kw (fun v =>
           at_ img [ib; ic; (i * conv_stride cv + u)%Z;
                    (j * conv_stride cv + v)%Z]
           * at_ (th (conv_weight cv)) [io; ic; u; v]))))%R.
Proof.
  intros Hw Himg. unfold F_conv2d. rewrite Hw, Himg.
  destruct (_ && _); [|discriminate]. now intros [= <-].
Qed.

Lemma flatten2_at t r a b c rest :
  shape t = a :: b :: c :: rest ->
  flatten2 t = Ok r ->
  forall i j k, at_ r [i; j; k] = at_ t (i :: j :: unravel (c :: rest) k).
Proof. unfold flatten2. intros ->. now intros [= <-]. Qed.

Lemma patch_embed_entry c h th img x Bn H W :
  store_matches th (h ++ vit_shapes c) ->
  0 < ViT.patch_size c ->
  shape img = [Bn; ViT.channels c; H; W] ->
  ViT.patch_embed th (vit_at c (length h)) img = Ok x ->
  let P := ViT.patch_size c in
  forall ib t io,
    at_ x [ib; t; io]
    = (at_ (th (S (length h))) [io]
       + rsum (ViT.channels c) (fun ic => rsum P (fun u => rsum P (fun v =>
           at_ img [ib; ic; (t / (W / P) * P + u)%Z;
                    (t mod (W / P) * P + v)%Z]
           * at_ (th (length h)) [io; ic; u; v]))))%R.
Proof.
  intros Hst HP Himg Hpe P ib t io.
  destruct (vit_store c h th Hst) as (Hw & Hb & _ & _).
  unfold ViT.patch_embed, rbind in Hpe.
  cbn [vit_at ViT.to_patch_embedding] in *.
  destruct (F_conv2d _ _ img) as [y|] eqn:Ey; [|discriminate].
  destruct (flatten2 y) as [f|] eqn:Ef; [|discriminate].
  assert (Hsy : shape y = [Bn; ViT.dim c; conv2d_out H P P; conv2d_out W P P]).
  { revert Ey. unfold F_conv2d. cbn [conv_weight conv_bias conv_stride].
    rewrite Hw, Himg. destruct (_ && _); [|discriminate]. now intros [= <-]. }
  rewrite (transpose12_at _ _ _ _ _ _ Hpe).
  rewrite (flatten2_at _ _ _ _ _ _ Hsy Ef).
  cbn [unravel numel fold_right].
  rewrite Z.mul_1_r, Z.div_1_r. unfold P. rewrite conv2d_out_div by exact HP.
  exact (conv2d_at th
           {| conv_weight := length h; conv_bias := S (length h);
              conv_kernel := ViT.patch_size c;
              conv_stride := ViT.patch_size c |}
           img y _ _ _ _ _ _ _ _ Hw Himg Ey ib io _ _).
Qed.

(** X6: the embedding of token [t] of image [ib] is the bias plus the sum,
    over the channels and the [P x P] pixels of one patch, of pixel times
    weight; the patch is the one in row [t // (W // P)] and column
    [t % (W // P)] of the grid of patches.  The convolution with kernel and
    stride [P], [flatten(2)] and [transpose(1, 2)] project every patch on
    its own, the patches in row-major order. *)
Theorem patch_embedding_projects_patches (c : ViT.config) (h0 h' : heap)
  (m : ViT.t) (th : store) (img x : tensor) (Bn H W : Z) :
  ViT.init c h0 = Ok (m, h') ->
  store_matches th h' ->
  shape img = [Bn; ViT.channels c; H; W] ->
  ViT.patch_embed th m img = Ok x ->
  let P := ViT.patch_size c in
  let weight := th (conv_weight (ViT.to_patch_embedding m)) in
  let bias := th (conv_bias (ViT.to_patch_embedding m)) in
  forall ib t io,
    at_ x [ib; t; io]
    = (at_ bias [io]
       + rsum (ViT.channels c) (fun ic => rsum P (fun u => rsum P (fun v =>
           at_ img [ib; ic; (t / (W / P) * P + u)%Z;
                    (t mod (W / P) * P + v)%Z]
           * at_ weight [io; ic; u; v]))))%R.
Proof.
  intros Hinit Hst Himg Hpe P weight bias ib t io.
  apply init_inv in Hinit as (-> & -> & HP & _).
  exact (patch_embed_entry c h0 th img x Bn H W Hst HP Himg Hpe ib t io).
Qed.

Lemma patch_embedding_projects_patches_witness :
  match ViT.patch_embed (zero_store (vit_shapes tiny_config))
          (vit_at tiny_config 0) (zeros [1; 1; 4; 4]) with
  | Ok x =>
      at_ x [0; 3; 1]
      = (0 + rsum 1 (fun ic => rsum 2 (fun u => rsum 2 (fun v =>
               0 * 0))))%R
  | Raise _ => False
  end.
Proof.
  destruct (ViT.patch_embed (zero_store (vit_shapes tiny_config))
              (vit_at tiny_config 0) (zeros [1; 1; 4; 4])) as [x|e] eqn:E.
  - exact (patch_embedding_projects_patches tiny_config []
             (vit_shapes tiny_config) (vit_at tiny_config 0)
             (zero_store (vit_shapes tiny_config)) (zeros [1; 1; 4; 4]) x
             1 4 4 eq_refl (store_of_matches _ _) eq_refl E 0 3 1).
  - assert (Hok : is_ok (ViT.patch_embed (zero_store (vit_shapes tiny_config))
                           (vit_at tiny_config 0) (zeros [1; 1; 4; 4]))
                  = true) by (vm_compute; reflexivity).
    rewrite E in Hok. discriminate.
Defined.

(** ** Draws of the dropout layers in training mode *)












(** ** No masking *)



(** ** Evaluation mode *)

Lemma free_lift {B : backend} {A} (r : result A) :
  generator_free (slift (S := gen B) r).
Proof. now exists r. Qed.

Lemma free_ret {B : backend} {A} (a : A) :
  generator_free (sret (S := gen B) a).
Proof. now exists (Ok a). Qed.

Lemma free_bind {B : backend} {A C} (c : Fwd B A) (k : A -> Fwd B C) :
  generator_free c -> (forall a, generator_free (k a)) ->
  generator_free (sbind c k).
Proof.
  intros [r Hr] Hk. destruct r as [a|e].
  - destruct (Hk a) as [r' Hr']. exists r'. intros g.
    unfold sbind. rewrite Hr. cbn [slift]. apply Hr'.
  - exists (Raise e). intros g. unfold sbind. now rewrite Hr.
Qed.

Lemma free_dropout (B : backend) d x : generator_free (F_dropout B false d x).
Proof. now exists (Ok x). Qed.

Lemma free_attention (B : backend) th m x :
  generator_free (Attention.forward B th false m x).
Proof.
  unfold Attention.forward.
  apply free_bind; [apply free_lift | intros ?].
  apply free_bind; [apply free_lift | intros ?].
  apply free_dropout.
Qed.

Lemma free_feed_forward (B : backend) th m x :
  generator_free (FeedForward.forward B th false m x).
Proof.
  unfold FeedForward.forward.
  apply free_bind; [apply free_lift | intros ?].
  apply free_bind; [apply free_dropout | intros ?].
  apply free_bind; [apply free_lift | intros ?].
  apply free_dropout.
Qed.

Lemma free_block (B : backend) th l x :
  generator_free (Transformer.forward_block B th false l x).
Proof.
  destruct l as [attn ff]. unfold Transformer.forward_block, PreNorm.forward.
  apply free_bind.
  { apply free_bind; [apply free_lift | intros ?]. apply free_attention. }
  intros ?. apply free_bind; [apply free_lift | intros ?].
  apply free_bind.
  { apply free_bind; [apply free_lift | intros ?]. apply free_feed_forward. }
  intros ?. apply free_lift.
Qed.

Lemma free_layers (B : backend) th ls x :
  generator_free (Transformer.forward_layers B th false ls x).
Proof.
  revert x. induction ls as [|l ls IH]; intros x; simpl.
  - apply free_ret.
  - apply free_bind; [apply free_block | intros ?; apply IH].
Qed.

Lemma free_forward (B : backend) th m img :
  generator_free (ViT.forward B th false m img).
Proof.
  unfold ViT.forward.
  apply free_bind; [apply free_lift | intros ?].
  apply free_bind; [apply free_lift | intros ?].
  apply free_bind; [apply free_lift | intros ?].
  apply free_bind; [apply free_dropout | intros ?].
  apply free_bind; [apply free_layers | intros ?].
  apply free_bind; [apply free_lift | intros ?].
  apply free_bind; [apply free_lift | intros ?].
  apply free_lift.
Qed.

(** X10: in evaluation mode the forward pass of any model does not depend
    on the state of the random generator, and leaves it as it is, whatever
    the dropout probabilities. *)
Theorem eval_forward_leaves_generator (B : backend) (th : store) (m : ViT.t)
  (img : tensor) (g1 g2 : gen B) :
  output (ViT.forward B th false m img g1)
  = output (ViT.forward B th false m img g2)
  /\ (forall out g', ViT.forward B th false m img g1 = Ok (out, g') ->
                     g' = g1).
Proof.
  destruct (free_forward B th m img) as [r Hr]. rewrite !Hr. split.
  - destruct r; reflexivity.
  - intros out g'. destruct r; simpl; congruence.
Qed.

Lemma eval_forward_leaves_generator_witness :
  match ViT.forward counting_backend (zero_store (vit_shapes tiny_config))
          false (vit_at tiny_config 0) (zeros [1; 1; 4; 4]) 7%nat with
  | Ok (_, g') => g' = 7%nat
  | Raise _ => False
  end.
Proof.
  destruct (ViT.forward counting_backend (zero_store (vit_shapes tiny_config))
              false (vit_at tiny_config 0) (zeros [1; 1; 4; 4]) 7%nat)
    as [[out g']|e] eqn:E.
  - exact (proj2 (eval_forward_leaves_generator counting_backend
                    (zero_store (vit_shapes tiny_config))
                    (vit_at tiny_config 0) (zeros [1; 1; 4; 4])
                    7%nat 7%nat) out g' E).
  - assert (Hok : is_ok (ViT.forward counting_backend
                           (zero_store (vit_shapes tiny_config)) false
                           (vit_at tiny_config 0) (zeros [1; 1; 4; 4]) 7%nat)
                  = true) by (vm_compute; reflexivity).
    rewrite E in Hok. discriminate.
Defined.

(** ** The images of a batch do not interact *)

Lemma rsum_ext n f g :
  (forall k, 0 <= k < n -> f k = g k) -> rsum n f = rsum n g.
Proof.
  intros H. unfold rsum.
  assert (Hn : forall m, (m <= Z.to_nat n)%nat ->
                         rsum_nat m f = rsum_nat m g).
  { induction m as [|m IH]; intros Hm; [reflexivity|]. simpl.
    rewrite IH by lia. rewrite H by lia. reflexivity. }
  now apply Hn.
Qed.

Lemma in_range_1 a rest :
  in_range [a] rest <-> exists k, rest = [k] /\ 0 <= k < a.
Proof.
  unfold in_range. split.
  - intros H. inversion H as [|? k ? r1 Hk H1]; subst.
    inversion H1; subst. eauto.
  - intros (k & -> & Hk). repeat constructor; lia.
Qed.

Lemma in_range_2 a b rest :
  in_range [a; b] rest
  <-> exists j k, rest = [j; k] /\ 0 <= j < a /\ 0 <= k < b.
Proof.
  unfold in_range. split.
  - intros H. inversion H as [|? j ? r1 Hj H1]; subst.
    inversion H1 as [|? k ? r2 Hk H2]; subst. inversion H2; subst. eauto.
  - intros (j & k & -> & Hj & Hk). repeat constructor; lia.
Qed.

Lemma in_range_3 a b c rest :
  in_range [a; b; c] rest
  <-> exists i j k,
        rest = [i; j; k] /\ 0 <= i < a /\ 0 <= j < b /\ 0 <= k < c.
Proof.
  unfold in_range. split.
  - intros H. inversion H as [|? i ? r1 Hi H1]; subst.
    inversion H1 as [|? j ? r2 Hj H2]; subst.
    inversion H2 as [|? k ? r3 Hk H3]; subst. inversion H3; subst.
    eauto 8.
  - intros (i & j & k & -> & Hi & Hj & Hk). repeat constructor; lia.
Qed.

Section Images.
Variables ib ib' b b' : Z.

Lemma same_image_1 d x x' :
  0 <= ib < b /\ 0 <= ib' < b' ->
  shape x = [b; d] -> shape x' = [b'; d] ->
  (forall k, 0 <= k < d -> at_ x [ib; k] = at_ x' [ib'; k]) ->
  same_image ib ib' b b' [d] x x'.
Proof.
  intros Hbd Hx Hx' H. split; [exact Hbd|]. split; [exact Hx|].
  split; [exact Hx'|].
  intros rest Hr. apply in_range_1 in Hr as (k & -> & Hk). now apply H.
Qed.

Lemma same_image_1_at d x x' k :
  same_image ib ib' b b' [d] x x' -> 0 <= k < d ->
  at_ x [ib; k] = at_ x' [ib'; k].
Proof.
  intros (_ & _ & _ & H) Hk. apply H. apply in_range_1. eauto.
Qed.

Lemma same_image_2 n d x x' :
  0 <= ib < b /\ 0 <= ib' < b' ->
  shape x = [b; n; d] -> shape x' = [b'; n; d] ->
  (forall j k, 0 <= j < n -> 0 <= k < d ->
               at_ x [ib; j; k] = at_ x' [ib'; j; k]) ->
  same_image ib ib' b b' [n; d] x x'.
Proof.
  intros Hbd Hx Hx' H. split; [exact Hbd|]. split; [exact Hx|].
  split; [exact Hx'|].
  intros rest Hr. apply in_range_2 in Hr as (j & k & -> & Hj & Hk).
  now apply H.
Qed.

Lemma same_image_2_at n d x x' j k :
  same_image ib ib' b b' [n; d] x x' -> 0 <= j < n -> 0 <= k < d ->
  at_ x [ib; j; k] = at_ x' [ib'; j; k].
Proof.
  intros (_ & _ & _ & H) Hj Hk. apply H. apply in_range_2. eauto.
Qed.

Lemma same_image_3 h n d x x' :
  0 <= ib < b /\ 0 <= ib' < b' ->
  shape x = [b; h; n; d] -> shape x' = [b'; h; n; d] ->
  (forall i j k, 0 <= i < h -> 0 <= j < n -> 0 <= k < d ->
                 at_ x [ib; i; j; k] = at_ x' [ib'; i; j; k]) ->
  same_image ib ib' b b' [h; n; d] x x'.
Proof.
  intros Hbd Hx Hx' H. split; [exact Hbd|]. split; [exact Hx|].
  split; [exact Hx'|].
  intros rest Hr. apply in_range_3 in Hr as (i & j & k & -> & Hi & Hj & Hk).
  now apply H.
Qed.

Lemma same_image_3_at h n d x x' i j k :
  same_image ib ib' b b' [h; n; d] x x' ->
  0 <= i < h -> 0 <= j < n -> 0 <= k < d ->
  at_ x [ib; i; j; k] = at_ x' [ib'; i; j; k].
Proof.
  intros (_ & _ & _ & H) Hi Hj Hk. apply H. apply in_range_3. eauto 8.
Qed.

Lemma same_forward_bind {B : backend} s s' (c c' : Fwd B tensor)
  (k k' : tensor -> Fwd B tensor) :
  same_image_forward ib ib' b b' s c c' ->
  (forall y y', same_image ib ib' b b' s y y' ->
                same_image_forward ib ib' b b' s' (k y) (k' y')) ->
  same_image_forward ib ib' b b' s' (sbind c k) (sbind c' k').
Proof.
  intros Hc Hk g. destruct (Hc g) as (y & y' & g1 & E & E' & Hy).
  unfold sbind. rewrite E, E'. now apply Hk.
Qed.

Lemma same_forward_lift {B : backend} s (r r' : result tensor) :
  same_image_result ib ib' b b' s r r' ->
  same_image_forward ib ib' b b' s (slift (S := gen B) r) (slift r').
Proof.
  intros (y & y' & -> & -> & Hy) g. now exists y, y', g.
Qed.

(** *** The layers *)

Lemma linear_same_2 th l n i o x x' :
  shape (th (lin_weight l)) = [o; i] ->
  match lin_bias l with
  | Some bi => shape (th bi) = [o]
  | None => True
  end ->
  same_image ib ib' b b' [n; i] x x' ->
  same_image_result ib ib' b b' [n; o] (F_linear th l x) (F_linear th l x').
Proof.
  intros Hw Hb Hxx. pose proof Hxx as (Hbd & Hx & Hx' & _).
  destruct (linear_shape th l x [b; n] i o Hw Hb Hx) as (y & Ey & Hy).
  destruct (linear_shape th l x' [b'; n] i o Hw Hb Hx') as (y' & Ey' & Hy').
  exists y, y'. split; [exact Ey|]. split; [exact Ey'|].
  apply same_image_2; [exact Hbd | exact Hy | exact Hy' |]. intros j k Hj Hk.
  revert Ey Ey'. unfold F_linear.
  rewrite Hw, Hx, Hx'. cbn [rev app]. rewrite Z.eqb_refl.
  assert (Hsum : rsum i (fun u => at_ x (lead [ib; j; k] ++ [u])
                                  * at_ (th (lin_weight l))
                                      [lasti [ib; j; k]; u])%R
                 = rsum i (fun u => at_ x' (lead [ib'; j; k] ++ [u])
                                    * at_ (th (lin_weight l))
                                        [lasti [ib'; j; k]; u])%R).
  { apply rsum_ext. intros u Hu. cbn [lead List.removelast app].
    now rewrite (same_image_2_at n i x x' j u Hxx Hj Hu). }
  destruct (lin_bias l) as [bi|].
  - destruct (shape_eqb _ _); [|discriminate].
    intros [= <-] [= <-]. cbn [at_]. now rewrite Hsum.
  - intros [= <-] [= <-]. cbn [at_]. exact Hsum.
Qed.

Lemma linear_same_1 th l i o x x' :
  shape (th (lin_weight l)) = [o; i] ->
  match lin_bias l with
  | Some bi => shape (th bi) = [o]
  | None => True
  end ->
  same_image ib ib' b b' [i] x x' ->
  same_image_result ib ib' b b' [o] (F_linear th l x) (F_linear th l x').
Proof.
  intros Hw Hb Hxx. pose proof Hxx as (Hbd & Hx & Hx' & _).
  destruct (linear_shape th l x [b] i o Hw Hb Hx) as (y & Ey & Hy).
  destruct (linear_shape th l x' [b'] i o Hw Hb Hx') as (y' & Ey' & Hy').
  exists y, y'. split; [exact Ey|]. split; [exact Ey'|].
  apply same_image_1; [exact Hbd | exact Hy | exact Hy' |]. intros k Hk.
  revert Ey Ey'. unfold F_linear.
  rewrite Hw, Hx, Hx'. cbn [rev app]. rewrite Z.eqb_refl.
  assert (Hsum : rsum i (fun u => at_ x (lead [ib; k] ++ [u])
                                  * at_ (th (lin_weight l))
                                      [lasti [ib; k]; u])%R
                 = rsum i (fun u => at_ x' (lead [ib'; k] ++ [u])
                                    * at_ (th (lin_weight l))
                                        [lasti [ib'; k]; u])%R).
  { apply rsum_ext. intros u Hu. cbn [lead List.removelast app].
    now rewrite (same_image_1_at i x x' u Hxx Hu). }
  destruct (lin_bias l) as [bi|].
  - destruct (shape_eqb _ _); [|discriminate].
    intros [= <-] [= <-]. cbn [at_]. now rewrite Hsum.
  - intros [= <-] [= <-]. cbn [at_]. exact Hsum.
Qed.

(** The normalised row of a layer normalisation is a function of the row. *)
Lemma layer_norm_row d (row row' : Z -> R) (k : Z) (w c : R) :
  (forall u, 0 <= u < d -> row u = row' u) -> 0 <= k < d ->
  ((row k - rsum d row / IZR d)
   / sqrt (rsum d (fun u => (row u - rsum d row / IZR d)
                            * (row u - rsum d row / IZR d)) / IZR d
           + ln_eps) * w + c)%R
  = ((row' k - rsum d row' / IZR d)
     / sqrt (rsum d (fun u => (row' u - rsum d row' / IZR d)
                              * (row' u - rsum d row' / IZR d)) / IZR d
             + ln_eps) * w + c)%R.
Proof.
  intros H Hk. rewrite (rsum_ext d row row' H), (H k Hk).
  rewrite (rsum_ext d
             (fun u => (row u - rsum d row' / IZR d)
                       * (row u - rsum d row' / IZR d))%R
             (fun u => (row' u - rsum d row' / IZR d)
                       * (row' u - rsum d row' / IZR d))%R).
  - reflexivity.
  - intros u Hu. now rewrite (H u Hu).
Qed.

Lemma layer_norm_same_2 th ln n d x x' :
  shape (th (ln_weight ln)) = [d] ->
  shape (th (ln_bias ln)) = [d] ->
  same_image ib ib' b b' [n; d] x x' ->
  same_image_result ib ib' b b' [n; d]
    (F_layer_norm th ln x) (F_layer_norm th ln x').
Proof.
  intros Hw Hb Hxx. pose proof Hxx as (Hbd & Hx & Hx' & _).
  unfold F_layer_norm. rewrite Hw, Hb, Hx, Hx'. cbn [rev app].
  rewrite Z.eqb_refl, shape_eqb_refl. cbn [andb].
  eexists. eexists. split; [reflexivity|]. split; [reflexivity|].
  apply same_image_2; [exact Hbd | reflexivity | reflexivity |].
  intros j k Hj Hk.
  cbn [at_ lead lasti List.removelast List.last app].
  apply (layer_norm_row d (fun u => at_ x [ib; j; u])
           (fun u => at_ x' [ib'; j; u]) k); [|exact Hk].
  intros u Hu. now apply (same_image_2_at n d).
Qed.

Lemma layer_norm_same_1 th ln d x x' :
  shape (th (ln_weight ln)) = [d] ->
  shape (th (ln_bias ln)) = [d] ->
  same_image ib ib' b b' [d] x x' ->
  same_image_result ib ib' b b' [d]
    (F_layer_norm th ln x) (F_layer_norm th ln x').
Proof.
  intros Hw Hb Hxx. pose proof Hxx as (Hbd & Hx & Hx' & _).
  unfold F_layer_norm. rewrite Hw, Hb, Hx, Hx'. cbn [rev app].
  rewrite Z.eqb_refl, shape_eqb_refl. cbn [andb].
  eexists. eexists. split; [reflexivity|]. split; [reflexivity|].
  apply same_image_1; [exact Hbd | reflexivity | reflexivity |]. intros k Hk.
  cbn [at_ lead lasti List.removelast List.last app].
  apply (layer_norm_row d (fun u => at_ x [ib; u])
           (fun u => at_ x' [ib'; u]) k); [|exact Hk].
  intros u Hu. now apply (same_image_1_at d).
Qed.

Lemma gelu_same (B : backend) s x x' :
  same_image ib ib' b b' s x x' ->
  same_image ib ib' b b' s (F_gelu B x) (F_gelu B x').
Proof.
  intros (Hbd & Hx & Hx' & H). split; [exact Hbd|]. split; [exact Hx|].
  split; [exact Hx'|].
  intros rest Hr. cbn [F_gelu at_]. now rewrite (H rest Hr).
Qed.

(** In training mode the mask is drawn for the shape of the whole batch:
    the two batches get the same mask when they have the same size. *)
Lemma dropout_same (B : backend) training d s x x' :
  (training = true -> b = b' /\ ib = ib') ->
  same_image ib ib' b b' s x x' ->
  same_image_forward ib ib' b b' s
    (F_dropout B training d x) (F_dropout B training d x').
Proof.
  intros Htr (Hbd & Hx & Hx' & H) g. unfold F_dropout. destruct training.
  - destruct (Htr eq_refl) as (Eb & Ei).
    assert (Hs : shape x' = shape x) by (rewrite Hx, Hx'; now rewrite Eb).
    rewrite Hs. destruct (uniform B g (shape x)) as [u g'].
    eexists. eexists. exists g'. split; [reflexivity|].
    split; [reflexivity|]. split; [exact Hbd|]. split; [exact Hx|].
    split; [now rewrite <- Hs|].
    intros rest Hr. cbn [at_]. rewrite (H rest Hr), <- Ei. reflexivity.
  - exists x, x', g. split; [reflexivity|]. split; [reflexivity|].
    split; [exact Hbd|]. split; [exact Hx|]. split; [exact Hx'|]. exact H.
Qed.

Lemma bindex_3 a n d i j k :
  0 <= i < a -> 0 <= j < n -> 0 <= k < d ->
  bindex [a; n; d] [i; j; k] = [i; j; k].
Proof.
  intros Hi Hj Hk. unfold bindex. cbn [rev app bindex_rev].
  destruct (Z.eqb_spec d 1), (Z.eqb_spec n 1), (Z.eqb_spec a 1);
    repeat f_equal; lia.
Qed.

Lemma tadd_same n d x x' y y' :
  same_image ib ib' b b' [n; d] x x' ->
  same_image ib ib' b b' [n; d] y y' ->
  same_image_result ib ib' b b' [n; d] (tadd x y) (tadd x' y').
Proof.
  intros Hxx Hyy. pose proof Hxx as (Hbd & Hx & Hx' & _).
  pose proof Hyy as (_ & Hy & Hy' & _).
  unfold tadd, broadcast. rewrite Hx, Hx', Hy, Hy', !broadcast_rev_same.
  rewrite !rev_involutive.
  eexists. eexists. split; [reflexivity|]. split; [reflexivity|].
  apply same_image_2; [exact Hbd | reflexivity | reflexivity |].
  intros j k Hj Hk. destruct Hbd as (Hib & Hib').
  cbn [at_]. rewrite !bindex_3 by assumption.
  now rewrite (same_image_2_at n d x x' j k Hxx Hj Hk),
    (same_image_2_at n d y y' j k Hyy Hj Hk).
Qed.

(** *** Attention *)

Lemma chunk3_same n dim y y' :
  0 < dim ->
  same_image ib ib' b b' [n; dim * 3] y y' ->
  exists t0 t1 t2 t0' t1' t2',
    chunk3 y = Ok [t0; t1; t2] /\ chunk3 y' = Ok [t0'; t1'; t2']
    /\ same_image ib ib' b b' [n; dim] t0 t0'
    /\ same_image ib ib' b b' [n; dim] t1 t1'
    /\ same_image ib ib' b b' [n; dim] t2 t2'.
Proof.
  intros Hd Hyy. pose proof Hyy as (Hbd & Hy & Hy' & _).
  unfold chunk3. rewrite Hy, Hy'. cbn [rev app]. cbv zeta.
  assert (Hc : (dim * 3 + 2) / 3 = dim).
  { symmetry. apply (Z.div_unique _ _ _ 2); lia. }
  rewrite Hc.
  assert (Hn : (dim * 3 + dim - 1) / dim = 3).
  { symmetry. apply (Z.div_unique _ _ _ (dim - 1)); lia. }
  rewrite Hn.
  destruct (Z.eqb_spec (dim * 3) 0) as [E0|E0]; [lia|].
  change (Z.to_nat 3) with 3%nat.
  cbn [seq map Z.of_nat Pos.of_succ_nat Pos.succ].
  do 6 eexists. split; [reflexivity|]. split; [reflexivity|].
  split; [|split];
    (apply same_image_2;
     [exact Hbd
     | cbn [shape rev app]; do 3 f_equal; lia
     | cbn [shape rev app]; do 3 f_equal; lia
     | intros j k Hj Hk;
       cbn [at_ lead lasti List.removelast List.last app];
       apply (same_image_2_at n (dim * 3) y y'); try assumption; lia]).
Qed.

Lemma ravel_heads n h d i j hh e :
  ravel [b; n; h; d] [i; j; hh; e] = ravel [b; n; h * d] [i; j; hh * d + e].
Proof. cbn [ravel numel fold_right]. ring. Qed.

Lemma ravel_heads' n h d i j hh e :
  ravel [b'; n; h; d] [i; j; hh; e]
  = ravel [b'; n; h * d] [i; j; hh * d + e].
Proof. cbn [ravel numel fold_right]. ring. Qed.

Lemma split_heads_same n h D t t' :
  0 < n -> 0 < h -> D mod h = 0 ->
  same_image ib ib' b b' [n; D] t t' ->
  same_image_result ib ib' b b' [h; n; D / h]
    (rbind (reshape_infer [b; n; h] t) transpose12)
    (rbind (reshape_infer [b'; n; h] t') transpose12).
Proof.
  intros Hn Hh Hm Htt. pose proof Htt as (Hbd & Ht & Ht' & _).
  assert (Hb : 0 < b) by lia. assert (Hb' : 0 < b') by lia.
  destruct (split_heads_shape b n h D t Hb Hn Hh Hm Ht) as (q & Eq & Hq).
  destruct (split_heads_shape b' n h D t' Hb' Hn Hh Hm Ht')
    as (q' & Eq' & Hq').
  exists q, q'. split; [exact Eq|]. split; [exact Eq'|].
  apply same_image_3; [exact Hbd | exact Hq | exact Hq' |].
  intros hh j e Hhh Hj He.
  unfold rbind in Eq, Eq'.
  destruct (reshape_infer [b; n; h] t) as [r|] eqn:Er; [|discriminate].
  destruct (reshape_infer [b'; n; h] t') as [r'|] eqn:Er'; [|discriminate].
  assert (Hsr : shape r = [b; n; h; D / h]).
  { destruct (shape r) as [|r0 [|r1 [|r2 rs]]] eqn:Esr;
      try (unfold transpose12 in Eq; rewrite Esr in Eq; discriminate).
    pose proof (transpose12_shape r q _ _ _ _ Esr Eq) as Hsq.
    rewrite Hq in Hsq. now injection Hsq as <- <- <- <-. }
  assert (Hsr' : shape r' = [b'; n; h; D / h]).
  { destruct (shape r') as [|r0 [|r1 [|r2 rs]]] eqn:Esr;
      try (unfold transpose12 in Eq'; rewrite Esr in Eq'; discriminate).
    pose proof (transpose12_shape r' q' _ _ _ _ Esr Eq') as Hsq.
    rewrite Hq' in Hsq. now injection Hsq as <- <- <- <-. }
  rewrite (transpose12_at _ _ _ _ _ _ Eq), (transpose12_at _ _ _ _ _ _ Eq').
  rewrite (reshape_infer_at _ _ _ _ Er), (reshape_infer_at _ _ _ _ Er').
  rewrite Ht, Ht', Hsr, Hsr', ravel_heads, ravel_heads'.
  assert (HD : h * (D / h) = D) by (symmetry; now apply exact_division).
  rewrite HD.
  assert (Hr : 0 <= hh * (D / h) + e < D) by nia.
  rewrite !unravel_ravel3 by assumption.
  now apply (same_image_2_at n D).
Qed.

Lemma unravel_merged a n h d i j k :
  0 < h -> 0 < d -> 0 <= j < n -> 0 <= k < h * d ->
  unravel [a; n; h; d] (ravel [a; n; h * d] [i; j; k])
  = [i; j; k / d; k mod d].
Proof.
  intros Hh Hd Hj Hk. cbn [ravel unravel numel fold_right].
  rewrite !Z.mul_1_r, !Z.add_0_r, Z.div_1_r.
  assert (Hr : 0 <= j * (h * d) + k < n * (h * d)) by nia.
  assert (E1 : (i * (n * (h * d)) + (j * (h * d) + k)) / (n * (h * d)) = i).
  { rewrite Z.div_add_l by nia. rewrite Z.div_small by exact Hr. lia. }
  assert (E2 : (i * (n * (h * d)) + (j * (h * d) + k)) mod (n * (h * d))
               = j * (h * d) + k).
  { rewrite Z.add_comm, Z.mod_add by nia. now apply Z.mod_small. }
  rewrite E1, E2.
  assert (E3 : (j * (h * d) + k) / (h * d) = j).
  { rewrite Z.div_add_l by nia. rewrite Z.div_small by exact Hk. lia. }
  assert (E4 : (j * (h * d) + k) mod (h * d) = k).
  { rewrite Z.add_comm, Z.mod_add by nia. now apply Z.mod_small. }
  now rewrite E3, E4.
Qed.

Lemma merge_heads_same n h d o o' :
  0 < n -> 0 < h -> 0 < d ->
  same_image ib ib' b b' [h; n; d] o o' ->
  same_image_result ib ib' b b' [n; h * d]
    (rbind (transpose12 o) (reshape_infer [b; n]))
    (rbind (transpose12 o') (reshape_infer [b'; n])).
Proof.
  intros Hn Hh Hd Hoo. pose proof Hoo as (Hbd & Ho & Ho' & _).
  assert (Hb : 0 < b) by lia. assert (Hb' : 0 < b') by lia.
  destruct (merge_heads_shape b n h d o Hb Hn Ho) as (z & Ez & Hz).
  destruct (merge_heads_shape b' n h d o' Hb' Hn Ho') as (z' & Ez' & Hz').
  exists z, z'. split; [exact Ez|]. split; [exact Ez'|].
  apply same_image_2; [exact Hbd | exact Hz | exact Hz' |]. intros j k Hj Hk.
  unfold rbind in Ez, Ez'.
  destruct (transpose12 o) as [u|] eqn:Eu; [|discriminate].
  destruct (transpose12 o') as [u'|] eqn:Eu'; [|discriminate].
  rewrite (reshape_infer_at _ _ _ _ Ez), (reshape_infer_at _ _ _ _ Ez').
  rewrite (transpose12_shape o u _ _ _ _ Ho Eu),
    (transpose12_shape o' u' _ _ _ _ Ho' Eu'), Hz, Hz'.
  rewrite !unravel_merged by assumption.
  rewrite (transpose12_at _ _ _ _ _ _ Eu), (transpose12_at _ _ _ _ _ _ Eu').
  apply (same_image_3_at h n d o o'); [exact Hoo | | exact Hj |].
  - split; [apply Z.div_pos; lia | apply Z.div_lt_upper_bound; lia].
  - apply Z.mod_pos_bound. lia.
Qed.

Lemma qkv_same th m n dim x x' :
  shape (th (lin_weight (Attention.to_qkv m))) = [dim * 3; dim] ->
  lin_bias (Attention.to_qkv m) = None ->
  0 < n -> 0 < Attention.heads m -> 0 < dim ->
  dim mod Attention.heads m = 0 ->
  same_image ib ib' b b' [n; dim] x x' ->
  exists q k v q' k' v',
    Attention.qkv th m x = Ok (q, k, v)
    /\ Attention.qkv th m x' = Ok (q', k', v')
    /\ same_image ib ib' b b'
         [Attention.heads m; n; dim / Attention.heads m] q q'
    /\ same_image ib ib' b b'
         [Attention.heads m; n; dim / Attention.heads m] k k'
    /\ same_image ib ib' b b'
         [Attention.heads m; n; dim / Attention.heads m] v v'.
Proof.
  intros Hw Hbias Hn Hh Hd Hm Hxx. pose proof Hxx as (Hbd & Hx & Hx' & _).
  unfold Attention.qkv. rewrite Hx, Hx'.
  assert (Hnb : match lin_bias (Attention.to_qkv m) with
                | Some b0 => shape (th b0) = [dim * 3]
                | None => True
                end) by now rewrite Hbias.
  destruct (linear_same_2 th (Attention.to_qkv m) n dim (dim * 3) x x'
              Hw Hnb Hxx) as (y & y' & Ey & Ey' & Hyy).
  rewrite Ey, Ey'. cbn [rbind].
  destruct (chunk3_same n dim y y' Hd Hyy)
    as (t0 & t1 & t2 & t0' & t1' & t2' & Ec & Ec' & H0 & H1 & H2).
  rewrite Ec, Ec'. cbn [rbind rmapM].
  destruct (split_heads_same n _ dim t0 t0' Hn Hh Hm H0)
    as (q & q' & Eq & Eq' & Hq).
  destruct (split_heads_same n _ dim t1 t1' Hn Hh Hm H1)
    as (k & k' & Ek & Ek' & Hk).
  destruct (split_heads_same n _ dim t2 t2' Hn Hh Hm H2)
    as (v & v' & Ev & Ev' & Hv).
  unfold rbind in *. rewrite Eq, Ek, Ev, Eq', Ek', Ev'.
  now exists q, k, v, q', k', v'.
Qed.

Lemma probabilities_same m r h n d q q' k k' :
  Attention.scale m = PyFloat r ->
  same_image ib ib' b b' [h; n; d] q q' ->
  same_image ib ib' b b' [h; n; d] k k' ->
  same_image_result ib ib' b b' [h; n; n]
    (Attention.probabilities m q k) (Attention.probabilities m q' k').
Proof.
  intros Hsc Hqq Hkk. pose proof Hqq as (Hbd & Hq & Hq' & _).
  pose proof Hkk as (_ & Hk & Hk' & _).
  unfold Attention.probabilities, einsum_qk.
  rewrite Hq, Hk, Hq', Hk', !Z.eqb_refl, Hsc. cbn [andb rbind].
  unfold softmax_last. cbn [scale_by shape rev app].
  eexists. eexists. split; [reflexivity|]. split; [reflexivity|].
  apply same_image_3; [exact Hbd | reflexivity | reflexivity |].
  intros hh i j Hhh Hi Hj.
  cbn [at_ scale_by lead lasti List.removelast List.last app].
  assert (Hdots : forall u, 0 <= u < n ->
            rsum d (fun z => at_ q [ib; hh; i; z] * at_ k [ib; hh; u; z])%R
            = rsum d (fun z => at_ q' [ib'; hh; i; z]
                               * at_ k' [ib'; hh; u; z])%R).
  { intros u Hu. apply rsum_ext. intros z Hz.
    now rewrite (same_image_3_at h n d q q' hh i z Hqq Hhh Hi Hz),
      (same_image_3_at h n d k k' hh u z Hkk Hhh Hu Hz). }
  rewrite (Hdots j Hj). f_equal. apply rsum_ext. intros u Hu.
  now rewrite (Hdots u Hu).
Qed.

Lemma einsum_av_same h n d a a' v v' :
  same_image ib ib' b b' [h; n; n] a a' ->
  same_image ib ib' b b' [h; n; d] v v' ->
  same_image_result ib ib' b b' [h; n; d] (einsum_av a v) (einsum_av a' v').
Proof.
  intros Haa Hvv. pose proof Haa as (Hbd & Ha & Ha' & _).
  pose proof Hvv as (_ & Hv & Hv' & _).
  unfold einsum_av. rewrite Ha, Hv, Ha', Hv', !Z.eqb_refl. cbn [andb].
  eexists. eexists. split; [reflexivity|]. split; [reflexivity|].
  apply same_image_3; [exact Hbd | reflexivity | reflexivity |].
  intros hh i e Hhh Hi He. cbn [at_]. apply rsum_ext. intros u Hu.
  now rewrite (same_image_3_at h n n a a' hh i u Haa Hhh Hi Hu),
    (same_image_3_at h n d v v' hh u e Hvv Hhh Hu He).
Qed.

Lemma attend_same th m r n dim x x' :
  shape (th (lin_weight (Attention.to_qkv m))) = [dim * 3; dim] ->
  lin_bias (Attention.to_qkv m) = None ->
  Attention.scale m = PyFloat r ->
  0 < n -> 0 < Attention.heads m -> 0 < dim ->
  dim mod Attention.heads m = 0 ->
  same_image ib ib' b b' [n; dim] x x' ->
  same_image_result ib ib' b b' [n; dim]
    (Attention.attend th m x) (Attention.attend th m x').
Proof.
  intros Hw Hbias Hsc Hn Hh Hd Hm Hxx. pose proof Hxx as (Hbd & Hx & Hx' & _).
  destruct (qkv_same th m n dim x x' Hw Hbias Hn Hh Hd Hm Hxx)
    as (q & k & v & q' & k' & v' & Eqkv & Eqkv' & Hq & Hk & Hv).
  unfold Attention.attend. rewrite Hx, Hx', Eqkv, Eqkv'.
  cbn [rbind fst snd].
  destruct (probabilities_same m r _ _ _ q q' k k' Hsc Hq Hk)
    as (a & a' & Ea & Ea' & Ha).
  rewrite Ea, Ea'. cbn [rbind].
  destruct (einsum_av_same _ _ _ a a' v v' Ha Hv)
    as (o & o' & Eo & Eo' & Ho).
  rewrite Eo, Eo'. cbn [rbind].
  assert (HD : Attention.heads m * (dim / Attention.heads m) = dim)
    by (symmetry; now apply exact_division).
  assert (Hdh : 0 < dim / Attention.heads m) by nia.
  pose proof (merge_heads_same n _ _ o o' Hn Hh Hdh Ho) as G.
  rewrite HD in G. exact G.
Qed.

(** *** The blocks *)

Lemma attention_forward_same (B : backend) th training m r n dim x x' :
  (training = true -> b = b' /\ ib = ib') ->
  shape (th (lin_weight (Attention.to_qkv m))) = [dim * 3; dim] ->
  lin_bias (Attention.to_qkv m) = None ->
  shape (th (lin_weight (Attention.to_out m))) = [dim; dim] ->
  match lin_bias (Attention.to_out m) with
  | Some b0 => shape (th b0) = [dim]
  | None => True
  end ->
  Attention.scale m = PyFloat r ->
  0 < n -> 0 < Attention.heads m -> 0 < dim ->
  dim mod Attention.heads m = 0 ->
  same_image ib ib' b b' [n; dim] x x' ->
  same_image_forward ib ib' b b' [n; dim]
    (Attention.forward B th training m x)
    (Attention.forward B th training m x').
Proof.
  intros Htr Hw Hbias Hwo Hbo Hsc Hn Hh Hd Hm Hxx. unfold Attention.forward.
  apply (same_forward_bind [n; dim]).
  { apply same_forward_lift. apply (attend_same th m r n dim); assumption. }
  intros y y' Hyy. apply (same_forward_bind [n; dim]).
  { apply same_forward_lift. now apply (linear_same_2 th _ n dim dim). }
  intros z z' Hzz. now apply dropout_same.
Qed.

Lemma feed_forward_same (B : backend) th training m n dim mlp x x' :
  (training = true -> b = b' /\ ib = ib') ->
  shape (th (lin_weight (FeedForward.lin1 m))) = [mlp; dim] ->
  match lin_bias (FeedForward.lin1 m) with
  | Some b0 => shape (th b0) = [mlp]
  | None => True
  end ->
  shape (th (lin_weight (FeedForward.lin2 m))) = [dim; mlp] ->
  match lin_bias (FeedForward.lin2 m) with
  | Some b0 => shape (th b0) = [dim]
  | None => True
  end ->
  same_image ib ib' b b' [n; dim] x x' ->
  same_image_forward ib ib' b b' [n; dim]
    (FeedForward.forward B th training m x)
    (FeedForward.forward B th training m x').
Proof.
  intros Htr Hw1 Hb1 Hw2 Hb2 Hxx. unfold FeedForward.forward.
  apply (same_forward_bind [n; mlp]).
  { apply same_forward_lift. now apply (linear_same_2 th _ n dim mlp). }
  intros y y' Hyy. apply (same_forward_bind [n; mlp]).
  { apply dropout_same; [exact Htr|]. now apply gelu_same. }
  intros z z' Hzz. apply (same_forward_bind [n; dim]).
  { apply same_forward_lift. now apply (linear_same_2 th _ n mlp dim). }
  intros u u' Huu. now apply dropout_same.
Qed.

Lemma block_same (B : backend) th training heads r p k dim mlp n x x' :
  (training = true -> b = b' /\ ib = ib') ->
  block_stored th dim mlp k ->
  0 < n -> 0 < heads -> 0 < dim -> dim mod heads = 0 ->
  same_image ib ib' b b' [n; dim] x x' ->
  same_image_forward ib ib' b b' [n; dim]
    (Transformer.forward_block B th training
       (block_at heads (PyFloat r) p k) x)
    (Transformer.forward_block B th training
       (block_at heads (PyFloat r) p k) x').
Proof.
  intros Htr Hst Hn Hh Hd Hm Hxx.
  destruct (block_stored_cells _ _ _ _ Hst)
    as (C0 & C1 & C2 & C3 & C4 & C5 & C6 & C7 & C8 & C9 & C10).
  unfold Transformer.forward_block, block_at, PreNorm.forward.
  cbn [PreNorm.norm PreNorm.fn].
  apply (same_forward_bind [n; dim]).
  { apply (same_forward_bind [n; dim]).
    { apply same_forward_lift.
      apply (layer_norm_same_2 th _ n dim);
        [exact C3 | exact C4 | exact Hxx]. }
    intros y y' Hyy.
    apply (attention_forward_same B th training _ r n dim y y');
      try assumption; reflexivity. }
  intros a a' Haa. apply (same_forward_bind [n; dim]).
  { apply same_forward_lift. now apply tadd_same. }
  intros x1 x1' Hx1. apply (same_forward_bind [n; dim]).
  { apply (same_forward_bind [n; dim]).
    { apply same_forward_lift.
      apply (layer_norm_same_2 th _ n dim);
        [exact C9 | exact C10 | exact Hx1]. }
    intros y y' Hyy.
    apply (feed_forward_same B th training _ n dim mlp y y');
      assumption. }
  intros f f' Hff. apply same_forward_lift. now apply tadd_same.
Qed.

Lemma layers_same (B : backend) th training heads r p dim mlp count k n
  x x' :
  (training = true -> b = b' /\ ib = ib') ->
  (forall i, (i < count)%nat -> block_stored th dim mlp (k + 11 * i)) ->
  0 < n -> 0 < heads -> 0 < dim -> dim mod heads = 0 ->
  same_image ib ib' b b' [n; dim] x x' ->
  same_image_forward ib ib' b b' [n; dim]
    (Transformer.forward_layers B th training
       (blocks_at heads (PyFloat r) p k count) x)
    (Transformer.forward_layers B th training
       (blocks_at heads (PyFloat r) p k count) x').
Proof.
  intros Htr Hst Hn Hh Hd Hm. revert k x x' Hst.
  induction count as [|count IH]; intros k x x' Hst Hxx.
  - intros g. exists x, x', g. now split.
  - cbn [blocks_at Transformer.forward_layers].
    apply (same_forward_bind [n; dim]).
    + assert (Hb0 : block_stored th dim mlp k).
      { replace k with (k + 11 * 0)%nat by lia. apply Hst. lia. }
      apply (block_same B th training heads r p k dim mlp n x x');
        assumption.
    + intros y y' Hyy. apply IH; [|exact Hyy].
      intros i Hi. replace (k + 11 + 11 * i)%nat with (k + 11 * S i)%nat by lia.
      apply Hst. lia.
Qed.

(** *** The embedding and the head *)

Lemma patch_in_image P H W t u :
  0 < P -> P <= W -> 0 <= t < (H / P) * (W / P) -> 0 <= u < P ->
  0 <= t / (W / P) * P + u < H /\ 0 <= t mod (W / P) * P + u < W.
Proof.
  intros HP HW Ht Hu.
  assert (Hw : 0 < W / P) by (apply Z.div_str_pos; lia).
  assert (H1 : 0 <= t / (W / P)) by (apply Z.div_pos; lia).
  assert (H2 : t / (W / P) < H / P)
    by (apply Z.div_lt_upper_bound; [lia | nia]).
  assert (H3 : 0 <= t mod (W / P) < W / P) by (apply Z.mod_pos_bound; lia).
  assert (H4 : P * (H / P) <= H) by (apply Z.mul_div_le; lia).
  assert (H5 : P * (W / P) <= W) by (apply Z.mul_div_le; lia).
  split; nia.
Qed.

Lemma patch_embed_same c h th H W img img' :
  store_matches th (h ++ vit_shapes c) ->
  0 < ViT.patch_size c ->
  ViT.patch_size c <= H -> ViT.patch_size c <= W ->
  same_image ib ib' b b' [ViT.channels c; H; W] img img' ->
  same_image_result ib ib' b b'
    [(H / ViT.patch_size c) * (W / ViT.patch_size c); ViT.dim c]
    (ViT.patch_embed th (vit_at c (length h)) img)
    (ViT.patch_embed th (vit_at c (length h)) img').
Proof.
  intros Hst HP HH HW Hii. pose proof Hii as (Hbd & Hi & Hi' & _).
  destruct (patch_embed_returns c h th img b H W Hst HP Hi HH HW)
    as (x & Ex & Hx).
  destruct (patch_embed_returns c h th img' b' H W Hst HP Hi' HH HW)
    as (x' & Ex' & Hx').
  exists x, x'. split; [exact Ex|]. split; [exact Ex'|].
  apply same_image_2; [exact Hbd | exact Hx | exact Hx' |].
  intros t io Ht Hio.
  rewrite (patch_embed_entry c h th img x b H W Hst HP Hi Ex),
    (patch_embed_entry c h th img' x' b' H W Hst HP Hi' Ex').
  f_equal. apply rsum_ext. intros ic Hic. apply rsum_ext. intros u Hu.
  apply rsum_ext. intros v Hv.
  destruct (patch_in_image _ H W t u HP HW Ht Hu) as (Hr & _).
  destruct (patch_in_image _ H W t v HP HW Ht Hv) as (_ & Hc).
  now rewrite (same_image_3_at _ _ _ img img' ic _ _ Hii Hic Hr Hc).
Qed.

Lemma tokens_same c h th x x' :
  store_matches th (h ++ vit_shapes c) ->
  same_image ib ib' b b' [num_patches c; ViT.dim c] x x' ->
  same_image_result ib ib' b b' [num_patches c + 1; ViT.dim c]
    (ViT.tokens th (vit_at c (length h)) b x)
    (ViT.tokens th (vit_at c (length h)) b' x').
Proof.
  intros Hst Hxx. pose proof Hxx as (Hbd & Hx & Hx' & _).
  assert (Hb : 0 <= b) by lia. assert (Hb' : 0 <= b') by lia.
  destruct (tokens_returns c h th b x Hst Hb Hx) as (y & Ey & Hy).
  destruct (tokens_returns c h th b' x' Hst Hb' Hx') as (y' & Ey' & Hy').
  exists y, y'. split; [exact Ey|]. split; [exact Ey'|].
  apply same_image_2; [exact Hbd | exact Hy | exact Hy' |]. intros j k Hj Hk.
  rewrite (tokens_entry c h th b x y Hst Hx Ey) by lia.
  rewrite (tokens_entry c h th b' x' y' Hst Hx' Ey') by lia.
  destruct (Z.eqb_spec j 0) as [E|E]; [reflexivity|].
  f_equal.
  apply (same_image_2_at (num_patches c) (ViT.dim c) x x');
    [exact Hxx | lia | exact Hk].
Qed.

Lemma select_first_same n d x x' :
  0 < n ->
  same_image ib ib' b b' [n; d] x x' ->
  same_image_result ib ib' b b' [d] (select_first x) (select_first x').
Proof.
  intros Hn Hxx. pose proof Hxx as (Hbd & Hx & Hx' & _).
  unfold select_first. rewrite Hx, Hx'.
  assert (E : (0 <? n) = true) by now apply Z.ltb_lt.
  rewrite E. eexists. eexists. split; [reflexivity|]. split; [reflexivity|].
  apply same_image_1; [exact Hbd | reflexivity | reflexivity |]. intros k Hk.
  cbn [at_]. apply (same_image_2_at n d x x'); [exact Hxx | lia | exact Hk].
Qed.

End Images.

(** X20: the logits of an image depend on that image only.  When image
    [ib] of one batch and image [ib'] of another have the same pixels, a
    constructed model returns on both batches, and with the same logits
    for the two images, whatever the other images of the batches: in
    evaluation mode whatever the sizes of the batches and the positions of
    the image in them, in training mode for batches of one size and the
    image at one position, from the same state of the generator (a dropout
    mask is drawn for the whole batch).  No layer mixes the images of a
    batch. *)
Theorem images_do_not_interact (B : backend) (c : ViT.config) (h0 h' : heap)
  (m : ViT.t) (th : store) (training : bool) (img img' : tensor)
  (Bn Bn' H W ib ib' : Z) (g : gen B) :
  ViT.init c h0 = Ok (m, h') ->
  store_matches th h' ->
  0 < ViT.dim c -> 0 < ViT.heads c -> ViT.dim c mod ViT.heads c = 0 ->
  shape img = [Bn; ViT.channels c; H; W] ->
  shape img' = [Bn'; ViT.channels c; H; W] ->
  ViT.patch_size c <= H -> ViT.patch_size c <= W ->
  (H / ViT.patch_size c) * (W / ViT.patch_size c) = num_patches c ->
  0 <= ib < Bn -> 0 <= ib' < Bn' ->
  (training = true -> Bn = Bn' /\ ib = ib') ->
  (forall ic i j,
     0 <= ic < ViT.channels c -> 0 <= i < H -> 0 <= j < W ->
     at_ img [ib; ic; i; j] = at_ img' [ib'; ic; i; j]) ->
  exists out out' g',
    ViT.forward B th training m img g = Ok (out, g')
    /\ ViT.forward B th training m img' g = Ok (out', g')
    /\ forall k, 0 <= k < ViT.num_classes c ->
                 at_ out [ib; k] = at_ out' [ib'; k].
Proof.
  intros Hinit Hst Hd Hh Hm Himg Himg' HH HW HN Hib Hib' Htr Hsame.
  apply init_inv in Hinit as (-> & -> & HP & _).
  assert (HNpos : 0 < num_patches c)
    by (apply (patches_pos (ViT.patch_size c) H W); assumption).
  destruct (vit_store_head c h0 th Hst) as (E0 & E1 & E2 & E3).
  assert (Hii : same_image ib ib' Bn Bn' [ViT.channels c; H; W] img img')
    by (apply same_image_3; [split|..]; assumption).
  assert (Hfwd : same_image_forward ib ib' Bn Bn' [ViT.num_classes c]
                   (ViT.forward B th training (vit_at c (length h0)) img)
                   (ViT.forward B th training (vit_at c (length h0)) img')).
  { unfold ViT.forward. rewrite Himg, Himg'. intros g0.
    change (sbind (slift (Ok Bn)) ?k g0) with (k Bn g0).
    change (sbind (slift (Ok Bn')) ?k g0) with (k Bn' g0). cbv beta.
    revert g0.
    apply (same_forward_bind ib ib' Bn Bn' [num_patches c; ViT.dim c]).
    { apply same_forward_lift. rewrite <- HN.
      now apply patch_embed_same. }
    intros x0 x0' Hx0.
    apply (same_forward_bind ib ib' Bn Bn' [num_patches c + 1; ViT.dim c]).
    { apply same_forward_lift. now apply tokens_same. }
    intros x x' Hxx.
    apply (same_forward_bind ib ib' Bn Bn' [num_patches c + 1; ViT.dim c]).
    { now apply dropout_same. }
    intros x1 x1' Hx1.
    apply (same_forward_bind ib ib' Bn Bn' [num_patches c + 1; ViT.dim c]).
    { unfold Transformer.forward.
      cbn [vit_at ViT.transformer Transformer.layers].
      rewrite scale_of_float by assumption.
      apply (layers_same ib ib' Bn Bn' B th training (ViT.heads c)
               _ (ViT.dropout c) (ViT.dim c) (ViT.mlp_dim c)
               (Z.to_nat (ViT.depth c)) (length h0 + 4)
               (num_patches c + 1) x1 x1');
        try assumption; try lia.
      intros i Hi. now apply vit_store_block. }
    intros x2 x2' Hx2.
    apply (same_forward_bind ib ib' Bn Bn' [ViT.dim c]).
    { apply same_forward_lift.
      apply (select_first_same ib ib' Bn Bn' (num_patches c + 1)
               (ViT.dim c)); [lia | exact Hx2]. }
    intros x3 x3' Hx3.
    apply (same_forward_bind ib ib' Bn Bn' [ViT.dim c]).
    { apply same_forward_lift.
      apply (layer_norm_same_1 ib ib' Bn Bn' th _ (ViT.dim c));
        [exact E0 | exact E1 | exact Hx3]. }
    intros x4 x4' Hx4. apply same_forward_lift.
    apply (linear_same_1 ib ib' Bn Bn' th _ (ViT.dim c) (ViT.num_classes c));
      [exact E2 | exact E3 | exact Hx4]. }
  destruct (Hfwd g) as (out & out' & g' & Eo & Eo' & Hoo).
  exists out, out', g'. split; [exact Eo|]. split; [exact Eo'|].
  intros k Hk. now apply (same_image_1_at ib ib' Bn Bn' (ViT.num_classes c)).
Qed.

Lemma images_do_not_interact_witness :
  exists out out' g',
    ViT.forward still_backend (zero_store (vit_shapes tiny_config)) false
      (vit_at tiny_config 0)
      (Tensor [2; 1; 4; 4]
         (fun idx => match idx with 0 :: _ => 1%R | _ => 0%R end)) tt
    = Ok (out, g')
    /\ ViT.forward still_backend (zero_store (vit_shapes tiny_config)) false
         (vit_at tiny_config 0) (zeros [1; 1; 4; 4]) tt
       = Ok (out', g')
    /\ forall k, 0 <= k < 2 -> at_ out [1; k] = at_ out' [0; k].
Proof.
  apply (images_do_not_interact still_backend tiny_config []
           (vit_shapes tiny_config) (vit_at tiny_config 0)
           (zero_store (vit_shapes tiny_config)) false
           (Tensor [2; 1; 4; 4]
              (fun idx => match idx with 0 :: _ => 1%R | _ => 0%R end))
           (zeros [1; 1; 4; 4]) 2 1 4 4 1 0 tt).
  - reflexivity.
  - apply store_of_matches.
  - reflexivity.
  - reflexivity.
  - reflexivity.
  - reflexivity.
  - reflexivity.
  - simpl. lia.
  - simpl. lia.
  - reflexivity.
  - lia.
  - lia.
  - discriminate.
  - reflexivity.
Defined.

(** ** Training mode without dropout *)

Lemma same_lift {B : backend} {A} (r : result A) :
  same_outcome (slift (S := gen B) r) (slift r).
Proof. intros g g'. now destruct r. Qed.

Lemma same_ret {B : backend} {A} (a : A) :
  same_outcome (sret (S := gen B) a) (sret a).
Proof. intros g g'. reflexivity. Qed.

Lemma same_bind {B : backend} {A C} (c c' : Fwd B A) (k k' : A -> Fwd B C) :
  same_outcome c c' -> (forall a, same_outcome (k a) (k' a)) ->
  same_outcome (sbind c k) (sbind c' k').
Proof.
  intros Hc Hk g g'. specialize (Hc g g'). unfold sbind.
  destruct (c g) as [[a g1]|e], (c' g') as [[a' g1']|e']; simpl in Hc;
    try discriminate.
  - injection Hc as <-. apply Hk.
  - now injection Hc as <-.
Qed.

Lemma same_dropout (B : backend) d x :
  samples_nonneg B -> (drop_p d == 0)%Q ->
  same_outcome (F_dropout B true d x) (F_dropout B false d x).
Proof.
  intros Hu Hp g g'. unfold F_dropout.
  pose proof (Hu g (shape x)) as Hg.
  destruct (uniform B g (shape x)) as [u g1]. simpl in Hg. simpl.
  f_equal. destruct x as [s v]. simpl. f_equal.
  extensionality idx.
  assert (H0 : Q2R (drop_p d) = 0%R).
  { rewrite (Qeq_eqR _ _ Hp). unfold Q2R. simpl. lra. }
  rewrite H0. destruct (Rle_dec 0 (u idx)) as [_|Hn].
  - field.
  - destruct Hn. apply Hg.
Qed.

Lemma same_block (B : backend) th heads sc p n x :
  samples_nonneg B -> (p == 0)%Q ->
  same_outcome
    (Transformer.forward_block B th true (block_at heads sc p n) x)
    (Transformer.forward_block B th false (block_at heads sc p n) x).
Proof.
  intros Hu Hp.
  unfold Transformer.forward_block, block_at, PreNorm.forward,
    Attention.forward, FeedForward.forward.
  cbn [PreNorm.norm PreNorm.fn Attention.out_drop FeedForward.drop1
       FeedForward.drop2 Attention.to_out FeedForward.lin1 FeedForward.lin2].
  repeat first
    [ apply same_lift
    | apply same_dropout; [exact Hu | exact Hp]
    | apply same_bind; [|intros ?] ].
Qed.

Lemma same_layers (B : backend) th heads sc p count n x :
  samples_nonneg B -> (p == 0)%Q ->
  same_outcome
    (Transformer.forward_layers B th true (blocks_at heads sc p n count) x)
    (Transformer.forward_layers B th false (blocks_at heads sc p n count) x).
Proof.
  intros Hu Hp. revert n x.
  induction count as [|count IH]; intros n x;
    cbn [blocks_at Transformer.forward_layers].
  - apply same_ret.
  - apply same_bind; [now apply same_block | intros ?; apply IH].
Qed.

(** X11: with both dropout probabilities 0 (and samples of the generator
    that are not negative) a constructed model computes the same in
    training mode and in evaluation mode, whatever the states of the
    generator. *)
Theorem training_is_evaluation_without_dropout (B : backend)
  (c : ViT.config) (h0 h' : heap) (m : ViT.t) (th : store) (img : tensor)
  (g1 g2 : gen B) :
  ViT.init c h0 = Ok (m, h') ->
  (ViT.dropout c == 0)%Q -> (ViT.emb_dropout c == 0)%Q ->
  samples_nonneg B ->
  output (ViT.forward B th true m img g1)
  = output (ViT.forward B th false m img g2).
Proof.
  intros Hinit Hd He Hu. apply init_inv in Hinit as (-> & _).
  revert g1 g2.
  change (same_outcome (ViT.forward B th true (vit_at c (length h0)) img)
            (ViT.forward B th false (vit_at c (length h0)) img)).
  unfold ViT.forward, Transformer.forward.
  cbn [vit_at ViT.m_dropout ViT.transformer Transformer.layers].
  apply same_bind; [apply same_lift | intros ?].
  apply same_bind; [apply same_lift | intros ?].
  apply same_bind; [apply same_lift | intros ?].
  apply same_bind; [now apply same_dropout | intros ?].
  apply same_bind; [now apply same_layers | intros ?].
  apply same_bind; [apply same_lift | intros ?].
  apply same_bind; [apply same_lift | intros ?].
  apply same_lift.
Qed.

Lemma training_is_evaluation_without_dropout_witness :
  output (ViT.forward counting_backend (zero_store (vit_shapes tiny_config))
            true (vit_at tiny_config 0) (zeros [1; 1; 4; 4]) 0%nat)
  = output (ViT.forward counting_backend
              (zero_store (vit_shapes tiny_config))
              false (vit_at tiny_config 0) (zeros [1; 1; 4; 4]) 5%nat).
Proof.
  apply (training_is_evaluation_without_dropout counting_backend tiny_config
           [] (vit_shapes tiny_config)).
  - reflexivity.
  - reflexivity.
  - reflexivity.
  - intros g s idx. apply Rlt_le, Rinv_0_lt_compat, lt_0_INR. lia.
Defined.

(** ** Evaluation has no effect on the training state *)

Section Evaluation.
Context (B : backend) (E : collaborators B).

Lemma untouched_refl (w : world B E) : untouched w w.
Proof.
  repeat split. exists []. split; [now rewrite app_nil_r | constructor].
Qed.




Lemma observer_pure {A} (c : Script B E A) :
  (forall w, snd (c w) = w) -> observer c.
Proof. intros Hc w _. rewrite Hc. apply untouched_refl. Qed.








Lemma observer_read_model a : observer (read_model B E a).
Proof.
  apply observer_pure. intros w. unfold read_model.
  now destruct (models w !! a).
Qed.










End Evaluation.


(** ** A training step with every name bound *)

Section Training.
Context (B : backend) (E : collaborators B).

Ltac bound :=
  cbn [globals models rng disk events fold_left];
  rewrite ?lookup_insert_ne by done;
  first [ eassumption | apply lookup_insert_eq ].

Ltac names_bound :=
  repeat (apply Forall_cons; split; [eexists; bound|]); apply Forall_nil_2.

Lemma get_scaler_ok (w : world B E) n s :
  globals w !! n = Some (OScaler s) -> get_scaler B E n w = (Ok s, w).
Proof.
  intros H. unfold get_scaler.
  now rewrite (bind_ok B E _ _ _ _ _ (load_global_ok B E _ _ _ H)).
Qed.

Lemma get_optimizer_ok (w : world B E) n a o :
  globals w !! n = Some (OOptimizer a o) ->
  get_optimizer B E n w = (Ok (a, o), w).
Proof.
  intros H. unfold get_optimizer.
  now rewrite (bind_ok B E _ _ _ _ _ (load_global_ok B E _ _ _ H)).
Qed.

Lemma scaled_update_rng (st : train_state B E) data g :
  ts_rng (scaled_update B E st data g) = g.
Proof.
  unfold scaled_update.
  now destruct (GradScaler.step _ _ _ _ _) as [[sc o'] m'].
Qed.

(** X14: where every name of the loop is bound, the optimizer being over
    the model bound to [model], one turn of the loop of [train_one_epoch]
    is the step [train_step]: the model, the optimizer, the scaler and the
    generator become those of [train_step], in the order forward pass, loss
    scaled, step or skip, scale updated, metrics; the files are left
    alone. *)
Theorem train_batch_is_train_step (w : world B E) (data : batch)
  (acc : metrics) (a : nat) (m : model_obj) (o : optim_state E)
  (s : GradScaler.t) (st' : train_state B E) (out : tensor)
  (oD oA oC : obj B E) :
  globals w !! "DEVICE"%string = Some oD ->
  globals w !! "autocast"%string = Some oA ->
  globals w !! "criterion"%string = Some oC ->
  globals w !! "optimizer"%string = Some (OOptimizer a o) ->
  globals w !! "scaler"%string = Some (OScaler s) ->
  globals w !! "model"%string = Some (OModel a) ->
  models w !! a = Some (m, true) ->
  let st := {| ts_model := m; ts_optimizer := o; ts_scaler := s;
               ts_rng := rng w |} in
  train_step B E st data = Ok (st', out) ->
  total acc + Z.of_nat (length (snd data)) <> 0 ->
  exists acc' w',
    train_batch B E data acc w = (Ok acc', w')
    /\ models w' = <[a := (ts_model st', true)]> (models w)
    /\ globals w' !! "optimizer"%string
       = Some (OOptimizer a (ts_optimizer st'))
    /\ globals w' !! "scaler"%string = Some (OScaler (ts_scaler st'))
    /\ rng w' = ts_rng st'
    /\ disk w' = disk w
    /\ events w'
       = events w
         ++ [EvForward; EvLossScaled;
             if overflows B E st data then EvStepSkipped else EvParamUpdate;
             EvScaleUpdate; EvMetrics]
    /\ total acc' = total acc + Z.of_nat (length (snd data)).
Proof.
  intros HD HA HC HO HS HM Hcell st Hstep Htot.
  unfold train_step in Hstep. cbn [ts_model ts_rng st] in Hstep.
  destruct (call_model B E true m (fst data) (rng w)) as [[out' g1]|] eqn:Ecall;
    [|discriminate].
  cbn [rbind] in Hstep. injection Hstep as <- <-.
  unfold train_batch.
  rewrite (bind_ok B E _ _ _ tt w) by (apply use_names_ok; names_bound).
  rewrite (bind_ok B E _ _ _ (rng w) w) by reflexivity.
  erewrite bind_ok.
  2:{ unfold call_global_model.
      rewrite (bind_ok B E _ _ _ _ _ (get_model_ok B E _ _ _ HM)).
      rewrite (bind_ok B E _ _ _ _ _ (read_model_ok B E _ _ _ Hcell)).
      cbn [fst snd]. rewrite Ecall. reflexivity. }
  erewrite bind_ok by (apply use_names_ok; names_bound).
  cbn [fst snd].
  erewrite bind_ok.
  2:{ unfold scaler_lines.
      erewrite bind_ok by (apply get_scaler_ok; bound).
      erewrite bind_ok by reflexivity.
      erewrite bind_ok by (apply get_scaler_ok; bound).
      erewrite bind_ok by (apply get_optimizer_ok; bound).
      erewrite bind_ok by (apply read_model_ok; cbn [models]; exact Hcell).
      cbn [fst snd globals models rng disk events]. rewrite Nat.eqb_refl.
      erewrite bind_ok by reflexivity.
      cbn [globals models rng disk events].
      erewrite bind_ok by reflexivity.
      erewrite bind_ok by reflexivity.
      erewrite bind_ok by reflexivity.
      cbn [globals models rng disk events].
      erewrite bind_ok by (apply get_scaler_ok; bound).
      erewrite bind_ok by reflexivity.
      cbn [globals models rng disk events].
      reflexivity. }
  unfold accumulate. cbv zeta. cbn [total].
  destruct (Z.eqb_spec (total acc + Z.of_nat (length (snd data))) 0)
    as [E0|_]; [contradiction|].
  erewrite bind_ok by reflexivity.
  eexists. eexists. split; [reflexivity|].
  cbn [globals models rng disk events total].
  split; [reflexivity|].
  split; [rewrite lookup_insert_ne by done; apply lookup_insert_eq|].
  split; [apply lookup_insert_eq|].
  split; [symmetry; apply scaled_update_rng|]. split; [reflexivity|].
  split; [|reflexivity].
  rewrite <- !app_assoc. reflexivity.
Qed.

(** X15: on a loader of no batch [train_one_epoch] and [evaluate] raise
    [ZeroDivisionError], at their [return] ([running_loss / len(loader)]). *)
Theorem empty_loader_divides_by_zero (w : world B E) (epoch : Z) (a : nat)
  (c : model_obj * bool) (oT oE oTorch : obj B E) :
  globals w !! "model"%string = Some (OModel a) ->
  models w !! a = Some c ->
  globals w !! "tqdm"%string = Some oT ->
  globals w !! "EPOCHS"%string = Some oE ->
  (globals w !! "trainloader"%string = Some (OLoader []) ->
   fst (train_one_epoch B E epoch w) = Raise ZeroDivisionError)
  /\ (globals w !! "testloader"%string = Some (OLoader []) ->
      globals w !! "torch"%string = Some oTorch ->
      fst (evaluate B E epoch w) = Raise ZeroDivisionError).
Proof.
  intros HM Hcell HT HE. destruct c as [m mode]. split.
  - intros HL. unfold train_one_epoch.
    erewrite bind_ok by (eapply set_training_ok; bound).
    erewrite bind_ok by (apply use_names_ok; names_bound).
    erewrite bind_ok by (apply get_loader_ok; bound).
    erewrite bind_ok by (apply use_names_ok; names_bound).
    cbn [train_batches]. erewrite bind_ok by reflexivity.
    erewrite bind_ok by (apply use_names_ok; names_bound).
    reflexivity.
  - intros HL HTo. unfold evaluate.
    erewrite bind_ok by (eapply set_training_ok; bound).
    erewrite bind_ok by (apply use_names_ok; names_bound).
    erewrite bind_ok by (apply get_loader_ok; bound).
    erewrite bind_ok by (apply use_names_ok; names_bound).
    cbn [eval_batches]. erewrite bind_ok by reflexivity.
    erewrite bind_ok by (apply use_names_ok; names_bound).
    reflexivity.
Qed.

End Training.

Lemma train_batch_is_train_step_witness :
  exists acc' w',
    train_batch still_backend (example_collaborators still_backend)
      (zeros [1], [0]) zero_metrics example_training_world = (Ok acc', w')
    /\ events w'
       = [EvForward; EvLossScaled; EvStepSkipped; EvScaleUpdate; EvMetrics]
    /\ globals w' !! "scaler"%string
       = Some (OScaler
                 (ts_scaler
                    (scaled_update still_backend
                       (example_collaborators still_backend) example_state
                       (zeros [1], [0]) tt))).
Proof.
  destruct (train_batch_is_train_step still_backend
              (example_collaborators still_backend) example_training_world
              (zeros [1], [0]) zero_metrics 0 (TimmModel ∅) tt GradScaler.new
              (scaled_update still_backend
                 (example_collaborators still_backend) example_state
                 (zeros [1], [0]) tt)
              (zeros [1]) (OStr "cuda") OLib OLib
              eq_refl eq_refl eq_refl eq_refl eq_refl eq_refl eq_refl
              eq_refl)
    as (acc' & w' & Hrun & _ & _ & Hs & _ & _ & Hev & _).
  - simpl. lia.
  - exists acc', w'. split; [exact Hrun|]. split; [|exact Hs].
    rewrite Hev. reflexivity.
Defined.

Lemma empty_loader_divides_by_zero_witness :
  fst (train_one_epoch still_backend (example_collaborators still_backend) 0
         example_training_world) = Raise ZeroDivisionError
  /\ fst (evaluate still_backend (example_collaborators still_backend) 0
            example_training_world) = Raise ZeroDivisionError.
Proof.
  destruct (empty_loader_divides_by_zero still_backend
              (example_collaborators still_backend) example_training_world
              0 0 (TimmModel ∅, true) OLib (OInt 5) OLib
              eq_refl eq_refl eq_refl eq_refl) as [Htrain Heval].
  split; [apply Htrain | apply Heval]; reflexivity.
Defined.

(** ** The fine-tuning part binds what its training step uses *)

Section FineTuning.
Context (B : backend) (E : collaborators B).

Lemma get_float_ok (w : world B E) n q :
  globals w !! n = Some (OFloat q) -> get_float B E n w = (Ok q, w).
Proof.
  intros H. unfold get_float.
  now rewrite (bind_ok B E _ _ _ _ _ (load_global_ok B E _ _ _ H)).
Qed.

Ltac bound :=
  cbn [globals models rng disk events fold_left];
  rewrite ?lookup_insert_ne by done;
  first [ eassumption | apply lookup_insert_eq ].

Ltac names_bound :=
  repeat (apply Forall_cons; split; [eexists; bound|]); apply Forall_nil_2.

Ltac statement :=
  lazymatch goal with
  | |- use_names _ _ _ _ = _ => apply use_names_ok; names_bound
  | |- bind_names _ _ _ _ _ = _ => apply bind_names_ok
  | |- get_model _ _ _ _ = _ => apply get_model_ok; bound
  | |- get_int _ _ _ _ = _ => apply get_int_ok; bound
  | |- get_float _ _ _ _ = _ => apply get_float_ok; bound
  | |- get_func _ _ _ _ = _ => apply get_func_ok; bound
  | |- get_loader _ _ _ _ = _ => apply get_loader_ok; bound
  | |- read_model _ _ _ _ = _ =>
      apply read_model_ok; cbn [models];
      first [ eassumption | apply list_lookup_middle; reflexivity ]
  | |- store_global _ _ _ _ _ = _ => reflexivity
  | |- new_model _ _ _ _ = _ => reflexivity
  | |- write_model _ _ _ _ _ = _ => reflexivity
  end.

Lemma bind_assoc {A C D} (c : Script B E A) (k : A -> Script B E C)
  (k' : C -> Script B E D) w :
  bind B E (bind B E c k) k' w = bind B E c (fun a => bind B E (k a) k') w.
Proof. unfold bind. now destruct (c w) as [[a|e] w1]. Qed.

Ltac statements :=
  repeat (first [ rewrite bind_assoc | erewrite bind_ok by statement ];
          cbn [globals models rng disk events fold_left fst snd]).

(** X16: lines 245-353, run from any state, return (the new head being
    constructible) and leave every name of the training step bound:
    [scaler] to a fresh [GradScaler], [model] to a new model in training
    mode, the pretrained one with its head replaced, [optimizer] to an
    optimizer over that model, the loaders to those of the 224 x 224
    images in batches of 64, [EPOCHS] to 5. *)
Theorem fine_tuning_binds_its_names (w : world B E) (p : gmap string tensor) :
  set_head (head_init E) (timm_embed_dim E) 10 (timm_pretrained E) = Ok p ->
  exists w',
    bind B E (setup_fine_tuning B E)
      (fun _ => bind B E (build_fine_tuning B E)
                  (fun _ => define_functions B E)) w = (Ok tt, w')
    /\ globals w' !! "scaler"%string = Some (OScaler GradScaler.new)
    /\ globals w' !! "model"%string = Some (OModel (length (models w)))
    /\ models w' = models w ++ [(TimmModel p, true)]
    /\ globals w' !! "optimizer"%string
       = Some (OOptimizer (length (models w)) (optim_new E (TimmModel p)))
    /\ globals w' !! "trainloader"%string
       = Some (OLoader (cifar_loader E true 224 64))
    /\ globals w' !! "testloader"%string
       = Some (OLoader (cifar_loader E false 224 64))
    /\ globals w' !! "EPOCHS"%string = Some (OInt 5)
    /\ Forall (fun n => is_Some (globals w' !! n))
         ["DEVICE"; "autocast"; "criterion"; "tqdm"; "torch";
          "train_one_epoch"; "evaluate"]%string
    /\ rng w' = rng w /\ disk w' = disk w /\ events w' = events w.
Proof.
  intros Hhead.
  unfold setup_fine_tuning, build_fine_tuning, define_functions, make_loaders,
    imports.
  eexists. split.
  { statements. rewrite Hhead. statements.
    erewrite bind_ok
      by (apply read_model_ok; cbn [models]; apply list_lookup_insert_eq;
          rewrite length_app; simpl; lia).
    cbn [fst snd]. statements. reflexivity. }
  cbn [globals models rng disk events].
  split; [bound|]. split; [bound|].
  split.
  { rewrite insert_app_r_alt by lia. now rewrite Nat.sub_diag. }
  split; [bound|]. split; [bound|]. split; [bound|]. split; [bound|].
  split; [names_bound|]. repeat split.
Qed.

End FineTuning.

Lemma fine_tuning_binds_its_names_witness :
  exists w',
    bind still_backend (example_collaborators still_backend)
      (setup_fine_tuning still_backend (example_collaborators still_backend))
      (fun _ =>
         bind still_backend (example_collaborators still_backend)
           (build_fine_tuning still_backend
              (example_collaborators still_backend))
           (fun _ => define_functions still_backend
                       (example_collaborators still_backend)))
      (initial_world still_backend (example_collaborators still_backend) tt)
    = (Ok tt, w')
    /\ globals w' !! "scaler"%string = Some (OScaler GradScaler.new)
    /\ models w' = [(TimmModel example_fresh, true)].
Proof.
  destruct (fine_tuning_binds_its_names still_backend
              (example_collaborators still_backend)
              (initial_world still_backend
                 (example_collaborators still_backend) tt)
              example_fresh eq_refl)
    as (w' & Hrun & Hs & _ & Hm & _).
  exists w'. split; [exact Hrun|]. split; [exact Hs | exact Hm].
Defined.

(** ** The training loop of the script is a run of the training step *)

Section Loop.
Context (B : backend) (E : collaborators B).

Ltac bound :=
  cbn [globals models rng disk events fold_left];
  rewrite ?lookup_insert_ne by done;
  first [ eassumption | apply lookup_insert_eq ].

Ltac names_bound :=
  repeat (apply Forall_cons; split; [eexists; bound|]); apply Forall_nil_2.











(** A name that is not of a list given in full. *)
Ltac unlisted :=
  let H := fresh in
  intros H; apply (bool_decide_pack _) in H; vm_compute in H; exact H.






End Loop.


(** ** The names the script binds, and two it does not *)

Section Names.
Context (B : backend) (E : collaborators B).

Lemma bo_bind {A C} names (c : Script B E A) (k : A -> Script B E C) :
  binds_only names c -> (forall a, binds_only names (k a)) ->
  binds_only names (bind B E c k).
Proof.
  intros Hc Hk w n Hn. specialize (Hc w n Hn). unfold bind.
  destruct (c w) as [[a|e] w1]; cbn [snd] in *; [|exact Hc].
  now rewrite (Hk a w1 n Hn).
Qed.

Lemma bo_same {A} names (c : Script B E A) :
  (forall w, globals (snd (c w)) = globals w) -> binds_only names c.
Proof. intros Hc w n _. now rewrite Hc. Qed.

Lemma bo_mono {A} names names' (c : Script B E A) :
  names ⊆ names' -> binds_only names c -> binds_only names' c.
Proof. intros Hsub Hc w n Hn. apply Hc. intros Hin. apply Hn, Hsub, Hin. Qed.

Lemma bo_store names n o :
  n ∈ names -> binds_only names (store_global B E n o).
Proof.
  intros Hn w n' Hn'. cbn [store_global snd globals].
  apply lookup_insert_ne. now intros ->.
Qed.

Lemma bo_ret {A} names (a : A) : binds_only names (ret B E a).
Proof. now apply bo_same. Qed.

Lemma bo_throw {A} names e : binds_only names (throw B E (A := A) e).
Proof. now apply bo_same. Qed.

Lemma bo_bind_names names ns o :
  Forall (fun n => n ∈ names) ns -> binds_only names (bind_names B E ns o).
Proof.
  induction 1 as [|n ns Hn _ IH]; cbn [bind_names].
  - apply bo_ret.
  - apply bo_bind; [now apply bo_store | intros _; exact IH].
Qed.

Lemma bo_load names n : binds_only names (load_global B E n).
Proof.
  apply bo_same. intros w. unfold load_global. now destruct (globals w !! n).
Qed.

Lemma bo_use_names names ns : binds_only names (use_names B E ns).
Proof.
  induction ns as [|n ns IH]; cbn [use_names].
  - apply bo_ret.
  - apply bo_bind; [apply bo_load | intros _; exact IH].
Qed.

Ltac bo_get :=
  apply bo_bind; [apply bo_load|];
  intros []; first [apply bo_ret | apply bo_throw].

Lemma bo_get_int names n : binds_only names (get_int B E n).
Proof. unfold get_int. bo_get. Qed.

Lemma bo_get_float names n : binds_only names (get_float B E n).
Proof. unfold get_float. bo_get. Qed.

Lemma bo_get_model names n : binds_only names (get_model B E n).
Proof. unfold get_model. bo_get. Qed.

Lemma bo_get_loader names n : binds_only names (get_loader B E n).
Proof. unfold get_loader. bo_get. Qed.

Lemma bo_get_optimizer names n : binds_only names (get_optimizer B E n).
Proof. unfold get_optimizer. bo_get. Qed.

Lemma bo_get_scaler names n : binds_only names (get_scaler B E n).
Proof. unfold get_scaler. bo_get. Qed.

Lemma bo_get_func names n : binds_only names (get_func B E n).
Proof. unfold get_func. bo_get. Qed.

Lemma bo_emit names ev : binds_only names (emit B E ev).
Proof. now apply bo_same. Qed.

Lemma bo_new_model names m : binds_only names (new_model B E m).
Proof. now apply bo_same. Qed.

Lemma bo_read_model names a : binds_only names (read_model B E a).
Proof.
  apply bo_same. intros w. unfold read_model. now destruct (models w !! a).
Qed.

Lemma bo_write_model names a c : binds_only names (write_model B E a c).
Proof. now apply bo_same. Qed.

Lemma bo_get_rng names : binds_only names (get_rng B E).
Proof. now apply bo_same. Qed.

(** A name of a list given in full. *)
Ltac listed := refine (bool_decide_unpack _ _); vm_compute; exact I.

(** The statements of a script, one after the other. *)
Ltac bo :=
  repeat lazymatch goal with
  | |- binds_only _ (bind _ _ _ _) => apply bo_bind; [|intros ?]
  | |- binds_only _ (store_global _ _ _ _) => apply bo_store; listed
  | |- binds_only _ (bind_names _ _ _ _) =>
      apply bo_bind_names; repeat (constructor; [listed|]); constructor
  | |- binds_only _ (use_names _ _ _) => apply bo_use_names
  | |- binds_only _ (get_int _ _ _) => apply bo_get_int
  | |- binds_only _ (get_float _ _ _) => apply bo_get_float
  | |- binds_only _ (get_model _ _ _) => apply bo_get_model
  | |- binds_only _ (get_loader _ _ _) => apply bo_get_loader
  | |- binds_only _ (get_optimizer _ _ _) => apply bo_get_optimizer
  | |- binds_only _ (get_scaler _ _ _) => apply bo_get_scaler
  | |- binds_only _ (get_func _ _ _) => apply bo_get_func
  | |- binds_only _ (emit _ _ _) => apply bo_emit
  | |- binds_only _ (new_model _ _ _) => apply bo_new_model
  | |- binds_only _ (read_model _ _ _) => apply bo_read_model
  | |- binds_only _ (write_model _ _ _ _) => apply bo_write_model
  | |- binds_only _ (get_rng _ _) => apply bo_get_rng
  | |- binds_only _ (ret _ _ _) => apply bo_ret
  | |- binds_only _ (throw _ _ _) => apply bo_throw
  | |- binds_only _ (if ?x then _ else _) => destruct x
  | |- binds_only _ (match ?x with _ => _ end) => destruct x
  end.

Lemma bo_set_training names n mode :
  binds_only names (set_training B E n mode).
Proof. unfold set_training. bo. Qed.

Lemma bo_call_global_model names inputs :
  binds_only names (call_global_model B E inputs).
Proof.
  unfold call_global_model. bo.
  apply bo_same. intros w. now destruct (call_model _ _ _ _ _ _) as [[]|].
Qed.

Lemma bo_accumulate names acc outputs labels :
  binds_only names (accumulate B E acc outputs labels).
Proof. unfold accumulate. cbv zeta. bo. Qed.

Lemma bo_epoch_result names n acc :
  binds_only names (epoch_result B E n acc).
Proof. unfold epoch_result. bo. Qed.

Lemma bo_train_batch data acc :
  binds_only step_names (train_batch B E data acc).
Proof.
  unfold train_batch, scaler_lines. cbv zeta. bo;
    first [apply bo_call_global_model | apply bo_accumulate].
Qed.

Lemma bo_train_batches bs acc :
  binds_only step_names (train_batches B E bs acc).
Proof.
  revert acc. induction bs as [|data bs IH]; intros acc; cbn [train_batches].
  - apply bo_ret.
  - apply bo_bind; [apply bo_train_batch | intros ?; apply IH].
Qed.

Lemma bo_eval_batches names bs acc :
  binds_only names (eval_batches B E bs acc).
Proof.
  revert acc. induction bs as [|data bs IH]; intros acc; cbn [eval_batches].
  - apply bo_ret.
  - apply bo_bind; [|intros ?; apply IH].
    unfold eval_batch. bo;
      first [apply bo_call_global_model | apply bo_accumulate].
Qed.

Lemma bo_call_func f epoch : binds_only step_names (call_func B E f epoch).
Proof.
  destruct f; cbn [call_func]; [unfold train_one_epoch | unfold evaluate]; bo;
    first [ apply bo_set_training | apply bo_train_batches
          | apply bo_eval_batches | apply bo_epoch_result ].
Qed.

Lemma bo_epochs_loop : binds_only loop_names (epochs_loop B E).
Proof.
  unfold epochs_loop. apply bo_bind; [apply bo_get_int | intros n].
  generalize 0 as epoch. induction (Z.to_nat n) as [|k IH]; intros epoch;
    cbn [epochs_from].
  - apply bo_ret.
  - apply bo_bind; [|intros _; apply IH].
    unfold epoch_body. bo;
      (apply (bo_mono step_names); [|apply bo_call_func]);
      intros x Hx; apply elem_of_app; now right.
Qed.

Lemma bo_make_loaders s b : binds_only loader_names (make_loaders B E s b).
Proof. unfold make_loaders. bo. Qed.

Lemma loader_names_scratch : loader_names ⊆ from_scratch_names.
Proof.
  intros x Hx. unfold from_scratch_names. rewrite !elem_of_app. tauto.
Qed.

Lemma loop_names_scratch : loop_names ⊆ from_scratch_names.
Proof.
  intros x Hx. unfold from_scratch_names. rewrite !elem_of_app. tauto.
Qed.

Lemma loader_names_fine_tuning : loader_names ⊆ fine_tuning_names.
Proof.
  intros x Hx. unfold fine_tuning_names. rewrite !elem_of_app. tauto.
Qed.

Lemma loop_names_fine_tuning : loop_names ⊆ fine_tuning_names.
Proof.
  intros x Hx. unfold fine_tuning_names. rewrite !elem_of_app. tauto.
Qed.

Lemma bo_from_scratch : binds_only from_scratch_names (from_scratch B E).
Proof.
  unfold from_scratch, prepare. bo.
  - unfold setup_from_scratch, imports. bo.
  - apply (bo_mono loader_names);
      [apply loader_names_scratch | apply bo_make_loaders].
  - unfold build_from_scratch. bo.
  - unfold define_functions. bo.
  - apply (bo_mono loop_names);
      [apply loop_names_scratch | apply bo_epochs_loop].
Qed.

(** Lines 245-361: the fine-tuning part down to the end of its loop. *)
Lemma bo_fine_tuning_loop :
  binds_only fine_tuning_names
    (bind B E (setup_fine_tuning B E)
       (fun _ => bind B E (build_fine_tuning B E)
          (fun _ => bind B E (define_functions B E)
             (fun _ => epochs_loop B E)))).
Proof.
  bo.
  - unfold setup_fine_tuning, imports. bo.
  - unfold build_fine_tuning. bo.
    apply (bo_mono loader_names);
      [apply loader_names_fine_tuning | apply bo_make_loaders].
  - unfold define_functions. bo.
  - apply (bo_mono loop_names);
      [apply loop_names_fine_tuning | apply bo_epochs_loop].
Qed.

Lemma bo_save_and_reload :
  binds_only ["model"%string] (save_and_reload B E).
Proof.
  unfold save_and_reload. bo;
    first [ apply bo_set_training
          | apply bo_same; intros w;
            try (destruct (torch_load _ _)); reflexivity ].
Qed.

Lemma bo_fine_tuning : binds_only fine_tuning_names (fine_tuning B E).
Proof.
  unfold fine_tuning. bo.
  - unfold setup_fine_tuning, imports. bo.
  - unfold build_fine_tuning. bo.
    apply (bo_mono loader_names);
      [apply loader_names_fine_tuning | apply bo_make_loaders].
  - unfold define_functions. bo.
  - apply (bo_mono loop_names);
      [apply loop_names_fine_tuning | apply bo_epochs_loop].
  - apply (bo_mono ["model"%string]); [|apply bo_save_and_reload].
    intros x Hx. apply elem_of_cons in Hx as [->|Hx]; [listed|].
    now apply elem_of_nil in Hx.
Qed.

Lemma needs_after {A C} names name (c : Script B E A)
  (k : A -> Script B E C) :
  binds_only names c -> name ∉ names ->
  (forall a, needs_name name (k a)) ->
  needs_name name (bind B E c k).
Proof.
  intros Hc Hn Hk w Hw. specialize (Hc w name Hn). unfold bind.
  destruct (c w) as [[a|e] w1]; cbn [snd fst] in *; [|now exists e].
  apply Hk. now rewrite Hc.
Qed.

Lemma needs_get_int {C} name (k : Z -> Script B E C) :
  needs_name name (bind B E (get_int B E name) k).
Proof.
  intros w Hw. exists (NameError name).
  unfold bind, get_int, bind, load_global. now rewrite Hw.
Qed.

(** A name that is not of a list given in full. *)
Ltac unlisted :=
  let H := fresh in
  intros H; apply (bool_decide_pack _) in H; vm_compute in H; exact H.

Lemma needs_visualization :
  needs_name "PRETRAINED_IMG_SIZE"%string (visualization_setup B E).
Proof.
  unfold visualization_setup.
  do 7 (apply (needs_after
                 ["plt"; "np"; "random"; "torch"; "NUM_IMAGES_TO_SHOW";
                  "NUM_COLS"; "classes"]%string);
        [first [apply bo_set_training | bo] | unlisted | intros _]).
  apply needs_get_int.
Qed.

(** X18: no line of the script binds [PRETRAINED_IMG_SIZE] (the
    fine-tuning part binds [pretrained_imgSize]).  From a state where it is
    unbound, the script followed by lines 371-385 does not return, nor does
    the fine-tuning part followed by them; and where [model], [testset]
    and [transforms] are bound, lines 371-385 raise [NameError] for it. *)
Theorem visualization_never_returns (w : world B E) :
  globals w !! "PRETRAINED_IMG_SIZE"%string = None ->
  (exists e,
      fst (bind B E (script B E) (fun _ => visualization_setup B E) w)
      = Raise e)
  /\ (exists e,
        fst (bind B E (fine_tuning B E) (fun _ => visualization_setup B E) w)
        = Raise e)
  /\ (forall a c oS oT,
        globals w !! "model"%string = Some (OModel a) ->
        models w !! a = Some c ->
        globals w !! "testset"%string = Some oS ->
        globals w !! "transforms"%string = Some oT ->
        fst (visualization_setup B E w)
        = Raise (NameError "PRETRAINED_IMG_SIZE"%string)).
Proof.
  intros Hw. split; [|split].
  - revert w Hw.
    apply (needs_after (from_scratch_names ++ fine_tuning_names));
      [| unlisted | intros _; apply needs_visualization].
    unfold script. apply bo_bind; [|intros _].
    + apply (bo_mono from_scratch_names); [|apply bo_from_scratch].
      intros x Hx. apply elem_of_app. now left.
    + apply (bo_mono fine_tuning_names); [|apply bo_fine_tuning].
      intros x Hx. apply elem_of_app. now right.
  - revert w Hw.
    apply (needs_after fine_tuning_names);
      [apply bo_fine_tuning | unlisted
      | intros _; apply needs_visualization].
  - intros a [m mode] oS oT HM Hcell HS HT. unfold visualization_setup.
    erewrite bind_ok by apply bind_names_ok.
    cbn [globals models rng disk events fold_left].
    erewrite bind_ok by reflexivity.
    erewrite bind_ok by reflexivity.
    cbn [globals models rng disk events].
    erewrite bind_ok.
    2:{ eapply set_training_ok; cbn [globals models].
        - rewrite !lookup_insert_ne by done. exact HM.
        - exact Hcell. }
    cbn [globals models rng disk events].
    erewrite bind_ok.
    2:{ apply use_names_ok. apply Forall_cons. split; [|apply Forall_nil_2].
        eexists. cbn [globals]. rewrite !lookup_insert_ne by done. exact HS. }
    erewrite bind_ok by apply bind_names_ok.
    cbn [globals models rng disk events fold_left].
    erewrite bind_ok.
    2:{ apply use_names_ok.
        repeat (apply Forall_cons; split;
                [eexists; cbn [globals]; rewrite !lookup_insert_ne by done;
                 exact HT|]).
        apply Forall_nil_2. }
    unfold bind, get_int, bind, load_global. cbn [globals].
    rewrite !lookup_insert_ne by done. rewrite Hw. reflexivity.
Qed.

Lemma needs_save_and_reload :
  needs_name "NUM_CLASSES"%string (save_and_reload B E).
Proof.
  unfold save_and_reload.
  do 9 (apply (needs_after ["model"%string]);
        [first [ progress bo
               | apply bo_same; intros w; reflexivity ]
        | unlisted | intros ?]).
  apply needs_get_int.
Qed.

(** X19: the fine-tuning part binds [numClass], and reads [NUM_CLASSES]
    at line 366, which only the first part binds.  From a state where
    [NUM_CLASSES] is unbound the fine-tuning part does not return; lines
    363-369, run there, have written the checkpoint and bound [model] to a
    new pretrained model when they raise [NameError]. *)
Theorem fine_tuning_needs_num_classes (w : world B E) :
  globals w !! "NUM_CLASSES"%string = None ->
  (exists e, fst (fine_tuning B E w) = Raise e)
  /\ (forall a c oT oTi,
        globals w !! "torch"%string = Some oT ->
        globals w !! "timm"%string = Some oTi ->
        globals w !! "model"%string = Some (OModel a) ->
        models w !! a = Some c ->
        exists w',
          save_and_reload B E w = (Raise (NameError "NUM_CLASSES"), w')
          /\ disk w' = <[checkpoint_path := state_dict (fst c)]> (disk w)
          /\ globals w' !! "model"%string = Some (OModel (length (models w)))
          /\ models w' = models w ++ [(TimmModel (timm_pretrained E), true)]).
Proof.
  intros Hw. split.
  - revert w Hw. unfold fine_tuning.
    assert (Hloop := bo_fine_tuning_loop).
    intros w Hw.
    specialize (Hloop w "NUM_CLASSES"%string).
    revert Hloop. unfold bind.
    destruct (setup_fine_tuning B E w) as [[[]|e] w1]; [|now exists e].
    destruct (build_fine_tuning B E w1) as [[[]|e] w2]; [|now exists e].
    destruct (define_functions B E w2) as [[[]|e] w3]; [|now exists e].
    destruct (epochs_loop B E w3) as [[[]|e] w4]; [|now exists e].
    cbn [snd fst]. intros Hloop.
    apply needs_save_and_reload. rewrite Hloop; [exact Hw | unlisted].
  - intros a c oT oTi HT HTi HM Hcell. unfold save_and_reload.
    erewrite bind_ok
      by (apply use_names_ok; apply Forall_cons; split;
          [eexists; exact HT | apply Forall_nil_2]).
    erewrite bind_ok by (apply get_model_ok; exact HM).
    erewrite bind_ok by (apply read_model_ok; exact Hcell).
    erewrite bind_ok by (cbv beta; reflexivity).
    cbn [globals models rng disk events].
    erewrite bind_ok
      by (apply use_names_ok; apply Forall_cons; split;
          [eexists; cbn [globals]; exact HTi | apply Forall_nil_2]).
    erewrite bind_ok by reflexivity.
    cbn [globals models rng disk events].
    erewrite bind_ok by reflexivity.
    cbn [globals models rng disk events].
    erewrite bind_ok
      by (apply use_names_ok; apply Forall_cons; split;
          [eexists; cbn [globals]; rewrite lookup_insert_ne by done;
           exact HT | apply Forall_nil_2]).
    erewrite bind_ok by (apply get_model_ok; apply lookup_insert_eq).
    eexists. split.
    { apply bind_raise. unfold get_int. apply bind_raise.
      unfold load_global. cbn [globals].
      rewrite lookup_insert_ne by done. rewrite Hw. reflexivity. }
    cbn [globals models rng disk events].
    split; [reflexivity|]. split; [apply lookup_insert_eq | reflexivity].
Qed.

End Names.

Lemma visualization_never_returns_witness :
  exists e,
    fst (bind still_backend (example_collaborators still_backend)
           (script still_backend (example_collaborators still_backend))
           (fun _ => visualization_setup still_backend
                       (example_collaborators still_backend))
           (initial_world still_backend (example_collaborators still_backend)
              tt))
    = Raise e.
Proof.
  apply (visualization_never_returns still_backend
           (example_collaborators still_backend)
           (initial_world still_backend (example_collaborators still_backend)
              tt)).
  reflexivity.
Defined.

Lemma fine_tuning_needs_num_classes_witness :
  exists e,
    fst (fine_tuning still_backend (example_collaborators still_backend)
           (initial_world still_backend (example_collaborators still_backend)
              tt))
    = Raise e.
Proof.
  apply (fine_tuning_needs_num_classes still_backend
           (example_collaborators still_backend)
           (initial_world still_backend (example_collaborators still_backend)
              tt)).
  reflexivity.
Defined.
